(** * Gutenberg word-frequency tool: text analysis, cache store, title lookup

    A shallow embedding of [text_utils.py], [db_utils.py] and the two event
    handlers of [main.py], with the properties of the lookup-and-cache
    pipeline proved over it.

    Text model.  A Python [str] is a sequence of code points; here a text is
    a [string] whose characters are the code points U+0000..U+00FF.  Case
    mapping, whitespace and line boundaries follow Python's rules on that
    range.  [extract_title], whose title test upper-cases the line, is
    embedded a second time on texts of any code points (module [Unicode]);
    the two embeddings agree up to U+00FF.  Integers are [Z]. *)

From Stdlib Require Import String Ascii List ZArith NArith Bool Lia.
From Stdlib Require Import Sorted Permutation.
Import ListNotations.

Local Open Scope string_scope.
Local Open Scope bool_scope.

(* ===================================================================== *)
(** ** Characters and strings as Python sees them *)
(* ===================================================================== *)

Module PyStr.

Definition code (c : ascii) : N := N_of_ascii c.

Definition between (lo hi : N) (c : ascii) : bool :=
  ((lo <=? code c) && (code c <=? hi))%N.

(** [str.lower] on one code point: A-Z and the Latin-1 capitals U+00C0..U+00DE
    (U+00D7, the multiplication sign, apart) move up by 32. *)
Definition lower_char (c : ascii) : ascii :=
  if between 65 90 c || between 192 214 c || between 216 222 c
  then ascii_of_N (code c + 32)
  else c.

Fixpoint lower (s : string) : string :=
  match s with
  | EmptyString => EmptyString
  | String c s' => String (lower_char c) (lower s')
  end.

(** [str.upper] on one code point.  The result is a sequence of code points
    and may leave the range: U+00DF gives "SS", U+00B5 gives U+039C and
    U+00FF gives U+0178. *)
Definition upper_char (c : ascii) : list N :=
  if between 97 122 c || between 224 246 c || between 248 254 c
  then [(code c - 32)%N]
  else if (code c =? 223)%N then [83%N; 83%N]
  else if (code c =? 181)%N then [924%N]
  else if (code c =? 255)%N then [376%N]
  else [code c].

Fixpoint upper (s : string) : list N :=
  match s with
  | EmptyString => []
  | String c s' => upper_char c ++ upper s'
  end.

Fixpoint codes (s : string) : list N :=
  match s with
  | EmptyString => []
  | String c s' => code c :: codes s'
  end.

(** [xs.startswith(p)] on code point sequences. *)
Fixpoint startswith_codes (p xs : list N) : bool :=
  match p, xs with
  | [], _ => true
  | _ :: _, [] => false
  | a :: p', x :: xs' => (a =? x)%N && startswith_codes p' xs'
  end.

(** [str.isspace] on one code point: U+0009..U+000D, U+001C..U+0020, U+0085
    and U+00A0. *)
Definition isspace (c : ascii) : bool :=
  between 9 13 c || between 28 32 c || (code c =? 133)%N || (code c =? 160)%N.

Fixpoint lstrip (s : string) : string :=
  match s with
  | EmptyString => EmptyString
  | String c s' => if isspace c then lstrip s' else s
  end.

(** Removal of trailing whitespace: a character is kept when it is not a
    space or when something is kept after it. *)
Fixpoint rstrip (s : string) : string :=
  match s with
  | EmptyString => EmptyString
  | String c s' =>
      match rstrip s' with
      | EmptyString => if isspace c then EmptyString else String c EmptyString
      | r => String c r
      end
  end.

(** [s.strip()] *)
Definition strip (s : string) : string := rstrip (lstrip s).

(** [s[k:]] for [k >= 0]. *)
Fixpoint drop (k : nat) (s : string) : string :=
  match k, s with
  | O, _ => s
  | S _, EmptyString => EmptyString
  | S k', String _ s' => drop k' s'
  end.

(** [bool(s)]: a string is true when it is not empty. *)
Definition truthy (s : string) : bool :=
  match s with EmptyString => false | String _ _ => true end.

(** [s.startswith(p)] *)
Fixpoint startswith (p s : string) : bool :=
  match p, s with
  | EmptyString, _ => true
  | String _ _, EmptyString => false
  | String a p', String b s' => Ascii.eqb a b && startswith p' s'
  end.

(** [s.endswith(p)] *)
Definition endswith (p s : string) : bool :=
  (String.length p <=? String.length s)%nat &&
  String.eqb (drop (String.length s - String.length p) s) p.

(** [p in s]: [p] occurs in [s] as a substring. *)
Fixpoint contains (p s : string) : bool :=
  startswith p s ||
  match s with
  | EmptyString => false
  | String _ s' => contains p s'
  end.

(** Line boundaries of [str.splitlines]: LF, VT, FF, CR, FS, GS, RS and NEL;
    CR LF counts as one boundary. *)
Definition is_linebreak (c : ascii) : bool :=
  between 10 13 c || between 28 30 c || (code c =? 133)%N.

(** [splitlines_from cur s]: the lines of [s], [cur] being the part of the
    current line already read.  No empty line is produced after a final
    boundary. *)
Fixpoint splitlines_from (cur : string) (s : string) : list string :=
  match s with
  | EmptyString => if truthy cur then [cur] else []
  | String c s' =>
      if is_linebreak c then
        match s' with
        | String d s'' =>
            if (code c =? 13)%N && (code d =? 10)%N
            then cur :: splitlines_from EmptyString s''
            else cur :: splitlines_from EmptyString s'
        | EmptyString => [cur]
        end
      else splitlines_from (cur ++ String c EmptyString) s'
  end.

Definition splitlines (s : string) : list string :=
  splitlines_from EmptyString s.

End PyStr.

(* ===================================================================== *)
(** ** Data model and effects *)
(* ===================================================================== *)

(** What can be raised: [requests.RequestException], or any other
    [Exception]; both carry their message. *)
Inductive exn : Type :=
| RequestException (msg : string)
| OtherException (msg : string).

(** The body of an HTTP response: [response.text], and what
    [response.json()] gives for it, a Gutendex answer of the shape
    [{results: [{formats: {label: location, ...}}, ...]}]; a key may be
    missing.  A dict is the list of its items in insertion order. *)
Record gutendex_book : Type := { formats : option (list (string * string)) }.
Record gutendex_data : Type := { results : option (list gutendex_book) }.

Record response : Type := {
  text : string;
  json : exn + gutendex_data
}.

(** The two tables of [books.db].  A table is the list of its rows in rowid
    order. *)
Record book_row : Type := {
  book_id : Z;
  book_title : string;
  book_url : string
}.

Record word_freq_row : Type := {
  wf_id : Z;
  wf_book_id : Z;
  wf_word : string;
  wf_frequency : Z
}.

(** [seq_books] and [seq_word_freqs] are the entries of [sqlite_sequence]:
    the largest rowid the AUTOINCREMENT column of the table has used. *)
Record database : Type := {
  books : list book_row;
  word_freqs : list word_freq_row;
  seq_books : Z;
  seq_word_freqs : Z
}.

(** A message box: kind, title and message. *)
Inductive dialog : Type :=
| showinfo (title msg : string)
| showerror (title msg : string).

(** Everything a handler of the application reads or changes: the database
    file, the network, the URLs requested so far, and the widgets.  The
    network is [requests.get] followed by [raise_for_status]: what a request
    for a URL gives, after the requests made before it. *)
Record world : Type := {
  store : database;
  http : list string -> string -> exn + response;
  requested : list string;
  title_entry : string;
  url_entry : string;
  tree : list (string * Z);
  status_label : string;
  dialogs : list dialog
}.

(** Computations that read and change the world and may raise. *)
Definition M (A : Type) : Type := world -> (exn + A) * world.

Definition ret {A} (a : A) : M A := fun w => (inr a, w).

Definition raise {A} (e : exn) : M A := fun w => (inl e, w).

Definition bind {A B} (c : M A) (k : A -> M B) : M B :=
  fun w =>
    match c w with
    | (inl e, w') => (inl e, w')
    | (inr a, w') => k a w'
    end.

(** [try: c except Exception as exc: h exc] *)
Definition try_except {A} (c : M A) (h : exn -> M A) : M A :=
  fun w =>
    match c w with
    | (inl e, w') => h e w'
    | (inr a, w') => (inr a, w')
    end.

Declare Scope py_scope.
Delimit Scope py_scope with py.
Notation "x <- c ;; k" := (bind c (fun x => k))
  (at level 61, c at next level, right associativity) : py_scope.
Notation "c ;;; k" := (bind c (fun _ => k))
  (at level 61, right associativity) : py_scope.

Definition with_store (d : database) (w : world) : world :=
  {| store := d; http := http w; requested := requested w;
     title_entry := title_entry w; url_entry := url_entry w;
     tree := tree w; status_label := status_label w; dialogs := dialogs w |}.

Definition with_requested (l : list string) (w : world) : world :=
  {| store := store w; http := http w; requested := l;
     title_entry := title_entry w; url_entry := url_entry w;
     tree := tree w; status_label := status_label w; dialogs := dialogs w |}.

Definition with_tree (t : list (string * Z)) (w : world) : world :=
  {| store := store w; http := http w; requested := requested w;
     title_entry := title_entry w; url_entry := url_entry w;
     tree := t; status_label := status_label w; dialogs := dialogs w |}.

Definition with_status_label (t : string) (w : world) : world :=
  {| store := store w; http := http w; requested := requested w;
     title_entry := title_entry w; url_entry := url_entry w;
     tree := tree w; status_label := t; dialogs := dialogs w |}.

Definition with_dialogs (l : list dialog) (w : world) : world :=
  {| store := store w; http := http w; requested := requested w;
     title_entry := title_entry w; url_entry := url_entry w;
     tree := tree w; status_label := status_label w; dialogs := l |}.

(* ===================================================================== *)
(** ** text_utils.py *)
(* ===================================================================== *)

Module TextUtils.

Import PyStr.

Definition STOPWORDS : list string :=
  [ "the"; "a"; "an"; "and"; "or"; "but"; "if"; "in"; "on"; "at"; "to";
    "of"; "for"; "with"; "without"; "from"; "by";
    "i"; "you"; "he"; "she"; "it"; "we"; "they";
    "this"; "that"; "these"; "those"; "is"; "are"; "was"; "were"; "be";
    "as"; "so"; "than"; "then"; "there"; "here" ].

Definition in_stopwords (t : string) : bool :=
  existsb (String.eqb t) STOPWORDS.

(** *** extract_title *)

(** [line.upper().startswith("TITLE:")], for a line of code points up to
    U+00FF ([Unicode.is_title_line] is the test on any line). *)
Definition is_title_line (line : string) : bool :=
  startswith_codes (codes "TITLE:") (upper line).

(** First loop: [for line in lines[:60]], where the argument is the slice. *)
Fixpoint scan_title (lines : list string) : option string :=
  match lines with
  | [] => None
  | line :: rest =>
      let line := strip line in
      if is_title_line line then Some (strip (drop 6 line))
      else scan_title rest
  end.

(** Second loop: the first line that is not blank. *)
Fixpoint first_non_empty (lines : list string) : option string :=
  match lines with
  | [] => None
  | line :: rest =>
      if truthy (strip line) then Some (strip line)
      else first_non_empty rest
  end.

Definition extract_title (text : string) : string :=
  let lines := splitlines text in
  match scan_title (firstn 60 lines) with
  | Some t => t
  | None =>
      match first_non_empty lines with
      | Some t => t
      | None => "Unknown Title"
      end
  end.

(** *** compute_top_words *)

(** The character class [[a-z']]. *)
Definition is_token_char (c : ascii) : bool :=
  between 97 122 c || (code c =? 39)%N.

(** [re.findall(r"[a-z']+", s)]: the maximal runs of class characters, from
    left to right; [cur] is the run being read. *)
Fixpoint findall_from (cur : string) (s : string) : list string :=
  match s with
  | EmptyString => if truthy cur then [cur] else []
  | String c s' =>
      if is_token_char c then findall_from (cur ++ String c EmptyString) s'
      else if truthy cur then cur :: findall_from EmptyString s'
      else findall_from EmptyString s'
  end.

Definition findall_tokens (s : string) : list string :=
  findall_from EmptyString s.

(** [t not in STOPWORDS and len(t) > 1] *)
Definition keep_token (t : string) : bool :=
  negb (in_stopwords t) && (1 <? String.length t)%nat.

Definition filtered_tokens (text : string) : list string :=
  filter keep_token (findall_tokens (lower text)).

(** [collections.Counter]: a dict from word to count, which keeps its keys
    in the order of their first insertion.  Counting one more occurrence of
    [w] increments its entry in place, or appends a new entry. *)
Fixpoint counter_add (c : list (string * Z)) (w : string) : list (string * Z) :=
  match c with
  | [] => [(w, 1%Z)]
  | (k, v) :: c' =>
      if String.eqb k w then (k, (v + 1)%Z) :: c'
      else (k, v) :: counter_add c' w
  end.

Definition Counter (tokens : list string) : list (string * Z) :=
  fold_left counter_add tokens [].

(** [sorted(items, key=itemgetter(1), reverse=True)]: a stable sort, so
    items of equal count keep their relative order.  An item goes in front of
    the first item whose count is not larger than its own. *)
Fixpoint insert_by_count (x : string * Z) (l : list (string * Z))
  : list (string * Z) :=
  match l with
  | [] => [x]
  | y :: l' =>
      if (snd x <? snd y)%Z then y :: insert_by_count x l'
      else x :: l
  end.

Fixpoint sorted_by_count_desc (l : list (string * Z)) : list (string * Z) :=
  match l with
  | [] => []
  | x :: l' => insert_by_count x (sorted_by_count_desc l')
  end.

(** [Counter.most_common(n)] for an integer [n], that is
    [heapq.nlargest(n, items, key=itemgetter(1))]: the first [n] items of the
    stable descending sort, and nothing when [n <= 0]. *)
Definition most_common (c : list (string * Z)) (n : Z) : list (string * Z) :=
  firstn (Z.to_nat n) (sorted_by_count_desc c).

Definition compute_top_words (text : string) (n : Z) : list (string * Z) :=
  most_common (Counter (filtered_tokens text)) n.

(** *** search_gutenberg_by_title *)

Definition hex_digit (n : N) : ascii :=
  if (n <? 10)%N then ascii_of_N (48 + n) else ascii_of_N (55 + n).

(** ["%XX"] for one byte. *)
Definition percent_byte (b : N) : string :=
  String "%" (String (hex_digit (b / 16)) (String (hex_digit (b mod 16)) EmptyString)).

(** The characters [quote_plus] leaves as they are: letters, digits and
    [_.-~]. *)
Definition is_unreserved (c : ascii) : bool :=
  between 65 90 c || between 97 122 c || between 48 57 c ||
  (code c =? 95)%N || (code c =? 46)%N || (code c =? 45)%N || (code c =? 126)%N.

(** [urllib.parse.quote_plus]: a space becomes [+]; any other reserved
    character is percent-encoded byte by byte in UTF-8 (two bytes from U+0080
    on). *)
Definition quote_plus_char (c : ascii) : string :=
  if is_unreserved c then String c EmptyString
  else if (code c =? 32)%N then "+"
  else if (code c <? 128)%N then percent_byte (code c)
  else percent_byte (192 + code c / 64) ++ percent_byte (128 + code c mod 64).

Fixpoint quote_plus (s : string) : string :=
  match s with
  | EmptyString => EmptyString
  | String c s' => quote_plus_char c ++ quote_plus s'
  end.

(** First loop over [formats.items()]: a [text/plain] entry whose location
    ends in [.txt]. *)
Fixpoint prefer_txt (items : list (string * string)) : option string :=
  match items with
  | [] => None
  | (key, value) :: rest =>
      if contains "text/plain" key && endswith ".txt" value then Some value
      else prefer_txt rest
  end.

(** Second loop: any [text/plain] entry. *)
Fixpoint any_plain (items : list (string * string)) : option string :=
  match items with
  | [] => None
  | (key, value) :: rest =>
      if contains "text/plain" key then Some value
      else any_plain rest
  end.

(** The part of [search_gutenberg_by_title] after [data = response.json()]. *)
Definition select_plain_text (data : gutendex_data) : option string :=
  match results data with
  | None | Some [] => None
  | Some (first_book :: _) =>
      let formats := match formats first_book with Some f => f | None => [] end in
      match prefer_txt formats with
      | Some v => Some v
      | None => any_plain formats
      end
  end.

(** [requests.get(url, timeout=...)] followed by
    [response.raise_for_status()]; the URL is recorded. *)
Definition requests_get (url : string) : M response :=
  fun w =>
    let w' := with_requested (requested w ++ [url]) w in
    match http w (requested w) url with
    | inl e => (inl e, w')
    | inr r => (inr r, w')
    end.

(** [response.json()] *)
Definition response_json (r : response) : M gutendex_data :=
  match json r with
  | inl e => raise e
  | inr d => ret d
  end.

Definition fetch_book_text (url : string) : M string :=
  (response <- requests_get url ;;
   ret (text response))%py.

Definition search_gutenberg_by_title (title : string) : M (option string) :=
  if negb (truthy title) then ret None
  else
    let query := quote_plus title in
    let url := "https://gutendex.com/books?search=" ++ query in
    (response <- requests_get url ;;
     data <- response_json response ;;
     ret (select_plain_text data))%py.

End TextUtils.

(* ===================================================================== *)
(** ** extract_title on texts of any code points *)
(* ===================================================================== *)

(** [extract_title] once more, on the whole of Unicode: a text is a list of
    code points.  White space is what [str.strip] removes and line
    boundaries are those of [str.splitlines], over all code points.
    [str.upper] maps each code point, whatever stands next to it, to a
    sequence of code points: up to U+00FF it is [PyStr.upper_char]; beyond,
    it is given by the case table of the Unicode database the interpreter
    is built with, [case_table], an argument of the definitions that upper
    case a text. *)
Module Unicode.

(** [str.isspace] on one code point. *)
Definition isspace (c : N) : bool :=
  ((9 <=? c) && (c <=? 13) || (28 <=? c) && (c <=? 32) ||
   (c =? 133) || (c =? 160) || (c =? 5760) ||
   (8192 <=? c) && (c <=? 8202) || (c =? 8232) || (c =? 8233) ||
   (c =? 8239) || (c =? 8287) || (c =? 12288))%N.

Fixpoint lstrip (s : list N) : list N :=
  match s with
  | [] => []
  | c :: s' => if isspace c then lstrip s' else s
  end.

Fixpoint rstrip (s : list N) : list N :=
  match s with
  | [] => []
  | c :: s' =>
      match rstrip s' with
      | [] => if isspace c then [] else [c]
      | r => c :: r
      end
  end.

(** [s.strip()] *)
Definition strip (s : list N) : list N := rstrip (lstrip s).

(** [bool(s)] *)
Definition truthy (s : list N) : bool :=
  match s with [] => false | _ :: _ => true end.

(** Line boundaries of [str.splitlines]: LF, VT, FF, CR, FS, GS, RS, NEL,
    U+2028 and U+2029; CR LF counts as one boundary. *)
Definition is_linebreak (c : N) : bool :=
  ((10 <=? c) && (c <=? 13) || (28 <=? c) && (c <=? 30) ||
   (c =? 133) || (c =? 8232) || (c =? 8233))%N.

Fixpoint splitlines_from (cur : list N) (s : list N) : list (list N) :=
  match s with
  | [] => if truthy cur then [cur] else []
  | c :: s' =>
      if is_linebreak c then
        match s' with
        | d :: s'' =>
            if (c =? 13)%N && (d =? 10)%N
            then cur :: splitlines_from [] s''
            else cur :: splitlines_from [] s'
        | [] => [cur]
        end
      else splitlines_from (cur ++ [c]) s'
  end.

Definition splitlines (s : list N) : list (list N) := splitlines_from [] s.

(** [str.upper] on one code point. *)
Definition upper_char (case_table : N -> list N) (c : N) : list N :=
  if (c <? 256)%N then PyStr.upper_char (ascii_of_N c) else case_table c.

Fixpoint upper (case_table : N -> list N) (s : list N) : list N :=
  match s with
  | [] => []
  | c :: s' => upper_char case_table c ++ upper case_table s'
  end.

(** [line.upper().startswith("TITLE:")] *)
Definition is_title_line (case_table : N -> list N) (line : list N) : bool :=
  PyStr.startswith_codes (PyStr.codes "TITLE:") (upper case_table line).

(** First loop: [for line in lines[:60]], where the argument is the slice;
    [line[6:]] is [skipn 6 line]. *)
Fixpoint scan_title (case_table : N -> list N) (lines : list (list N))
  : option (list N) :=
  match lines with
  | [] => None
  | line :: rest =>
      let line := strip line in
      if is_title_line case_table line then Some (strip (skipn 6 line))
      else scan_title case_table rest
  end.

(** Second loop: the first line that is not blank. *)
Fixpoint first_non_empty (lines : list (list N)) : option (list N) :=
  match lines with
  | [] => None
  | line :: rest =>
      if truthy (strip line) then Some (strip line)
      else first_non_empty rest
  end.

Definition extract_title (case_table : N -> list N) (text : list N) : list N :=
  let lines := splitlines text in
  match scan_title case_table (firstn 60 lines) with
  | Some t => t
  | None =>
      match first_non_empty lines with
      | Some t => t
      | None => PyStr.codes "Unknown Title"
      end
  end.

End Unicode.

(* ===================================================================== *)
(** ** db_utils.py *)
(* ===================================================================== *)

Module DbUtils.

(** A connection: what is on disk, and the state seen through the
    connection, which holds the changes not yet committed. *)
Record connection : Type := {
  on_disk : database;
  in_txn : database
}.

Definition get_connection (file : database) : connection :=
  {| on_disk := file; in_txn := file |}.

Definition commit (c : connection) : connection :=
  {| on_disk := in_txn c; in_txn := in_txn c |}.

(** Closing leaves on disk what was committed: pending changes are rolled
    back. *)
Definition close (c : connection) : database := on_disk c.

Definition execute (f : database -> database) (c : connection) : connection :=
  {| on_disk := on_disk c; in_txn := f (in_txn c) |}.

(** A database file just created, once [init_db] has made both tables. *)
Definition new_database : database :=
  {| books := []; word_freqs := []; seq_books := 0; seq_word_freqs := 0 |}.

(** [CREATE TABLE IF NOT EXISTS] twice: the tables of an existing file are
    left as they are. *)
Definition init_db (file : option database) : database :=
  match file with
  | None => new_database
  | Some d => d
  end.

(** SQL [LOWER]: only A-Z are folded. *)
Definition sql_lower_char (c : ascii) : ascii :=
  if PyStr.between 65 90 c then ascii_of_N (PyStr.code c + 32) else c.

Fixpoint sql_lower (s : string) : string :=
  match s with
  | EmptyString => EmptyString
  | String c s' => String (sql_lower_char c) (sql_lower s')
  end.

(** [SELECT id, title, url FROM books WHERE LOWER(title) = LOWER(?)], then
    [fetchone]: the first matching row of the table scan. *)
Definition get_book_by_title (d : database) (title : string)
  : option (Z * string * string) :=
  match find (fun r => String.eqb (sql_lower (book_title r)) (sql_lower title))
             (books d) with
  | Some r => Some (book_id r, book_title r, book_url r)
  | None => None
  end.

(** [ORDER BY frequency DESC, word ASC] *)
Definition row_before (a b : string * Z) : bool :=
  (snd b <? snd a)%Z || ((snd a =? snd b)%Z && String.leb (fst a) (fst b)).

Fixpoint insert_ordered (x : string * Z) (l : list (string * Z))
  : list (string * Z) :=
  match l with
  | [] => [x]
  | y :: l' => if row_before x y then x :: l else y :: insert_ordered x l'
  end.

Fixpoint order_by (l : list (string * Z)) : list (string * Z) :=
  match l with
  | [] => []
  | x :: l' => insert_ordered x (order_by l')
  end.

Definition get_word_frequencies (d : database) (id : Z) : list (string * Z) :=
  order_by
    (map (fun r => (wf_word r, wf_frequency r))
         (filter (fun r => (wf_book_id r =? id)%Z) (word_freqs d))).

Definition max_id (ids : list Z) : Z := fold_right Z.max 0%Z ids.

(** [INSERT INTO books (title, url) VALUES (?, ?)
     ON CONFLICT(title) DO UPDATE SET url = excluded.url].
    [title] is [UNIQUE] under the default collation, which compares exactly.
    The row id is drawn before the conflict is looked for, so the sequence
    of the table moves on in both cases.  Ids are integers without the bound
    of 64 bits: a table whose sequence stands at 2^63-1, where SQLite can
    draw no id and raises, is outside this model ([DbUtils64] has the
    bound). *)
Definition upsert_book (title url : string) (d : database) : database :=
  if existsb (fun r => String.eqb (book_title r) title) (books d)
  then
    {| books := map (fun r => if String.eqb (book_title r) title
                              then {| book_id := book_id r;
                                      book_title := book_title r;
                                      book_url := url |}
                              else r) (books d);
       word_freqs := word_freqs d;
       seq_books := (Z.max (seq_books d) (max_id (map book_id (books d))) + 1)%Z;
       seq_word_freqs := seq_word_freqs d |}
  else
    let id := (Z.max (seq_books d) (max_id (map book_id (books d))) + 1)%Z in
    {| books := books d ++ [{| book_id := id; book_title := title; book_url := url |}];
       word_freqs := word_freqs d;
       seq_books := id;
       seq_word_freqs := seq_word_freqs d |}.

(** [SELECT id FROM books WHERE title = ?], then [fetchone]. *)
Definition select_book_id (d : database) (title : string) : option Z :=
  match find (fun r => String.eqb (book_title r) title) (books d) with
  | Some r => Some (book_id r)
  | None => None
  end.

(** [DELETE FROM word_freqs WHERE book_id = ?] *)
Definition delete_word_freqs (id : Z) (d : database) : database :=
  {| books := books d;
     word_freqs := filter (fun r => negb (wf_book_id r =? id)%Z) (word_freqs d);
     seq_books := seq_books d;
     seq_word_freqs := seq_word_freqs d |}.

(** One [INSERT INTO word_freqs (book_id, word, frequency) VALUES (?, ?, ?)].
    Binding an integer that does not fit 64 bits raises [OverflowError]; a
    second row for the same [(book_id, word)] raises [IntegrityError].  The
    row id is an integer without the bound of 64 bits, as for [books]. *)
Definition insert_word_freq (id : Z) (wf : string * Z) (d : database)
  : exn + database :=
  let (w, f) := wf in
  if negb ((- 2 ^ 63 <=? f)%Z && (f <? 2 ^ 63)%Z)
  then inl (OtherException "Python int too large to convert to SQLite INTEGER")
  else if existsb (fun r => (wf_book_id r =? id)%Z && String.eqb (wf_word r) w)
                  (word_freqs d)
  then inl (OtherException
              "UNIQUE constraint failed: word_freqs.book_id, word_freqs.word")
  else
    let rid := (Z.max (seq_word_freqs d) (max_id (map wf_id (word_freqs d))) + 1)%Z in
    inr {| books := books d;
           word_freqs := word_freqs d ++
             [{| wf_id := rid; wf_book_id := id; wf_word := w; wf_frequency := f |}];
           seq_books := seq_books d;
           seq_word_freqs := rid |}.

(** [cur.executemany]: the rows one after the other, until one raises. *)
Fixpoint executemany_insert (id : Z) (rows : list (string * Z)) (d : database)
  : exn + database :=
  match rows with
  | [] => inr d
  | wf :: rest =>
      match insert_word_freq id wf d with
      | inl e => inl e
      | inr d' => executemany_insert id rest d'
      end
  end.

(** The result is what was raised, if anything, and the file as
    [conn.close()] in the [finally] clause leaves it. *)
Definition insert_or_update_book (file : database) (title url : string)
    (word_freqs : list (string * Z)) : (exn + unit) * database :=
  let conn := get_connection file in
  let conn := execute (upsert_book title url) conn in
  let conn := commit conn in
  match select_book_id (in_txn conn) title with
  | None => (inr tt, close conn)
  | Some book_id =>
      let conn := execute (delete_word_freqs book_id) conn in
      match executemany_insert book_id word_freqs (in_txn conn) with
      | inl e => (inl e, close conn)
      | inr d =>
          let conn := execute (fun _ => d) conn in
          let conn := commit conn in
          (inr tt, close conn)
      end
  end.

End DbUtils.

(* ===================================================================== *)
(** ** db_utils.py with row ids of 64 bits *)
(* ===================================================================== *)

(** The writes of [insert_or_update_book] once more, with the bound SQLite
    puts on row ids.  An [INSERT] into a table with [AUTOINCREMENT] draws the
    id of the new row before anything else is done for the row, also when
    the row then meets a conflict; no id can be drawn once the sequence of
    the table, or its largest id, stands at 2^63-1, and the statement fails
    ("database or disk is full").  Where an id can be drawn the statements
    do what they do in [DbUtils]. *)
Module DbUtils64.

Import DbUtils.

Definition MAX_ROWID : Z := (2 ^ 63 - 1)%Z.

(** The id drawn for a table whose sequence stands at [seq] and whose rows
    have the ids [ids]. *)
Definition new_rowid (seq : Z) (ids : list Z) : option Z :=
  if (Z.max seq (max_id ids) <? MAX_ROWID)%Z
  then Some (Z.max seq (max_id ids) + 1)%Z
  else None.

(** [INSERT INTO books ... ON CONFLICT(title) DO UPDATE ...] *)
Definition upsert_book (title url : string) (d : database) : exn + database :=
  match new_rowid (seq_books d) (map book_id (books d)) with
  | None => inl (OtherException "database or disk is full")
  | Some _ => inr (DbUtils.upsert_book title url d)
  end.

(** One [INSERT INTO word_freqs ...]: the parameters are bound, then the id
    is drawn, then the row is checked and written. *)
Definition insert_word_freq (id : Z) (wf : string * Z) (d : database)
  : exn + database :=
  let (w, f) := wf in
  if negb ((- 2 ^ 63 <=? f)%Z && (f <? 2 ^ 63)%Z)
  then inl (OtherException "Python int too large to convert to SQLite INTEGER")
  else
    match new_rowid (seq_word_freqs d) (map wf_id (word_freqs d)) with
    | None => inl (OtherException "database or disk is full")
    | Some _ => DbUtils.insert_word_freq id (w, f) d
    end.

Fixpoint executemany_insert (id : Z) (rows : list (string * Z)) (d : database)
  : exn + database :=
  match rows with
  | [] => inr d
  | wf :: rest =>
      match insert_word_freq id wf d with
      | inl e => inl e
      | inr d' => executemany_insert id rest d'
      end
  end.

Definition insert_or_update_book (file : database) (title url : string)
    (word_freqs : list (string * Z)) : (exn + unit) * database :=
  let conn := get_connection file in
  match upsert_book title url (in_txn conn) with
  | inl e => (inl e, close conn)
  | inr d0 =>
      let conn := execute (fun _ => d0) conn in
      let conn := commit conn in
      match select_book_id (in_txn conn) title with
      | None => (inr tt, close conn)
      | Some book_id =>
          let conn := execute (delete_word_freqs book_id) conn in
          match executemany_insert book_id word_freqs (in_txn conn) with
          | inl e => (inl e, close conn)
          | inr d =>
              let conn := execute (fun _ => d) conn in
              let conn := commit conn in
              (inr tt, close conn)
          end
      end
  end.

End DbUtils64.

(* ===================================================================== *)
(** ** main.py: the handlers of [GutenbergApp] *)
(* ===================================================================== *)

Module Main.

Import PyStr.
Local Open Scope py_scope.

(** The functions of [db_utils], run on the database file of the world. *)
Definition get_book_by_title (title : string) : M (option (Z * string * string)) :=
  fun w => (inr (DbUtils.get_book_by_title (store w) title), w).

Definition get_word_frequencies (id : Z) : M (list (string * Z)) :=
  fun w => (inr (DbUtils.get_word_frequencies (store w) id), w).

Definition insert_or_update_book (title url : string)
    (word_freqs : list (string * Z)) : M unit :=
  fun w =>
    let (r, d) := DbUtils.insert_or_update_book (store w) title url word_freqs in
    (r, with_store d w).

(** Helper methods. *)
Definition clear_results : M unit :=
  fun w => (inr tt, with_tree [] w).

Definition show_results (word_freqs : list (string * Z)) : M unit :=
  clear_results ;;;
  fun w => (inr tt, with_tree (tree w ++ word_freqs) w).

Definition set_status (t : string) : M unit :=
  fun w => (inr tt, with_status_label t w).

Definition messagebox (d : dialog) : M unit :=
  fun w => (inr tt, with_dialogs (dialogs w ++ [d]) w).

(** The two [except] clauses shared by both handlers. *)
Definition on_exception (e : exn) : M unit :=
  match e with
  | RequestException msg =>
      set_status ("Network error: " ++ msg) ;;;
      messagebox (showerror "Network Error" msg)
  | OtherException msg =>
      set_status ("Error: " ++ msg) ;;;
      messagebox (showerror "Error" msg)
  end.

(** Steps 2 and 3 of [on_search_title]: the catalogue, then the text. *)
Definition search_fetch_store (title : string) : M unit :=
  text_url <- TextUtils.search_gutenberg_by_title title ;;
  match text_url with
  | Some text_url =>
      if truthy text_url then
        text <- TextUtils.fetch_book_text text_url ;;
        let book_title := TextUtils.extract_title text in
        let top_words := TextUtils.compute_top_words text 10 in
        insert_or_update_book book_title text_url top_words ;;;
        show_results top_words ;;;
        set_status ("Retrieved '" ++ book_title ++ "' from the web and stored it.")
      else
        set_status "Book was not found." ;;;
        messagebox (showinfo "Info" "Book was not found.")
  | None =>
      set_status "Book was not found." ;;;
      messagebox (showinfo "Info" "Book was not found.")
  end.

(** The body of the [try] of [on_search_title]. *)
Definition search_title_body (title : string) : M unit :=
  book <- get_book_by_title title ;;
  match book with
  | Some (book_id, stored_title, _url) =>
      word_freqs <- get_word_frequencies book_id ;;
      match word_freqs with
      | _ :: _ =>
          show_results (firstn 10 word_freqs) ;;;
          set_status ("Loaded '" ++ stored_title ++ "' from local database.")
      | [] => search_fetch_store title
      end
  | None => search_fetch_store title
  end.

Definition on_search_title (w : world) : world :=
  let title := strip (title_entry w) in
  if negb (truthy title) then
    snd (set_status "Please enter a book title." w)
  else
    snd ((clear_results ;;;
          try_except (search_title_body title) on_exception) w).

Definition on_search_url (w : world) : world :=
  let url := strip (url_entry w) in
  if negb (truthy url) then
    snd (set_status "Please enter a Project Gutenberg URL." w)
  else
    snd ((clear_results ;;;
          try_except
            (text <- TextUtils.fetch_book_text url ;;
             let book_title := TextUtils.extract_title text in
             let top_words := TextUtils.compute_top_words text 10 in
             insert_or_update_book book_title url top_words ;;;
             show_results top_words ;;;
             set_status ("Stored/updated '" ++ book_title ++ "' from URL."))
            on_exception) w).

End Main.

(* ===================================================================== *)
(** ** Vocabulary of the properties *)
(* ===================================================================== *)

(** Position of the first occurrence of [w] in [l] (the length of [l] when
    there is none). *)
Fixpoint index_of (w : string) (l : list string) : nat :=
  match l with
  | [] => 0
  | t :: l' => if String.eqb t w then 0 else S (index_of w l')
  end.

(** Count descending, ties by [tie]. *)
Definition ranked (tie : string * Z -> string * Z -> Prop) (a b : string * Z)
  : Prop :=
  (snd b < snd a)%Z \/ (snd a = snd b /\ tie a b).

(** Count descending, ties by ascending word. *)
Definition count_desc_word_asc (a b : string * Z) : Prop :=
  (snd b < snd a)%Z \/ (snd a = snd b /\ String.leb (fst a) (fst b) = true).

(** Count descending, ties by first occurrence in [tokens]. *)
Definition count_desc_first_seen (tokens : list string) (a b : string * Z) : Prop :=
  (snd b < snd a)%Z \/
  (snd a = snd b /\ index_of (fst a) tokens < index_of (fst b) tokens).

(** Every character of [s] satisfies [p]. *)
Fixpoint all_chars (p : ascii -> bool) (s : string) : bool :=
  match s with
  | EmptyString => true
  | String c s' => p c && all_chars p s'
  end.

(** A-Z or a-z. *)
Definition is_letter (c : ascii) : bool :=
  PyStr.between 65 90 c || PyStr.between 97 122 c.

(** The last character of a string that is not empty. *)
Fixpoint last_char (c : ascii) (s : string) : ascii :=
  match s with
  | EmptyString => c
  | String d s' => last_char d s'
  end.

(** [s] starts with [prefix] when case is ignored. *)
Definition startswith_ignoring_case (prefix s : string) : bool :=
  PyStr.startswith (PyStr.lower prefix) (PyStr.lower s).

(** A line is blank when nothing is left of it once trimmed. *)
Definition is_blank (line : string) : bool :=
  negb (PyStr.truthy (PyStr.strip line)).

(** The line feed, as a string. *)
Definition LF : string := String (ascii_of_nat 10) EmptyString.

(** A line of code points is blank when nothing is left of it once trimmed. *)
Definition blank_line (line : list N) : bool :=
  negb (Unicode.truthy (Unicode.strip line)).

(** Ignoring case against a pattern of the letters A-Z other than K and S:
    a code point stands for a letter of the pattern when it is that letter,
    capital or small.  (Unicode's case folding sends no other code point to
    these letters.) *)
Definition fold_ascii (c : N) : N :=
  if ((65 <=? c) && (c <=? 90))%N then (c + 32)%N else c.

Definition starts_ignoring_case (prefix : string) (xs : list N) : bool :=
  PyStr.startswith_codes (map fold_ascii (PyStr.codes prefix)) (map fold_ascii xs).

(** The same, the dotless i (U+0131) counting as an i. *)
Definition undot (c : N) : N := if (c =? 305)%N then 105%N else c.

Definition starts_ignoring_case_and_dot (prefix : string) (xs : list N) : bool :=
  starts_ignoring_case prefix (map undot xs).

(** One of the characters of ["TITLE:"]. *)
Definition in_title (x : N) : bool :=
  existsb (N.eqb x) (PyStr.codes "TITLE:").

(** What the title test depends on in the case table beyond U+00FF, as the
    Unicode database has it: U+0131 gives I; no code point loses its upper
    case; no other code point gives one of the characters of ["TITLE:"], or
    a sequence that starts with the colon, or a sequence that starts with
    one of the letters and goes on with a character of ["TITLE:"] (U+1E97
    gives T followed by U+0308). *)
Definition title_case_table (case_table : N -> list N) : Prop :=
  case_table 305%N = [73%N] /\
  forall c, (256 <= c)%N -> c <> 305%N ->
    match case_table c with
    | [] => False
    | [x] => in_title x = false
    | x :: y :: _ => x <> 58%N /\ (in_title x = true -> in_title y = false)
    end.

(** A case table with U+0131 and U+1E97 as in the Unicode database, which
    leaves the other code points beyond U+00FF as they are. *)
Definition example_case_table (c : N) : list N :=
  if (c =? 305)%N then [73%N]
  else if (c =? 7831)%N then [84%N; 776%N]
  else [c].

(** A text whose first line starts with the letters of "title:", the second
    of them the dotless i. *)
Definition example_dotless_text : list N :=
  (PyStr.codes "t" ++ [305%N] ++ PyStr.codes "tle: Ghost" ++ [10%N] ++
   PyStr.codes "Title: Moby Dick")%list.

(** The selection rule for the plain-text location among the items of a
    formats map. *)
Definition is_plain_txt (kv : string * string) : bool :=
  PyStr.contains "text/plain" (fst kv) && PyStr.endswith ".txt" (snd kv).

Definition is_plain (kv : string * string) : bool :=
  PyStr.contains "text/plain" (fst kv).

Definition first_plain_text (items : list (string * string)) : option string :=
  match find is_plain_txt items with
  | Some kv => Some (snd kv)
  | None =>
      match find is_plain items with
      | Some kv => Some (snd kv)
      | None => None
      end
  end.

(** The catalogue request for a title. *)
Definition search_url (title : string) : string :=
  "https://gutendex.com/books?search=" ++ TextUtils.quote_plus title.

(** The rows of book [id], as stored. *)
Definition rows_of (d : database) (id : Z) : list (string * Z) :=
  map (fun r => (wf_word r, wf_frequency r))
      (filter (fun r => (wf_book_id r =? id)%Z) (word_freqs d)).

(** The rows of the other books. *)
Definition rows_of_others (d : database) (id : Z) : list word_freq_row :=
  filter (fun r => negb (wf_book_id r =? id)%Z) (word_freqs d).

(** The titles stored, in row order. *)
Definition titles (d : database) : list string := map book_title (books d).

(** A sequence of calls of [insert_or_update_book], whatever each raises. *)
Fixpoint run_inserts (calls : list (string * string * list (string * Z)))
    (d : database) : database :=
  match calls with
  | [] => d
  | (title, url, wfs) :: rest =>
      run_inserts rest (snd (DbUtils.insert_or_update_book d title url wfs))
  end.

(** The ways [on_search_title] ends without reaching the analysis of a
    fetched text, for the trimmed title [title]. *)
Inductive stops_before_analysis (w : world) (title : string) : Prop :=
| stop_no_title :
    PyStr.truthy title = false -> stops_before_analysis w title
| stop_cache_hit id stored url row rows :
    DbUtils.get_book_by_title (store w) title = Some (id, stored, url) ->
    DbUtils.get_word_frequencies (store w) id = row :: rows ->
    stops_before_analysis w title
| stop_search_raises e :
    http w (requested w) (search_url title) = inl e ->
    stops_before_analysis w title
| stop_json_raises r e :
    http w (requested w) (search_url title) = inr r -> json r = inl e ->
    stops_before_analysis w title
| stop_not_found r data :
    http w (requested w) (search_url title) = inr r -> json r = inr data ->
    TextUtils.select_plain_text data = None ->
    stops_before_analysis w title
| stop_empty_location r data u :
    http w (requested w) (search_url title) = inr r -> json r = inr data ->
    TextUtils.select_plain_text data = Some u -> PyStr.truthy u = false ->
    stops_before_analysis w title
| stop_fetch_raises r data u e :
    http w (requested w) (search_url title) = inr r -> json r = inr data ->
    TextUtils.select_plain_text data = Some u -> PyStr.truthy u = true ->
    http w (requested w ++ [search_url title]) u = inl e ->
    stops_before_analysis w title.

(** The world once the catalogue has been asked. *)
Definition asked (title : string) (w : world) : world :=
  with_requested (requested w ++ [search_url title]) w.

(** What a cache miss of [on_search_title] does, from world [w] to [w']:
    the catalogue is asked first, and when it gives a location whose text
    can be fetched, the two requests are made in that order and the store
    is what [insert_or_update_book] leaves for the analysed text. *)
Definition miss_outcome (w w' : world) (title : string) : Prop :=
  (exists rest, requested w' = (requested w ++ search_url title :: rest)%list) /\
  (forall r data u r2,
      http w (requested w) (search_url title) = inr r -> json r = inr data ->
      TextUtils.select_plain_text data = Some u -> PyStr.truthy u = true ->
      http w (requested w ++ [search_url title]) u = inr r2 ->
      requested w' = (requested w ++ [search_url title; u])%list /\
      store w' = snd (DbUtils.insert_or_update_book (store w)
                        (TextUtils.extract_title (text r2)) u
                        (TextUtils.compute_top_words (text r2) 10))).

(** The cache check of [on_search_title] for [title] on store [d]. *)
Definition cache_hit (d : database) (title : string) : Prop :=
  exists id stored url row rows,
    DbUtils.get_book_by_title d title = Some (id, stored, url) /\
    DbUtils.get_word_frequencies d id = row :: rows.

(** A call of [on_search_title] from world [w] that misses the cache, finds
    a location, fetches [body] there, and stores its analysis without
    raising. *)
Definition fetches_and_stores (w : world) (title body : string) : Prop :=
  ~ cache_hit (store w) title /\
  exists r data u r2,
    http w (requested w) (search_url title) = inr r /\ json r = inr data /\
    TextUtils.select_plain_text data = Some u /\ PyStr.truthy u = true /\
    http w (requested w ++ [search_url title]) u = inr r2 /\
    text r2 = body /\
    fst (DbUtils.insert_or_update_book (store w)
           (TextUtils.extract_title body) u
           (TextUtils.compute_top_words body 10)) = inr tt.

(** What a cache hit does: no request, no write, the stored rows shown. *)
Definition hit_outcome (w w' : world) (stored : string)
    (word_freqs : list (string * Z)) : Prop :=
  requested w' = requested w /\
  store w' = store w /\
  dialogs w' = dialogs w /\
  tree w' = firstn 10 word_freqs /\
  status_label w' = "Loaded '" ++ stored ++ "' from local database.".

(** *** Worlds used as examples *)

(** A catalogue answer whose first book offers a web page, a plain text whose
    location does not end in [.txt], and one whose location does. *)
Definition example_catalogue : response :=
  {| text := EmptyString;
     json := inr {| results := Some
       [ {| formats := Some
              [ ("text/html", "https://www.gutenberg.org/ebooks/7.html.images");
                ("text/plain; charset=us-ascii",
                 "https://www.gutenberg.org/ebooks/7.txt.utf-8");
                ("text/plain", "https://www.gutenberg.org/files/7/7-0.txt") ] |};
         {| formats := None |} ] |} |}.

Definition example_text : string :=
  "Title: The Cat" ++ LF ++ "The cat sat on the mat. The Cat ran.".

Definition example_page : response :=
  {| text := example_text; json := inl (OtherException "Expecting value") |}.

(** A network that knows one book. *)
Definition example_http (before : list string) (url : string)
  : exn + response :=
  if String.eqb url (search_url "the cat") then inr example_catalogue
  else if String.eqb url "https://www.gutenberg.org/files/7/7-0.txt"
  then inr example_page
  else inl (RequestException "404 Client Error: Not Found").

(** The same network once the text of the book has gone. *)
Definition example_http_gone (before : list string) (url : string)
  : exn + response :=
  if String.eqb url (search_url "the cat") then inr example_catalogue
  else inl (RequestException "404 Client Error: Not Found").

Definition example_world (d : database)
    (net : list string -> string -> exn + response)
    (entry : string) : world :=
  {| store := d; http := net; requested := [];
     title_entry := entry; url_entry := EmptyString;
     tree := []; status_label := "Ready."; dialogs := [] |}.

(** A store that holds the book with one row, and one that holds it with
    none. *)
Definition example_store : database :=
  {| books := [ {| book_id := 1; book_title := "The Cat";
                   book_url := "https://www.gutenberg.org/files/7/7-0.txt" |} ];
     word_freqs := [ {| wf_id := 1; wf_book_id := 1;
                        wf_word := "cat"; wf_frequency := 3 |} ];
     seq_books := 1; seq_word_freqs := 1 |}.

Definition example_store_no_rows : database :=
  {| books := books example_store; word_freqs := [];
     seq_books := 1; seq_word_freqs := 1 |}.

(* ===================================================================== *)
(** ** Vocabulary of the further properties *)
(* ===================================================================== *)

(** Number of occurrences of [w] in [l]. *)
Fixpoint occurrences (w : string) (l : list string) : Z :=
  match l with
  | [] => 0
  | t :: l' => (if String.eqb t w then 1 else 0) + occurrences w l'
  end.

(** The characters a percent-encoded query is made of. *)
Definition is_query_char (c : ascii) : bool :=
  TextUtils.is_unreserved c || (PyStr.code c =? 43)%N || (PyStr.code c =? 37)%N.

(** An integer SQLite can store. *)
Definition fits_int64 (f : Z) : Prop := (- 2 ^ 63 <= f < 2 ^ 63)%Z.

(** The [(book_id, word)] pairs of the frequency table, in row order. *)
Definition word_keys (d : database) : list (Z * string) :=
  map (fun r => (wf_book_id r, wf_word r)) (word_freqs d).


(** The user types into an entry. *)
Definition with_title_entry (t : string) (w : world) : world :=
  {| store := store w; http := http w; requested := requested w;
     title_entry := t; url_entry := url_entry w;
     tree := tree w; status_label := status_label w; dialogs := dialogs w |}.

Definition with_url_entry (t : string) (w : world) : world :=
  {| store := store w; http := http w; requested := requested w;
     title_entry := title_entry w; url_entry := t;
     tree := tree w; status_label := status_label w; dialogs := dialogs w |}.

(** What the two [except] clauses show for an exception. *)
Definition error_status (e : exn) : string :=
  match e with
  | RequestException msg => "Network error: " ++ msg
  | OtherException msg => "Error: " ++ msg
  end.

Definition error_dialog (e : exn) : dialog :=
  match e with
  | RequestException msg => showerror "Network Error" msg
  | OtherException msg => showerror "Error" msg
  end.

(** What the user does: type a title and press Search, or type a URL and
    press Fetch & Update. *)
Inductive action : Type :=
| press_search (entry : string)
| press_fetch (entry : string).

Definition run_action (a : action) (w : world) : world :=
  match a with
  | press_search entry => Main.on_search_title (with_title_entry entry w)
  | press_fetch entry => Main.on_search_url (with_url_entry entry w)
  end.

Fixpoint run_actions (l : list action) (w : world) : world :=
  match l with
  | [] => w
  | a :: rest => run_actions rest (run_action a w)
  end.

(** A handler call from [w] to [w'] that ends in an [except] clause after
    requesting [urls]: nothing is stored, the results are left empty and the
    exception is shown. *)
Definition reports_error (w w' : world) (urls : list string) (e : exn) : Prop :=
  store w' = store w /\
  requested w' = (requested w ++ urls)%list /\
  tree w' = [] /\
  status_label w' = error_status e /\
  dialogs w' = (dialogs w ++ [error_dialog e])%list.

(** A by-title call that ends with "Book was not found." *)
Definition reports_not_found (w w' : world) (title : string) : Prop :=
  store w' = store w /\
  requested w' = (requested w ++ [search_url title])%list /\
  tree w' = [] /\
  status_label w' = "Book was not found." /\
  dialogs w' = (dialogs w ++ [showinfo "Info" "Book was not found."])%list.

(** A handler call that fetched [body] at [url] after requesting [urls] and
    went on to store its analysis: the store is what insert_or_update_book
    leaves; the analysis is shown when the call returns, the exception when
    it raises.  [done] is the status line of the handler. *)
Definition stores_analysis (w w' : world) (urls : list string)
    (url body done : string) : Prop :=
  requested w' = (requested w ++ urls)%list /\
  store w' = snd (DbUtils.insert_or_update_book (store w)
                    (TextUtils.extract_title body) url
                    (TextUtils.compute_top_words body 10)) /\
  match fst (DbUtils.insert_or_update_book (store w)
               (TextUtils.extract_title body) url
               (TextUtils.compute_top_words body 10)) with
  | inr _ =>
      tree w' = TextUtils.compute_top_words body 10 /\
      status_label w' = done /\
      dialogs w' = dialogs w
  | inl e =>
      tree w' = [] /\
      status_label w' = error_status e /\
      dialogs w' = (dialogs w ++ [error_dialog e])%list
  end.

(* ===================================================================== *)
(** ** Lists *)
(* ===================================================================== *)

Lemma In_firstn {A} (x : A) n l : In x (firstn n l) -> In x l.
Proof.
  revert l. induction n as [|n IH]; intros [|a l]; simpl; try tauto.
  intros [H|H]; auto.
Qed.

Lemma StronglySorted_firstn {A} (R : A -> A -> Prop) n l :
  StronglySorted R l -> StronglySorted R (firstn n l).
Proof.
  intros H. revert n. induction H as [|a l Hs IH Ha]; intros [|n]; simpl;
    try constructor; auto.
  rewrite Forall_forall in *. intros b Hb. apply Ha.
  now apply In_firstn in Hb.
Qed.

Lemma StronglySorted_snoc {A} (R : A -> A -> Prop) l x :
  StronglySorted R l -> Forall (fun y => R y x) l -> StronglySorted R (l ++ [x]).
Proof.
  induction 1 as [|a l Hs IH Ha]; simpl; intros Hx.
  - repeat constructor.
  - inversion Hx; subst. constructor; [auto|].
    apply Forall_app. split; [assumption|]. now constructor.
Qed.

Lemma StronglySorted_weaken {A} (R R' : A -> A -> Prop) l :
  (forall a b, In a l -> In b l -> R a b -> R' a b) ->
  StronglySorted R l -> StronglySorted R' l.
Proof.
  intros HR H. induction H as [|a l Hs IH Ha]; constructor.
  - apply IH. intros; apply HR; simpl; auto.
  - rewrite Forall_forall in *. intros b Hb. apply HR; simpl; auto.
Qed.

Lemma StronglySorted_map_inv {A B} (f : A -> B) (R : B -> B -> Prop) l :
  StronglySorted R (map f l) -> StronglySorted (fun a b => R (f a) (f b)) l.
Proof.
  induction l as [|a l IH]; simpl; intros H; [constructor|].
  inversion H as [|? ? Hs Ha]; subst. constructor; [auto|].
  now rewrite Forall_map in Ha.
Qed.

Lemma filter_none {A} (f : A -> bool) l :
  Forall (fun x => f x = false) l -> filter f l = [].
Proof.
  induction 1 as [|x l Hx _ IH]; simpl; [reflexivity|]. now rewrite Hx.
Qed.

Lemma filter_all {A} (f : A -> bool) l :
  Forall (fun x => f x = true) l -> filter f l = l.
Proof.
  induction 1 as [|x l Hx _ IH]; simpl; [reflexivity|]. now rewrite Hx, IH.
Qed.

Lemma filter_filter_negb {A} (f : A -> bool) l :
  filter f (filter (fun x => negb (f x)) l) = [].
Proof.
  apply filter_none, Forall_forall. intros x Hx.
  apply filter_In in Hx. now apply negb_true_iff.
Qed.

Lemma filter_idem {A} (f : A -> bool) l : filter f (filter f l) = filter f l.
Proof.
  apply filter_all, Forall_forall. intros x Hx. now apply filter_In in Hx.
Qed.

Lemma find_map_same {A} (p : A -> bool) (f : A -> A) l :
  (forall x, p (f x) = p x) ->
  find p (map f l) = option_map f (find p l).
Proof.
  intros H. induction l as [|x l IH]; simpl; [reflexivity|].
  rewrite H. destruct (p x); auto.
Qed.

Lemma find_snoc {A} (p : A -> bool) l x :
  find p (l ++ [x]) =
  match find p l with
  | Some y => Some y
  | None => if p x then Some x else None
  end.
Proof.
  induction l as [|y l IH]; simpl; [reflexivity|].
  destruct (p y); auto.
Qed.

(* ===================================================================== *)
(** ** Strings *)
(* ===================================================================== *)

Section StringFacts.

Import PyStr.

Lemma append_length (a b : string) :
  String.length (a ++ b) = String.length a + String.length b.
Proof. induction a as [|x a IH]; simpl; [reflexivity|now rewrite IH]. Qed.

(** [startswith p s] holds exactly when [s] is [p] followed by something. *)
Lemma startswith_spec p : forall s,
  startswith p s = true <-> exists r, s = p ++ r.
Proof.
  induction p as [|a p IH]; intros s; simpl.
  - split; [eauto|reflexivity].
  - destruct s as [|b s].
    + split; [discriminate|]. intros (r & H). discriminate.
    + rewrite andb_true_iff, Ascii.eqb_eq, IH. split.
      * intros (-> & r & ->). eauto.
      * intros (r & H). inversion H; subst. eauto.
Qed.

(** [contains p s] holds exactly when [p] occurs somewhere in [s]. *)
Lemma contains_spec p : forall s,
  contains p s = true <-> exists a b, s = a ++ p ++ b.
Proof.
  induction s as [|c s IH].
  - simpl. rewrite orb_false_r, startswith_spec. split.
    + intros (r & H). exists EmptyString, r. assumption.
    + intros (a & b & H). destruct a; [eauto|discriminate].
  - cbn [contains]. rewrite orb_true_iff, IH, startswith_spec. split.
    + intros [(r & H)|(a & b & H)].
      * exists EmptyString, r. assumption.
      * exists (String c a), b. simpl. now rewrite H.
    + intros (a & b & H). destruct a as [|x a]; simpl in H.
      * left. eauto.
      * right. inversion H; subst. eauto.
Qed.

Lemma drop_append a b : drop (String.length a) (a ++ b) = b.
Proof. induction a as [|x a IH]; simpl; [now destruct b|assumption]. Qed.

Lemma drop_split k : forall s,
  k <= String.length s ->
  exists a, s = a ++ drop k s /\ String.length a = k.
Proof.
  induction k as [|k IH]; intros s Hk.
  - exists EmptyString. split; [now destruct s|reflexivity].
  - destruct s as [|c s]; simpl in Hk; [lia|].
    destruct (IH s) as (a & E & L); [lia|].
    exists (String c a). simpl. split; [now rewrite <- E|now rewrite L].
Qed.

(** [endswith p s] holds exactly when [s] is something followed by [p]. *)
Lemma endswith_spec p s :
  endswith p s = true <-> exists a, s = a ++ p.
Proof.
  unfold endswith. rewrite andb_true_iff, Nat.leb_le, String.eqb_eq. split.
  - intros (Hl & E).
    destruct (drop_split (String.length s - String.length p) s) as (a & H & _);
      [lia|].
    exists a. now rewrite <- E.
  - intros (a & ->). rewrite append_length. split; [lia|].
    replace (String.length a + String.length p - String.length p)
      with (String.length a) by lia.
    apply drop_append.
Qed.

(** [lstrip] removes a run of spaces in front, up to a character that is
    not a space. *)
Lemma lstrip_spec s :
  exists a, s = a ++ lstrip s /\ all_chars isspace a = true /\
            match lstrip s with
            | EmptyString => True
            | String c _ => isspace c = false
            end.
Proof.
  induction s as [|c s (a & E & Ha & Hc)]; simpl.
  - exists EmptyString. auto.
  - destruct (isspace c) eqn:Hs.
    + exists (String c a). simpl. rewrite Hs, Ha, <- E. auto.
    + exists EmptyString. simpl. auto.
Qed.

(** [rstrip] removes a run of spaces at the end, back to a character that
    is not a space. *)
Lemma rstrip_spec s :
  exists b, s = rstrip s ++ b /\ all_chars isspace b = true /\
            match rstrip s with
            | EmptyString => True
            | String c r => isspace (last_char c r) = false
            end.
Proof.
  induction s as [|c s (b & E & Hb & Hc)]; simpl.
  - exists EmptyString. auto.
  - destruct (rstrip s) as [|d r] eqn:R.
    + simpl in E. subst b. destruct (isspace c) eqn:Hs.
      * exists (String c s). simpl. rewrite Hs, Hb. auto.
      * exists s. simpl. auto.
    + exists b. simpl. rewrite E at 1. auto.
Qed.

End StringFacts.

(* ===================================================================== *)
(** ** The counter *)
(* ===================================================================== *)

Section CounterFacts.

Import TextUtils.

Lemma counter_add_keys c w :
  map fst (counter_add c w) =
  if existsb (String.eqb w) (map fst c) then map fst c
  else (map fst c ++ [w])%list.
Proof.
  induction c as [|[k v] c IH]; simpl; [reflexivity|].
  rewrite (String.eqb_sym w k).
  destruct (String.eqb k w); simpl; [reflexivity|].
  rewrite IH. destruct (existsb _ _); reflexivity.
Qed.

Lemma counter_add_counts c w :
  Forall (fun kv => (1 <= snd kv)%Z) c ->
  Forall (fun kv => (1 <= snd kv)%Z) (counter_add c w).
Proof.
  induction c as [|[k v] c IH]; simpl; intros H.
  - repeat constructor. simpl. lia.
  - inversion H as [|? ? Hk Hc]; subst; simpl in *.
    destruct (String.eqb k w); constructor; simpl; auto; lia.
Qed.

Lemma Counter_snoc p t : Counter (p ++ [t]) = counter_add (Counter p) t.
Proof. unfold Counter. rewrite fold_left_app. reflexivity. Qed.

Lemma Counter_counts p : Forall (fun kv => (1 <= snd kv)%Z) (Counter p).
Proof.
  induction p as [|t p IH] using rev_ind.
  - constructor.
  - rewrite Counter_snoc. now apply counter_add_counts.
Qed.

Lemma existsb_eqb_In w l : existsb (String.eqb w) l = true <-> In w l.
Proof.
  rewrite existsb_exists. split.
  - intros (x & Hx & E). apply String.eqb_eq in E. now subst.
  - intros H. exists w. split; [assumption|apply String.eqb_refl].
Qed.

(** The keys of the counter are the tokens counted. *)
Lemma Counter_keys_In p w : In w (map fst (Counter p)) <-> In w p.
Proof.
  induction p as [|t p IH] using rev_ind.
  - simpl. tauto.
  - rewrite Counter_snoc, counter_add_keys, in_app_iff. simpl.
    destruct (existsb (String.eqb t) (map fst (Counter p))) eqn:E.
    + apply -> existsb_eqb_In in E. rewrite IH in *.
      intuition (subst; auto).
    + rewrite in_app_iff, IH. simpl. tauto.
Qed.

Lemma index_of_app_In w p q : In w p -> index_of w (p ++ q) = index_of w p.
Proof.
  induction p as [|t p IH]; simpl; [tauto|].
  intros [->|H].
  - now rewrite String.eqb_refl.
  - destruct (String.eqb t w); [reflexivity|]. now rewrite IH.
Qed.

Lemma index_of_app_notin w p q :
  ~ In w p -> index_of w (p ++ q) = length p + index_of w q.
Proof.
  induction p as [|t p IH]; simpl; [reflexivity|].
  intros H. destruct (String.eqb t w) eqn:E.
  - apply String.eqb_eq in E. tauto.
  - rewrite IH; tauto.
Qed.

Lemma index_of_lt w p : In w p -> index_of w p < length p.
Proof.
  induction p as [|t p IH]; simpl; [tauto|].
  intros H. destruct (String.eqb t w) eqn:E; [lia|].
  apply String.eqb_neq in E. destruct H; [congruence|].
  specialize (IH H). lia.
Qed.

(** The keys of the counter come in the order of their first occurrence. *)
Lemma Counter_keys_order p :
  StronglySorted (fun a b => index_of a p < index_of b p) (map fst (Counter p)).
Proof.
  induction p as [|t p IH] using rev_ind.
  - constructor.
  - rewrite Counter_snoc, counter_add_keys.
    assert (Hold : StronglySorted
              (fun a b => index_of a (p ++ [t]) < index_of b (p ++ [t]))
              (map fst (Counter p))).
    { revert IH. apply StronglySorted_weaken. intros a b Ha Hb Hab.
      apply -> Counter_keys_In in Ha. apply -> Counter_keys_In in Hb.
      rewrite !index_of_app_In by assumption. assumption. }
    destruct (existsb (String.eqb t) (map fst (Counter p))) eqn:E; [assumption|].
    apply StronglySorted_snoc; [assumption|].
    apply Forall_forall. intros a Ha. apply -> Counter_keys_In in Ha.
    assert (Ht : ~ In t p).
    { intros Hin. apply <- Counter_keys_In in Hin. apply <- existsb_eqb_In in Hin. congruence. }
    rewrite index_of_app_In by assumption.
    rewrite index_of_app_notin by assumption.
    pose proof (index_of_lt a p Ha). lia.
Qed.

Lemma Counter_keys_NoDup p : NoDup (map fst (Counter p)).
Proof.
  induction p as [|t p IH] using rev_ind.
  - constructor.
  - rewrite Counter_snoc, counter_add_keys.
    destruct (existsb (String.eqb t) (map fst (Counter p))) eqn:E; [assumption|].
    apply NoDup_app; [assumption|repeat constructor; simpl; tauto|].
    intros a Ha [<-|[]]. apply <- existsb_eqb_In in Ha. congruence.
Qed.

End CounterFacts.

(* ===================================================================== *)
(** ** The stable descending sort *)
(* ===================================================================== *)

Section SortFacts.

Import TextUtils.

Lemma insert_by_count_perm x l : Permutation (x :: l) (insert_by_count x l).
Proof.
  induction l as [|y l IH]; simpl; [reflexivity|].
  destruct (snd x <? snd y)%Z; [|reflexivity].
  rewrite perm_swap. now constructor.
Qed.

Lemma sorted_by_count_desc_perm l : Permutation l (sorted_by_count_desc l).
Proof.
  induction l as [|x l IH]; simpl; [constructor|].
  rewrite <- insert_by_count_perm. now constructor.
Qed.

(** [tie] is the order the items come in; the sort keeps it among items of
    the same count. *)
Variable tie : string * Z -> string * Z -> Prop.

Lemma ranked_count_le l y :
  Forall ((ranked tie) y) l -> Forall (fun z => (snd z <= snd y)%Z) l.
Proof.
  apply Forall_impl. intros z [H|[H _]]; lia.
Qed.

Lemma insert_by_count_sorted x l :
  StronglySorted (ranked tie) l -> Forall (tie x) l ->
  StronglySorted (ranked tie) (insert_by_count x l).
Proof.
  induction 1 as [|y l Hs IH Hy]; simpl; intros Hx.
  - repeat constructor.
  - inversion Hx as [|? ? Hxy Hxl]; subst.
    destruct (snd x <? snd y)%Z eqn:E.
    + apply Z.ltb_lt in E. constructor; [auto|].
      rewrite <- insert_by_count_perm. constructor; [|assumption].
      left. assumption.
    + apply Z.ltb_ge in E. constructor; [now constructor|].
      pose proof (ranked_count_le _ _ Hy) as Hle.
      constructor.
      * destruct (Z.eq_dec (snd x) (snd y)); [right; auto|left; lia].
      * rewrite Forall_forall in *. intros z Hz.
        specialize (Hle z Hz). specialize (Hxl z Hz). simpl in Hle.
        destruct (Z.eq_dec (snd x) (snd z)); [right; auto|left; lia].
Qed.

Lemma sorted_by_count_desc_sorted l :
  StronglySorted tie l -> StronglySorted (ranked tie) (sorted_by_count_desc l).
Proof.
  induction 1 as [|x l Hs IH Hx]; simpl; [constructor|].
  apply insert_by_count_sorted; [assumption|].
  now rewrite <- sorted_by_count_desc_perm.
Qed.

End SortFacts.

(* ===================================================================== *)
(** ** compute_top_words *)
(* ===================================================================== *)

Section TopWords.

Import TextUtils.

Lemma compute_top_words_In text n wc :
  In wc (compute_top_words text n) -> In wc (Counter (filtered_tokens text)).
Proof.
  unfold compute_top_words, most_common. intros H.
  apply In_firstn in H.
  revert H. apply Permutation_in, Permutation_sym, sorted_by_count_desc_perm.
Qed.

Lemma filtered_tokens_keep text t :
  In t (filtered_tokens text) -> keep_token t = true.
Proof. unfold filtered_tokens. intros H. now apply filter_In in H. Qed.

(** C1, as the code has it: for every text and every n, the sequence
    returned by compute_top_words is sorted by count descending, and words
    of equal count come in the order of their first occurrence in the text
    (not in ascending word order); the input "The cat sat on the mat. The
    Cat ran." with n=10 yields exactly cat 2, sat 1, mat 1, ran 1. *)
Theorem compute_top_words_order (text : string) (n : Z) :
  StronglySorted (count_desc_first_seen (filtered_tokens text))
                 (compute_top_words text n) /\
  compute_top_words "The cat sat on the mat. The Cat ran." 10 =
    [("cat", 2%Z); ("sat", 1%Z); ("mat", 1%Z); ("ran", 1%Z)].
Proof.
  split; [|reflexivity].
  unfold compute_top_words, most_common.
  apply StronglySorted_firstn.
  apply (sorted_by_count_desc_sorted
           (fun a b => index_of (fst a) (filtered_tokens text)
                       < index_of (fst b) (filtered_tokens text))).
  apply (StronglySorted_map_inv fst
           (fun a b => index_of a (filtered_tokens text)
                       < index_of b (filtered_tokens text))).
  apply Counter_keys_order.
Qed.

(** C1, as the spec states it, fails on its own example: the three words of
    count 1 come out as sat, mat, ran, which is neither the list of the spec
    nor in ascending word order. *)
Lemma compute_top_words_ties_not_by_word :
  compute_top_words "The cat sat on the mat. The Cat ran." 10 <>
    [("cat", 2%Z); ("mat", 1%Z); ("ran", 1%Z); ("sat", 1%Z)] /\
  ~ StronglySorted count_desc_word_asc
      (compute_top_words "The cat sat on the mat. The Cat ran." 10).
Proof.
  split.
  - vm_compute. discriminate.
  - intros H.
    assert (E : compute_top_words "The cat sat on the mat. The Cat ran." 10 =
                [("cat", 2%Z); ("sat", 1%Z); ("mat", 1%Z); ("ran", 1%Z)])
      by reflexivity.
    rewrite E in H.
    inversion H as [|? ? H1 _]; subst.
    inversion H1 as [|? ? _ F]; subst.
    inversion F as [|? ? [Hlt|[_ Hw]] _]; subst; simpl in *.
    + lia.
    + vm_compute in Hw. discriminate.
Qed.

(** C7: for every text and every n, compute_top_words returns at most n
    entries (none when n is not positive), every returned count is at least
    1, and no returned word is in the stopword set or has length 1 or less. *)
Theorem compute_top_words_bounds (text : string) (n : Z) :
  length (compute_top_words text n) <= Z.to_nat n /\
  Forall (fun wc => (1 <= snd wc)%Z /\
                    in_stopwords (fst wc) = false /\
                    1 < String.length (fst wc))
         (compute_top_words text n).
Proof.
  split.
  - apply firstn_le_length.
  - apply Forall_forall. intros [w c] H.
    apply compute_top_words_In in H. simpl. split.
    + pose proof (Counter_counts (filtered_tokens text)) as Hc.
      rewrite Forall_forall in Hc. exact (Hc _ H).
    + assert (Hw : In w (filtered_tokens text)).
      { apply Counter_keys_In. change w with (fst (w, c)). now apply in_map. }
      apply filtered_tokens_keep in Hw. unfold keep_token in Hw.
      apply andb_true_iff in Hw. destruct Hw as [Hs Hl].
      apply negb_true_iff in Hs. apply Nat.ltb_lt in Hl. auto.
Qed.

(** C10: some text makes compute_top_words return a word without any
    letter: two apostrophes in a row form a token of the pattern, the token
    is not a stopword and is longer than 1, so it is counted and returned. *)
Theorem apostrophes_make_a_word :
  exists (text w : string) (c : Z),
    In w (findall_tokens (PyStr.lower text)) /\
    all_chars is_token_char w = true /\
    all_chars (fun ch => negb (is_letter ch)) w = true /\
    in_stopwords w = false /\
    1 < String.length w /\
    In (w, c) (compute_top_words text 10).
Proof.
  exists "He wrote '' and then '' again.", "''", 2%Z.
  vm_compute. intuition.
Qed.

End TopWords.

(* ===================================================================== *)
(** ** extract_title *)
(* ===================================================================== *)

Section ExtractTitle.

Import PyStr TextUtils.

(** One step of the comparison of [line.upper()] with an upper-case prefix,
    for each character of ["TITLE:"]: the character of the line matches
    when its lower-case form is the lower-case form of the prefix's. *)
Lemma upper_step (x : N) (lx : ascii) (c : ascii) (p xs : list N) :
  In (x, lx) [(84%N, "t"%char); (73%N, "i"%char); (76%N, "l"%char);
              (69%N, "e"%char); (58%N, ":"%char)] ->
  startswith_codes (x :: p) (upper_char c ++ xs) =
  Ascii.eqb lx (lower_char c) && startswith_codes p xs.
Proof.
  intros H. simpl in H.
  destruct H as [H|[H|[H|[H|[H|[]]]]]]; inversion H; subst; clear H;
    destruct c as [[] [] [] [] [] [] [] []]; reflexivity.
Qed.

(** On code points up to U+00FF, comparing the upper-cased line with
    ["TITLE:"] is comparing the first six characters ignoring case. *)
Lemma is_title_line_ignoring_case s :
  is_title_line s = startswith_ignoring_case "TITLE:" s.
Proof.
  unfold is_title_line, startswith_ignoring_case.
  change (codes "TITLE:") with [84%N; 73%N; 84%N; 76%N; 69%N; 58%N].
  change (lower "TITLE:") with "title:".
  destruct s as [|c1 s]; [reflexivity|].
  cbn [upper lower startswith]. rewrite (upper_step 84 "t") by (simpl; tauto).
  f_equal.
  destruct s as [|c2 s]; [reflexivity|].
  cbn [upper lower startswith]. rewrite (upper_step 73 "i") by (simpl; tauto).
  f_equal.
  destruct s as [|c3 s]; [reflexivity|].
  cbn [upper lower startswith]. rewrite (upper_step 84 "t") by (simpl; tauto).
  f_equal.
  destruct s as [|c4 s]; [reflexivity|].
  cbn [upper lower startswith]. rewrite (upper_step 76 "l") by (simpl; tauto).
  f_equal.
  destruct s as [|c5 s]; [reflexivity|].
  cbn [upper lower startswith]. rewrite (upper_step 69 "e") by (simpl; tauto).
  f_equal.
  destruct s as [|c6 s]; [reflexivity|].
  cbn [upper lower startswith]. rewrite (upper_step 58 ":") by (simpl; tauto).
  cbn [startswith_codes]. destruct (lower s); reflexivity.
Qed.

Lemma scan_title_first ls : forall i line,
  nth_error ls i = Some line ->
  is_title_line (strip line) = true ->
  (forall j l, j < i -> nth_error ls j = Some l ->
               is_title_line (strip l) = false) ->
  scan_title ls = Some (strip (drop 6 (strip line))).
Proof.
  induction ls as [|a ls IH]; intros [|i] line Hn Ht Hb; simpl in *;
    try discriminate.
  - inversion Hn; subst. now rewrite Ht.
  - rewrite (Hb 0 a) by (reflexivity || lia).
    apply (IH i line); auto.
    intros j l Hj Hl. apply (Hb (S j) l); [lia|assumption].
Qed.

Lemma scan_title_none ls :
  (forall j l, nth_error ls j = Some l -> is_title_line (strip l) = false) ->
  scan_title ls = None.
Proof.
  induction ls as [|a ls IH]; intros Hb; simpl; [reflexivity|].
  rewrite (Hb 0 a) by reflexivity.
  apply IH. intros j l Hl. apply (Hb (S j) l Hl).
Qed.

Lemma first_non_empty_first ls : forall i line,
  nth_error ls i = Some line ->
  is_blank line = false ->
  (forall j l, j < i -> nth_error ls j = Some l -> is_blank l = true) ->
  first_non_empty ls = Some (strip line).
Proof.
  unfold is_blank.
  induction ls as [|a ls IH]; intros [|i] line Hn Ht Hb; simpl in *;
    try discriminate.
  - inversion Hn; subst. apply negb_false_iff in Ht. now rewrite Ht.
  - assert (Ha := Hb 0 a ltac:(lia) eq_refl).
    apply negb_true_iff in Ha. rewrite Ha.
    apply (IH i line); auto.
    intros j l Hj Hl. apply (Hb (S j) l); [lia|assumption].
Qed.

Lemma first_non_empty_none ls :
  (forall l, In l ls -> is_blank l = true) -> first_non_empty ls = None.
Proof.
  unfold is_blank.
  induction ls as [|a ls IH]; intros Hb; simpl; [reflexivity|].
  assert (Ha := Hb a (or_introl eq_refl)).
  apply negb_true_iff in Ha. rewrite Ha.
  apply IH. intros l Hl. apply Hb. now right.
Qed.

Lemma blank_not_title l :
  is_blank l = true -> is_title_line (strip l) = false.
Proof.
  unfold is_blank. intros H. apply negb_true_iff in H.
  destruct (strip l); [reflexivity|discriminate].
Qed.

(** On a text of code points up to U+00FF, with its lines as splitlines
    gives them: the first line among the first 60 that, once trimmed,
    starts with "TITLE:" whatever the case, decides the result, which is the
    trimmed remainder after these six characters; when none of the first 60
    lines does, the result is the first non-blank line of the whole text,
    trimmed; when every line is blank the result is "Unknown Title". *)
Lemma extract_title_cases_latin1 (text : string) :
  (forall i line,
      i < 60 -> nth_error (splitlines text) i = Some line ->
      startswith_ignoring_case "TITLE:" (strip line) = true ->
      (forall j l, j < i -> nth_error (splitlines text) j = Some l ->
                   startswith_ignoring_case "TITLE:" (strip l) = false) ->
      extract_title text = strip (drop (String.length "TITLE:") (strip line))) /\
  (forall i line,
      (forall j l, j < 60 -> nth_error (splitlines text) j = Some l ->
                   startswith_ignoring_case "TITLE:" (strip l) = false) ->
      nth_error (splitlines text) i = Some line ->
      is_blank line = false ->
      (forall j l, j < i -> nth_error (splitlines text) j = Some l ->
                   is_blank l = true) ->
      extract_title text = strip line) /\
  ((forall l, In l (splitlines text) -> is_blank l = true) ->
   extract_title text = "Unknown Title") /\
  extract_title ("Some preamble" ++ LF ++ "TITLE: Moby Dick" ++ LF ++ "more text")
    = "Moby Dick".
Proof.
  unfold extract_title. repeat split.
  - intros i line Hi Hn Ht Hb.
    rewrite (scan_title_first (firstn 60 (splitlines text)) i line).
    + reflexivity.
    + rewrite nth_error_firstn.
      apply Nat.ltb_lt in Hi. now rewrite Hi.
    + now rewrite is_title_line_ignoring_case.
    + intros j l Hj Hl. rewrite is_title_line_ignoring_case.
      rewrite nth_error_firstn in Hl.
      destruct (Nat.ltb j 60); [|discriminate].
      now apply (Hb j l).
  - intros i line Hnt Hn Hl Hb.
    rewrite scan_title_none.
    + now rewrite (first_non_empty_first _ i line).
    + intros j l Hj. rewrite is_title_line_ignoring_case.
      rewrite nth_error_firstn in Hj.
      destruct (Nat.ltb j 60) eqn:E; [|discriminate].
      apply Nat.ltb_lt in E. now apply (Hnt j l).
  - intros Hb.
    rewrite scan_title_none.
    + now rewrite first_non_empty_none.
    + intros j l Hj. apply blank_not_title, Hb.
      rewrite nth_error_firstn in Hj.
      destruct (Nat.ltb j 60); [|discriminate].
      now apply nth_error_In in Hj.
Qed.

End ExtractTitle.

(* ===================================================================== *)
(** ** extract_title on texts of any code points *)
(* ===================================================================== *)

Section ExtractTitleUnicode.

Import PyStr.

Lemma unicode_scan_title_first t ls : forall i line,
  nth_error ls i = Some line ->
  Unicode.is_title_line t (Unicode.strip line) = true ->
  (forall j l, j < i -> nth_error ls j = Some l ->
               Unicode.is_title_line t (Unicode.strip l) = false) ->
  Unicode.scan_title t ls = Some (Unicode.strip (skipn 6 (Unicode.strip line))).
Proof.
  induction ls as [|a ls IH]; intros [|i] line Hn Ht Hb; simpl in *;
    try discriminate.
  - inversion Hn; subst. now rewrite Ht.
  - rewrite (Hb 0 a) by (reflexivity || lia).
    apply (IH i line); auto.
    intros j l Hj Hl. apply (Hb (S j) l); [lia|assumption].
Qed.

Lemma unicode_scan_title_none t ls :
  (forall j l, nth_error ls j = Some l ->
               Unicode.is_title_line t (Unicode.strip l) = false) ->
  Unicode.scan_title t ls = None.
Proof.
  induction ls as [|a ls IH]; intros Hb; simpl; [reflexivity|].
  rewrite (Hb 0 a) by reflexivity.
  apply IH. intros j l Hl. apply (Hb (S j) l Hl).
Qed.

Lemma unicode_first_non_empty_first ls : forall i line,
  nth_error ls i = Some line ->
  blank_line line = false ->
  (forall j l, j < i -> nth_error ls j = Some l -> blank_line l = true) ->
  Unicode.first_non_empty ls = Some (Unicode.strip line).
Proof.
  unfold blank_line.
  induction ls as [|a ls IH]; intros [|i] line Hn Ht Hb; simpl in *;
    try discriminate.
  - inversion Hn; subst. apply negb_false_iff in Ht. now rewrite Ht.
  - assert (Ha := Hb 0 a ltac:(lia) eq_refl).
    apply negb_true_iff in Ha. rewrite Ha.
    apply (IH i line); auto.
    intros j l Hj Hl. apply (Hb (S j) l); [lia|assumption].
Qed.

Lemma unicode_first_non_empty_none ls :
  (forall l, In l ls -> blank_line l = true) -> Unicode.first_non_empty ls = None.
Proof.
  unfold blank_line.
  induction ls as [|a ls IH]; intros Hb; simpl; [reflexivity|].
  assert (Ha := Hb a (or_introl eq_refl)).
  apply negb_true_iff in Ha. rewrite Ha.
  apply IH. intros l Hl. apply Hb. now right.
Qed.

Lemma blank_line_not_title t l :
  blank_line l = true -> Unicode.is_title_line t (Unicode.strip l) = false.
Proof.
  unfold blank_line. intros H. apply negb_true_iff in H.
  destruct (Unicode.strip l); [reflexivity|discriminate].
Qed.

(** One step of the title test on a code point up to U+00FF. *)
Lemma upper_char_step_latin1 (a : ascii) (x lx : N) (p xs : list N) :
  In (x, lx) [(84, 116); (73, 105); (76, 108); (69, 101); (58, 58)]%N ->
  startswith_codes (x :: p) (upper_char a ++ xs) =
  (lx =? fold_ascii (undot (code a)))%N && startswith_codes p xs.
Proof.
  intros H. simpl in H.
  destruct H as [H|[H|[H|[H|[H|[]]]]]]; inversion H; subst; clear H;
    destruct a as [[] [] [] [] [] [] [] []]; reflexivity.
Qed.

Lemma in_title_eqb x y :
  in_title x = true -> in_title y = false -> (x =? y)%N = false.
Proof.
  intros Hx Hy. apply N.eqb_neq. intros ->. congruence.
Qed.

(** One step of the title test on any code point. *)
Lemma upper_char_step t (c x lx : N) (p xs : list N) :
  title_case_table t ->
  In (x, lx, p) [(84, 116, [73; 84; 76; 69; 58]); (73, 105, [84; 76; 69; 58]);
                 (84, 116, [76; 69; 58]); (76, 108, [69; 58]);
                 (69, 101, [58]); (58, 58, [])]%N ->
  startswith_codes (x :: p) (Unicode.upper_char t c ++ xs) =
  (lx =? fold_ascii (undot c))%N && startswith_codes p xs.
Proof.
  intros [H305 Hrest] Hin. unfold Unicode.upper_char.
  destruct (c <? 256)%N eqn:E.
  - apply N.ltb_lt in E.
    rewrite <- (N_ascii_embedding c E) at 2.
    apply upper_char_step_latin1.
    simpl in Hin. simpl.
    destruct Hin as [H|[H|[H|[H|[H|[H|[]]]]]]]; inversion H; tauto.
  - apply N.ltb_ge in E.
    destruct (N.eq_dec c 305) as [->|Hc].
    + rewrite H305. simpl in Hin.
      destruct Hin as [H|[H|[H|[H|[H|[H|[]]]]]]]; inversion H; reflexivity.
    + specialize (Hrest c E Hc).
      assert (Hf : fold_ascii (undot c) = c).
      { unfold undot. apply N.eqb_neq in Hc. rewrite Hc. unfold fold_ascii.
        replace (c <=? 90)%N with false by (symmetry; apply N.leb_gt; lia).
        now rewrite andb_false_r. }
      rewrite Hf.
      assert (Hx : in_title x = true /\ (lx =? c)%N = false /\
                   (x <> 58%N -> exists h p', p = h :: p' /\ in_title h = true)).
      { simpl in Hin.
        destruct Hin as [H|[H|[H|[H|[H|[H|[]]]]]]]; inversion H; subst;
          (split; [reflexivity|]); (split; [apply N.eqb_neq; lia|]);
          intros Hn; try (now elim Hn); eauto. }
      destruct Hx as (Hx & -> & Hp). simpl.
      destruct (t c) as [|x' [|y r]]; [contradiction| |].
      * simpl. now rewrite (in_title_eqb x x' Hx Hrest).
      * destruct Hrest as [H58 Hy]. simpl.
        destruct (x =? x')%N eqn:Ex; [|reflexivity].
        apply N.eqb_eq in Ex. subst x'.
        destruct (Hp H58) as (h & p' & -> & Hh). simpl.
        now rewrite (in_title_eqb h y Hh (Hy Hx)).
Qed.

Lemma startswith_codes_cons a p x xs :
  startswith_codes (a :: p) (x :: xs) = (a =? x)%N && startswith_codes p xs.
Proof. reflexivity. Qed.

(** With the case table of Unicode, the title test is the comparison of the
    first six code points with "TITLE:" ignoring case, the dotless i
    counting as an i. *)
Lemma is_title_line_prefix t line :
  title_case_table t ->
  Unicode.is_title_line t line = starts_ignoring_case_and_dot "TITLE:" line.
Proof.
  intros Ht.
  unfold Unicode.is_title_line, starts_ignoring_case_and_dot, starts_ignoring_case.
  change (codes "TITLE:") with [84; 73; 84; 76; 69; 58]%N.
  change (map fold_ascii [84; 73; 84; 76; 69; 58]%N)
    with [116; 105; 116; 108; 101; 58]%N.
  destruct line as [|c1 s]; [reflexivity|].
  cbn [Unicode.upper map].
  rewrite (upper_char_step t c1 84 116) by (assumption || (simpl; tauto)).
  rewrite startswith_codes_cons. f_equal.
  destruct s as [|c2 s]; [reflexivity|].
  cbn [Unicode.upper map].
  rewrite (upper_char_step t c2 73 105) by (assumption || (simpl; tauto)).
  rewrite startswith_codes_cons. f_equal.
  destruct s as [|c3 s]; [reflexivity|].
  cbn [Unicode.upper map].
  rewrite (upper_char_step t c3 84 116) by (assumption || (simpl; tauto)).
  rewrite startswith_codes_cons. f_equal.
  destruct s as [|c4 s]; [reflexivity|].
  cbn [Unicode.upper map].
  rewrite (upper_char_step t c4 76 108) by (assumption || (simpl; tauto)).
  rewrite startswith_codes_cons. f_equal.
  destruct s as [|c5 s]; [reflexivity|].
  cbn [Unicode.upper map].
  rewrite (upper_char_step t c5 69 101) by (assumption || (simpl; tauto)).
  rewrite startswith_codes_cons. f_equal.
  destruct s as [|c6 s]; [reflexivity|].
  cbn [Unicode.upper map].
  rewrite (upper_char_step t c6 58 58) by (assumption || (simpl; tauto)).
  rewrite startswith_codes_cons. reflexivity.
Qed.

Lemma startswith_codes_map_ext (f g : N -> N) p : forall xs,
  (forall x, In x (firstn (length p) xs) -> f x = g x) ->
  startswith_codes p (map f xs) = startswith_codes p (map g xs).
Proof.
  induction p as [|a p IH]; intros xs H; [reflexivity|].
  destruct xs as [|x xs]; [reflexivity|]. simpl.
  rewrite (H x) by now left.
  f_equal. apply IH. intros y Hy. apply H. now right.
Qed.

Lemma starts_ignoring_case_no_dot p line :
  ~ In 305%N (firstn (String.length p) line) ->
  starts_ignoring_case_and_dot p line = starts_ignoring_case p line.
Proof.
  intros H. unfold starts_ignoring_case_and_dot, starts_ignoring_case.
  rewrite map_map.
  apply startswith_codes_map_ext. intros x Hx.
  rewrite length_map in Hx.
  assert (L : forall s, length (codes s) = String.length s)
    by (induction s; simpl; congruence).
  rewrite L in Hx. unfold undot.
  destruct (x =? 305)%N eqn:E; [|reflexivity].
  apply N.eqb_eq in E. subst. contradiction.
Qed.

Lemma example_case_table_title : title_case_table example_case_table.
Proof.
  split; [reflexivity|]. intros c H1 H2. unfold example_case_table.
  apply N.eqb_neq in H2. rewrite H2.
  destruct (c =? 7831)%N; [split; [discriminate|reflexivity]|].
  unfold in_title. simpl.
  repeat (rewrite (proj2 (N.eqb_neq c _)) by lia). reflexivity.
Qed.

(** C9: for every text of code points, with its lines as splitlines gives
    them, and every case table that has what Unicode's has for the
    characters of "TITLE:" ([title_case_table]):
    (1) the first line among the first 60 that, once trimmed, starts with
    "TITLE:" whatever the case, the dotless i (U+0131) counting as an i,
    decides the result, which is the trimmed remainder after these six
    characters; (2) when none of the first 60 lines does, the result is the
    first non-blank line of the whole text, trimmed; (3) when every line is
    blank the result is "Unknown Title"; a line without U+0131 among its
    first six characters starts with "TITLE:" in this sense exactly when it
    does ignoring case; and the text
    "Some preamble\nTITLE: Moby Dick\nmore text" gives "Moby Dick". *)
Theorem extract_title_cases (case_table : N -> list N) (text : list N) :
  title_case_table case_table ->
  (forall i line,
      i < 60 -> nth_error (Unicode.splitlines text) i = Some line ->
      starts_ignoring_case_and_dot "TITLE:" (Unicode.strip line) = true ->
      (forall j l, j < i -> nth_error (Unicode.splitlines text) j = Some l ->
                   starts_ignoring_case_and_dot "TITLE:" (Unicode.strip l) = false) ->
      Unicode.extract_title case_table text =
        Unicode.strip (skipn (String.length "TITLE:") (Unicode.strip line))) /\
  (forall i line,
      (forall j l, j < 60 -> nth_error (Unicode.splitlines text) j = Some l ->
                   starts_ignoring_case_and_dot "TITLE:" (Unicode.strip l) = false) ->
      nth_error (Unicode.splitlines text) i = Some line ->
      blank_line line = false ->
      (forall j l, j < i -> nth_error (Unicode.splitlines text) j = Some l ->
                   blank_line l = true) ->
      Unicode.extract_title case_table text = Unicode.strip line) /\
  ((forall l, In l (Unicode.splitlines text) -> blank_line l = true) ->
   Unicode.extract_title case_table text = codes "Unknown Title") /\
  (forall line,
      ~ In 305%N (firstn (String.length "TITLE:") line) ->
      starts_ignoring_case_and_dot "TITLE:" line =
        starts_ignoring_case "TITLE:" line) /\
  Unicode.extract_title case_table
    (codes ("Some preamble" ++ LF ++ "TITLE: Moby Dick" ++ LF ++ "more text"))
    = codes "Moby Dick".
Proof.
  intros Ht. split; [|split; [|split; [|split]]];
    [unfold Unicode.extract_title ..|vm_compute; reflexivity].
  - intros i line Hi Hn Hl Hb.
    rewrite (unicode_scan_title_first case_table
               (firstn 60 (Unicode.splitlines text)) i line).
    + reflexivity.
    + rewrite nth_error_firstn.
      apply Nat.ltb_lt in Hi. now rewrite Hi.
    + now rewrite is_title_line_prefix.
    + intros j l Hj Hjl. rewrite is_title_line_prefix by assumption.
      rewrite nth_error_firstn in Hjl.
      destruct (Nat.ltb j 60); [|discriminate].
      now apply (Hb j l).
  - intros i line Hnt Hn Hl Hb.
    rewrite unicode_scan_title_none.
    + now rewrite (unicode_first_non_empty_first _ i line).
    + intros j l Hj. rewrite is_title_line_prefix by assumption.
      rewrite nth_error_firstn in Hj.
      destruct (Nat.ltb j 60) eqn:E; [|discriminate].
      apply Nat.ltb_lt in E. now apply (Hnt j l).
  - intros Hb.
    rewrite unicode_scan_title_none.
    + now rewrite unicode_first_non_empty_none.
    + intros j l Hj. apply blank_line_not_title, Hb.
      rewrite nth_error_firstn in Hj.
      destruct (Nat.ltb j 60); [|discriminate].
      now apply nth_error_In in Hj.
  - intros line. apply starts_ignoring_case_no_dot.
Qed.

Lemma extract_title_cases_witness :
  title_case_table example_case_table /\
  Unicode.extract_title example_case_table example_dotless_text
    = Unicode.strip (skipn (String.length "TITLE:")
                       (Unicode.strip (codes "t" ++ [305%N] ++ codes "tle: Ghost"))) /\
  Unicode.extract_title example_case_table
    (codes (LF ++ "  Moby Dick " ++ LF ++ "by Herman Melville"))
    = Unicode.strip (codes "  Moby Dick ") /\
  Unicode.extract_title example_case_table [12288; 8232; 32; 10]%N
    = codes "Unknown Title".
Proof.
  split; [exact example_case_table_title|]. split; [|split].
  - apply (proj1 (extract_title_cases example_case_table example_dotless_text
                    example_case_table_title)
                 0 (codes "t" ++ [305%N] ++ codes "tle: Ghost")%list).
    + apply Nat.ltb_lt. reflexivity.
    + vm_compute; reflexivity.
    + vm_compute; reflexivity.
    + intros j l Hj. lia.
  - apply (proj1 (proj2 (extract_title_cases example_case_table
                           (codes (LF ++ "  Moby Dick " ++ LF ++ "by Herman Melville"))
                           example_case_table_title))
                 1 (codes "  Moby Dick ")).
    + intros j l _ Hl. apply nth_error_In in Hl.
      assert (E : Unicode.splitlines
                    (codes (LF ++ "  Moby Dick " ++ LF ++ "by Herman Melville")) =
                  [[]; codes "  Moby Dick "; codes "by Herman Melville"])
        by (vm_compute; reflexivity).
      rewrite E in Hl.
      destruct Hl as [<-|[<-|[<-|[]]]]; vm_compute; reflexivity.
    + vm_compute; reflexivity.
    + vm_compute; reflexivity.
    + intros [|j] l Hj Hl; [|lia].
      assert (E : nth_error
                    (Unicode.splitlines
                       (codes (LF ++ "  Moby Dick " ++ LF ++ "by Herman Melville")))
                    0 = Some []) by (vm_compute; reflexivity).
      rewrite E in Hl. injection Hl as <-. reflexivity.
  - apply (proj1 (proj2 (proj2 (extract_title_cases example_case_table
                                  [12288; 8232; 32; 10]%N
                                  example_case_table_title)))).
    assert (E : Unicode.splitlines [12288; 8232; 32; 10]%N = [[12288%N]; [32%N]])
      by (vm_compute; reflexivity).
    rewrite E. intros l [<-|[<-|[]]]; vm_compute; reflexivity.
Defined.

(** C9, as the spec states it, fails beyond U+00FF: the first line of the
    text starts with t, the dotless i and "tle:", which is not "TITLE:" in
    whatever case, yet its upper case is "TITLE:" and the line decides the
    result, "Ghost"; the first line that starts with "TITLE:" ignoring case
    is the second one, whose remainder is "Moby Dick". *)
Lemma extract_title_takes_dotless_i :
  Unicode.extract_title example_case_table example_dotless_text = codes "Ghost" /\
  Unicode.splitlines example_dotless_text =
    [(codes "t" ++ [305%N] ++ codes "tle: Ghost")%list; codes "Title: Moby Dick"] /\
  starts_ignoring_case "TITLE:"
    (Unicode.strip (codes "t" ++ [305%N] ++ codes "tle: Ghost")) = false /\
  starts_ignoring_case "TITLE:" (Unicode.strip (codes "Title: Moby Dick")) = true /\
  Unicode.strip (skipn (String.length "TITLE:")
                   (Unicode.strip (codes "Title: Moby Dick"))) = codes "Moby Dick" /\
  codes "Ghost" <> codes "Moby Dick".
Proof. repeat split; try (vm_compute; reflexivity). discriminate. Qed.

Lemma codes_app a b : codes (a ++ b) = (codes a ++ codes b)%list.
Proof. induction a as [|c a IH]; simpl; [reflexivity|now rewrite IH]. Qed.

Lemma isspace_code c : Unicode.isspace (code c) = isspace c.
Proof. destruct c as [[] [] [] [] [] [] [] []]; reflexivity. Qed.

Lemma is_linebreak_code c : Unicode.is_linebreak (code c) = is_linebreak c.
Proof. destruct c as [[] [] [] [] [] [] [] []]; reflexivity. Qed.

Lemma truthy_codes s : Unicode.truthy (codes s) = truthy s.
Proof. destruct s; reflexivity. Qed.

Lemma lstrip_codes s : Unicode.lstrip (codes s) = codes (lstrip s).
Proof.
  induction s as [|c s IH]; simpl; [reflexivity|].
  rewrite isspace_code. destruct (isspace c); [assumption|reflexivity].
Qed.

Lemma rstrip_codes s : Unicode.rstrip (codes s) = codes (rstrip s).
Proof.
  induction s as [|c s IH]; simpl; [reflexivity|].
  rewrite IH, isspace_code.
  destruct (rstrip s); simpl; [destruct (isspace c)|]; reflexivity.
Qed.

Lemma strip_codes s : Unicode.strip (codes s) = codes (strip s).
Proof. unfold Unicode.strip, strip. now rewrite lstrip_codes, rstrip_codes. Qed.

Lemma splitlines_from_codes n : forall s cur,
  String.length s <= n ->
  Unicode.splitlines_from (codes cur) (codes s) = map codes (splitlines_from cur s).
Proof.
  induction n as [|n IH]; intros [|c s] cur Hn; simpl in Hn; try lia;
    cbn [codes Unicode.splitlines_from splitlines_from];
    try (rewrite truthy_codes; destruct (truthy cur); reflexivity).
  rewrite is_linebreak_code. destruct (is_linebreak c).
  - destruct s as [|d s]; [reflexivity|]. cbn [codes].
    destruct ((code c =? 13)%N && (code d =? 10)%N); cbn [map]; f_equal.
    + apply (IH s EmptyString). simpl in Hn. lia.
    + apply (IH (String d s) EmptyString). lia.
  - change [code c] with (codes (String c EmptyString)).
    rewrite <- codes_app. apply IH. lia.
Qed.

Lemma splitlines_codes s :
  Unicode.splitlines (codes s) = map codes (splitlines s).
Proof. apply (splitlines_from_codes (String.length s) s EmptyString). lia. Qed.

Lemma upper_codes t s : Unicode.upper t (codes s) = upper s.
Proof.
  induction s as [|c s IH]; simpl; [reflexivity|].
  rewrite IH. unfold Unicode.upper_char, code.
  pose proof (N_ascii_bounded c) as H. apply N.ltb_lt in H. rewrite H.
  now rewrite ascii_N_embedding.
Qed.

Lemma skipn_codes k : forall s, skipn k (codes s) = codes (drop k s).
Proof.
  induction k as [|k IH]; intros [|c s]; simpl; try reflexivity. apply IH.
Qed.

Lemma scan_title_codes t ls :
  Unicode.scan_title t (map codes ls) = option_map codes (TextUtils.scan_title ls).
Proof.
  induction ls as [|l ls IH];
    cbn [map Unicode.scan_title TextUtils.scan_title option_map]; [reflexivity|].
  rewrite strip_codes. unfold Unicode.is_title_line, TextUtils.is_title_line.
  rewrite upper_codes.
  destruct (startswith_codes _ _); [|assumption].
  cbn [option_map]. now rewrite skipn_codes, strip_codes.
Qed.

Lemma first_non_empty_codes ls :
  Unicode.first_non_empty (map codes ls) =
  option_map codes (TextUtils.first_non_empty ls).
Proof.
  induction ls as [|l ls IH]; simpl; [reflexivity|].
  rewrite strip_codes, truthy_codes.
  destruct (truthy (strip l)); [reflexivity|assumption].
Qed.

(** On a text of code points up to U+00FF the two embeddings of
    extract_title give the same title, whatever the case table beyond. *)
Lemma extract_title_codes t s :
  Unicode.extract_title t (codes s) = codes (TextUtils.extract_title s).
Proof.
  unfold Unicode.extract_title, TextUtils.extract_title.
  rewrite splitlines_codes, firstn_map, scan_title_codes, first_non_empty_codes.
  destruct (TextUtils.scan_title _); [reflexivity|].
  destruct (TextUtils.first_non_empty _); reflexivity.
Qed.

End ExtractTitleUnicode.

(* ===================================================================== *)
(** ** search_gutenberg_by_title *)
(* ===================================================================== *)

Section Search.

Import PyStr TextUtils.

Lemma prefer_txt_find items :
  prefer_txt items = option_map snd (find is_plain_txt items).
Proof.
  induction items as [|[k v] items IH]; simpl; [reflexivity|].
  unfold is_plain_txt at 1. simpl.
  destruct (contains "text/plain" k && endswith ".txt" v); auto.
Qed.

Lemma any_plain_find items :
  any_plain items = option_map snd (find is_plain items).
Proof.
  induction items as [|[k v] items IH]; simpl; [reflexivity|].
  unfold is_plain at 1. simpl.
  destruct (contains "text/plain" k); auto.
Qed.

Lemma select_first_plain_text items :
  match prefer_txt items with
  | Some v => Some v
  | None => any_plain items
  end = first_plain_text items.
Proof.
  unfold first_plain_text. rewrite prefer_txt_find, any_plain_find.
  destruct (find is_plain_txt items); simpl; [reflexivity|].
  destruct (find is_plain items); reflexivity.
Qed.

(** What the search returns and requests, for a title that is not empty. *)
Lemma search_gutenberg_by_title_run title w :
  truthy title = true ->
  search_gutenberg_by_title title w =
  (match http w (requested w) (search_url title) with
   | inl e => inl e
   | inr r => match json r with
              | inl e => inl e
              | inr data => inr (select_plain_text data)
              end
   end,
   with_requested (requested w ++ [search_url title]) w).
Proof.
  intros Ht. unfold search_gutenberg_by_title. rewrite Ht.
  cbv [negb bind requests_get response_json ret raise].
  fold (search_url title).
  destruct (http w (requested w) (search_url title)) as [e|r]; [reflexivity|].
  destruct (json r); reflexivity.
Qed.

(** C8: when the catalogue answers the search for a title with a results
    list that is not empty, search_gutenberg_by_title returns, from the
    formats of the first result, the location of the first entry whose label
    contains "text/plain" and whose location ends in ".txt"; when there is
    none, that of the first entry whose label contains "text/plain"; when
    there is none either, None; and an empty results list gives None. *)
Theorem search_gutenberg_by_title_selects
    (w : world) (title : string) (r : response) (data : gutendex_data) :
  truthy title = true ->
  http w (requested w) (search_url title) = inr r ->
  json r = inr data ->
  (forall first_book others items,
      results data = Some (first_book :: others) ->
      formats first_book = Some items ->
      fst (search_gutenberg_by_title title w) = inr (first_plain_text items)) /\
  (results data = Some [] ->
   fst (search_gutenberg_by_title title w) = inr None).
Proof.
  intros Ht Hr Hd.
  rewrite (search_gutenberg_by_title_run title w Ht), Hr, Hd. simpl.
  unfold select_plain_text. split.
  - intros b others items Hres Hf. rewrite Hres, Hf.
    now rewrite select_first_plain_text.
  - intros Hres. now rewrite Hres.
Qed.

Lemma search_gutenberg_by_title_selects_witness :
  truthy "the cat" = true /\
  http (example_world DbUtils.new_database example_http "the cat") []
       (search_url "the cat") = inr example_catalogue /\
  fst (search_gutenberg_by_title "the cat"
         (example_world DbUtils.new_database example_http "the cat")) =
    inr (Some "https://www.gutenberg.org/files/7/7-0.txt").
Proof.
  split; [reflexivity|]. split; [reflexivity|].
  refine (proj1 (search_gutenberg_by_title_selects
            (example_world DbUtils.new_database example_http "the cat")
            "the cat" example_catalogue
            {| results := Some
                 [ {| formats := Some
                        [ ("text/html", "https://www.gutenberg.org/ebooks/7.html.images");
                          ("text/plain; charset=us-ascii",
                           "https://www.gutenberg.org/ebooks/7.txt.utf-8");
                          ("text/plain", "https://www.gutenberg.org/files/7/7-0.txt") ] |};
                   {| formats := None |} ] |}
            eq_refl eq_refl eq_refl) _ _ _ eq_refl eq_refl).
Defined.

End Search.

(* ===================================================================== *)
(** ** The cache store *)
(* ===================================================================== *)

Section Store.

Import DbUtils.

Lemma max_id_ge ids x : In x ids -> (x <= max_id ids)%Z.
Proof.
  induction ids as [|y ids IH]; simpl; [tauto|].
  intros [->|H]; [|specialize (IH H)]; lia.
Qed.

Lemma existsb_title_In title bs :
  existsb (fun r => String.eqb (book_title r) title) bs = true <->
  In title (map book_title bs).
Proof.
  rewrite existsb_exists, in_map_iff. split.
  - intros (r & Hr & E). apply String.eqb_eq in E. eauto.
  - intros (r & E & Hr). exists r. split; [assumption|].
    now apply String.eqb_eq.
Qed.

Lemma upsert_book_titles_present title url d :
  In title (titles d) ->
  titles (upsert_book title url d) = titles d /\
  map book_id (books (upsert_book title url d)) = map book_id (books d) /\
  (forall r, In r (books (upsert_book title url d)) ->
             book_title r = title -> book_url r = url).
Proof.
  intros H. unfold upsert_book, titles in *.
  apply existsb_title_In in H. rewrite H. simpl.
  rewrite !map_map. repeat split.
  - apply map_ext. intros r. destruct (String.eqb (book_title r) title); reflexivity.
  - apply map_ext. intros r. destruct (String.eqb (book_title r) title); reflexivity.
  - intros r Hr Ht. apply in_map_iff in Hr. destruct Hr as (r0 & <- & _).
    destruct (String.eqb (book_title r0) title) eqn:E; simpl in *; [reflexivity|].
    apply String.eqb_neq in E. contradiction.
Qed.

Lemma upsert_book_titles_absent title url d :
  ~ In title (titles d) ->
  exists id,
    books (upsert_book title url d) =
      (books d ++ [{| book_id := id; book_title := title; book_url := url |}])%list /\
    ~ In id (map book_id (books d)).
Proof.
  intros H. unfold upsert_book, titles in *.
  destruct (existsb _ (books d)) eqn:E.
  - apply existsb_title_In in E. contradiction.
  - eexists. split; [reflexivity|].
    intros Hin. apply max_id_ge in Hin. lia.
Qed.

Lemma upsert_book_NoDup title url d :
  NoDup (titles d) -> NoDup (titles (upsert_book title url d)).
Proof.
  intros H. destruct (in_dec string_dec title (titles d)) as [Hin|Hin].
  - now rewrite (proj1 (upsert_book_titles_present title url d Hin)).
  - destruct (upsert_book_titles_absent title url d Hin) as (id & E & _).
    unfold titles in *. rewrite E, map_app. simpl.
    apply NoDup_app; [assumption|repeat constructor; simpl; tauto|].
    intros a Ha [<-|[]]. contradiction.
Qed.

Lemma upsert_book_word_freqs title url d :
  word_freqs (upsert_book title url d) = word_freqs d /\
  seq_word_freqs (upsert_book title url d) = seq_word_freqs d.
Proof. unfold upsert_book. destruct (existsb _ _); split; reflexivity. Qed.

(** After the upsert the title is there: the [SELECT] finds its row. *)
Lemma select_book_id_upsert title url d :
  exists id, select_book_id (upsert_book title url d) title = Some id.
Proof.
  unfold select_book_id.
  destruct (find _ (books (upsert_book title url d))) as [r|] eqn:E; [eauto|].
  exfalso.
  assert (Hin : In title (titles (upsert_book title url d))).
  { destruct (in_dec string_dec title (titles d)) as [Hin|Hin].
    - now rewrite (proj1 (upsert_book_titles_present title url d Hin)).
    - destruct (upsert_book_titles_absent title url d Hin) as (id & E' & _).
      unfold titles. rewrite E', map_app, in_app_iff. simpl. tauto. }
  unfold titles in Hin. apply in_map_iff in Hin. destruct Hin as (r & Ht & Hr).
  pose proof (find_none _ _ E r Hr) as Hf. simpl in Hf.
  rewrite Ht, String.eqb_refl in Hf. discriminate.
Qed.

Lemma insert_word_freq_ok id wf d d' :
  insert_word_freq id wf d = inr d' ->
  books d' = books d /\ seq_books d' = seq_books d /\
  exists rid,
    word_freqs d' =
      (word_freqs d ++ [{| wf_id := rid; wf_book_id := id;
                            wf_word := fst wf; wf_frequency := snd wf |}])%list.
Proof.
  unfold insert_word_freq. destruct wf as [w f].
  destruct (negb _); [discriminate|].
  destruct (existsb _ _); [discriminate|].
  intros H. inversion H; subst; clear H. simpl. eauto.
Qed.

Lemma executemany_insert_ok id rows : forall d d',
  executemany_insert id rows d = inr d' ->
  books d' = books d /\ seq_books d' = seq_books d /\
  exists new,
    word_freqs d' = (word_freqs d ++ new)%list /\
    map (fun r => (wf_word r, wf_frequency r)) new = rows /\
    Forall (fun r => wf_book_id r = id) new.
Proof.
  induction rows as [|wf rows IH]; simpl; intros d d' H.
  - inversion H; subst. repeat split. exists []. rewrite app_nil_r. auto.
  - destruct (insert_word_freq id wf d) as [e|d1] eqn:E; [discriminate|].
    apply insert_word_freq_ok in E. destruct E as (Hb & Hs & rid & Hw).
    apply IH in H. destruct H as (Hb' & Hs' & new & Hw' & Hm & Hf).
    repeat split; try congruence.
    eexists (_ :: new). rewrite Hw', Hw, <- app_assoc. simpl.
    split; [reflexivity|]. split.
    + rewrite Hm. now destruct wf.
    + constructor; auto.
Qed.

(** The books table after a call, whatever the call raises: the upsert is
    committed before the rows are touched. *)
Lemma insert_or_update_book_books d title url wfs :
  books (snd (insert_or_update_book d title url wfs)) =
  books (upsert_book title url d).
Proof.
  unfold insert_or_update_book. simpl.
  destruct (select_book_id (upsert_book title url d) title) as [id|];
    [|reflexivity].
  destruct (executemany_insert id wfs _) as [e|d'] eqn:E; simpl; [reflexivity|].
  now apply executemany_insert_ok in E.
Qed.

(** What a call that returns leaves. *)
Lemma insert_or_update_book_returns d title url wfs :
  fst (insert_or_update_book d title url wfs) = inr tt ->
  exists id,
    select_book_id (snd (insert_or_update_book d title url wfs)) title = Some id /\
    rows_of (snd (insert_or_update_book d title url wfs)) id = wfs /\
    rows_of_others (snd (insert_or_update_book d title url wfs)) id
      = rows_of_others d id.
Proof.
  unfold insert_or_update_book. simpl.
  destruct (select_book_id_upsert title url d) as (id & Hid). rewrite Hid.
  destruct (executemany_insert id wfs _) as [e|d'] eqn:E; simpl;
    [discriminate|]. intros _.
  apply executemany_insert_ok in E.
  destruct E as (Hb & _ & new & Hw & Hm & Hf). simpl in Hb, Hw.
  exists id. split; [|split].
  - unfold select_book_id in *. now rewrite Hb.
  - unfold rows_of. rewrite Hw, filter_app, filter_filter_negb. simpl.
    rewrite filter_all; [assumption|].
    revert Hf. apply Forall_impl. intros r Hr. now apply Z.eqb_eq.
  - unfold rows_of_others. rewrite Hw, filter_app, filter_idem.
    rewrite (filter_none _ new), app_nil_r.
    + now rewrite (proj1 (upsert_book_word_freqs title url d)).
    + revert Hf. apply Forall_impl. intros r Hr.
      apply negb_false_iff. now apply Z.eqb_eq.
Qed.

(** The rows of a Book are among the rows of the Books other than [id']
    when its id is not [id']. *)
Lemma rows_of_others_rows d id id' :
  id <> id' ->
  rows_of d id =
  map (fun r => (wf_word r, wf_frequency r))
      (filter (fun r => (wf_book_id r =? id)%Z) (rows_of_others d id')).
Proof.
  intros Hne. unfold rows_of, rows_of_others. f_equal.
  induction (word_freqs d) as [|r l IH]; simpl; [reflexivity|].
  destruct (wf_book_id r =? id')%Z eqn:E'; simpl.
  - apply Z.eqb_eq in E'.
    destruct (wf_book_id r =? id)%Z eqn:E; [|assumption].
    apply Z.eqb_eq in E. congruence.
  - destruct (wf_book_id r =? id)%Z; [now rewrite IH|assumption].
Qed.

(** The Book a title finds after an upsert is the Book it found before,
    unless it is the Book upserted. *)
Lemma get_book_by_title_upsert d d1 T u title id stored url :
  books d1 = books (upsert_book T u d) ->
  get_book_by_title d1 title = Some (id, stored, url) ->
  select_book_id d1 T = Some id \/
  exists stored0 url0, get_book_by_title d title = Some (id, stored0, url0).
Proof.
  unfold get_book_by_title, select_book_id. intros ->.
  destruct (in_dec string_dec T (titles d)) as [Hin|Hin].
  - unfold upsert_book. apply existsb_title_In in Hin. rewrite Hin. simpl.
    rewrite find_map_same
      by (intros r; destruct (String.eqb (book_title r) T); reflexivity).
    destruct (find _ (books d)) as [r|]; simpl; [|discriminate].
    intros H. right.
    destruct (String.eqb (book_title r) T); injection H as <- _ _; simpl; eauto.
  - destruct (upsert_book_titles_absent T u d Hin) as (idn & E & _).
    rewrite E, !find_snoc. simpl.
    destruct (find _ (books d)) as [r|] eqn:F.
    + intros H. injection H as <- _ _. right. eauto.
    + destruct (String.eqb (sql_lower T) (sql_lower title)); [|discriminate].
      intros H. injection H as <- _ _. left.
      destruct (find (fun r => String.eqb (book_title r) T) (books d)) as [r|] eqn:G.
      * apply find_some in G. destruct G as [Gin Gt]. apply String.eqb_eq in Gt.
        exfalso. apply Hin. unfold titles. rewrite <- Gt. now apply in_map.
      * now rewrite String.eqb_refl.
Qed.

(** A hit after a call that stored [wfs], where there was a miss before,
    reads [wfs] back, in the order of the store. *)
Lemma hit_after_store d T u wfs title id stored url row rows :
  ~ cache_hit d title ->
  fst (insert_or_update_book d T u wfs) = inr tt ->
  get_book_by_title (snd (insert_or_update_book d T u wfs)) title
    = Some (id, stored, url) ->
  get_word_frequencies (snd (insert_or_update_book d T u wfs)) id
    = row :: rows ->
  row :: rows = order_by wfs.
Proof.
  intros Hmiss Hok Hb Hf.
  destruct (insert_or_update_book_returns d T u wfs Hok) as (id' & Hid & Hrows & Hothers).
  destruct (Z.eq_dec id id') as [->|Hne].
  - rewrite <- Hf. unfold get_word_frequencies. fold (rows_of (snd (insert_or_update_book d T u wfs)) id').
    now rewrite Hrows.
  - exfalso.
    destruct (get_book_by_title_upsert d _ T u title id stored url
                (insert_or_update_book_books d T u wfs) Hb)
      as [Hsel|(stored0 & url0 & Hb0)]; [congruence|].
    assert (Hsame : get_word_frequencies (snd (insert_or_update_book d T u wfs)) id
                    = get_word_frequencies d id).
    { unfold get_word_frequencies.
      fold (rows_of (snd (insert_or_update_book d T u wfs)) id).
      fold (rows_of d id).
      now rewrite !(rows_of_others_rows _ id id' Hne), Hothers. }
    apply Hmiss. exists id, stored0, url0, row, rows.
    split; [assumption|]. now rewrite <- Hsame.
Qed.

End Store.

(* ===================================================================== *)
(** ** The order of the rows read back *)
(* ===================================================================== *)

Section OrderBy.

Import DbUtils.

Lemma ascii_compare_N a b :
  Ascii.compare a b = N.compare (N_of_ascii a) (N_of_ascii b).
Proof. reflexivity. Qed.

Lemma string_compare_lt_trans a : forall b c,
  String.compare a b = Lt -> String.compare b c = Lt -> String.compare a c = Lt.
Proof.
  induction a as [|x a IH]; intros [|y b] [|z c]; simpl; try congruence.
  rewrite !ascii_compare_N.
  destruct (N.compare_spec (N_of_ascii x) (N_of_ascii y)) as [Exy|Lxy|Gxy];
    try discriminate;
    destruct (N.compare_spec (N_of_ascii y) (N_of_ascii z)) as [Eyz|Lyz|Gyz];
    try discriminate; intros H1 H2.
  - rewrite Exy, Eyz, N.compare_refl. eauto.
  - rewrite Exy. now apply N.compare_lt_iff in Lyz as ->.
  - rewrite <- Eyz. now apply N.compare_lt_iff in Lxy as ->.
  - assert (L : (N_of_ascii x < N_of_ascii z)%N) by lia.
    now apply N.compare_lt_iff in L as ->.
Qed.

Lemma string_compare_refl a : String.compare a a = Eq.
Proof.
  induction a as [|x a IH]; simpl; [reflexivity|].
  now rewrite ascii_compare_N, N.compare_refl.
Qed.

Lemma string_leb_trans a b c :
  String.leb a b = true -> String.leb b c = true -> String.leb a c = true.
Proof.
  unfold String.leb.
  destruct (String.compare a b) eqn:Hab; try discriminate;
    destruct (String.compare b c) eqn:Hbc; try discriminate; intros _ _.
  - apply String.compare_eq_iff in Hab. apply String.compare_eq_iff in Hbc.
    subst. now rewrite string_compare_refl.
  - apply String.compare_eq_iff in Hab. subst. now rewrite Hbc.
  - apply String.compare_eq_iff in Hbc. subst. now rewrite Hab.
  - now rewrite (string_compare_lt_trans a b c Hab Hbc).
Qed.

Lemma row_before_iff a b : row_before a b = true <-> count_desc_word_asc a b.
Proof.
  unfold row_before, count_desc_word_asc.
  rewrite orb_true_iff, andb_true_iff, Z.ltb_lt, Z.eqb_eq. tauto.
Qed.

Lemma count_desc_word_asc_total a b :
  count_desc_word_asc a b \/ count_desc_word_asc b a.
Proof.
  unfold count_desc_word_asc.
  destruct (Z.lt_trichotomy (snd a) (snd b)) as [H|[H|H]]; auto.
  destruct (String.leb_total (fst a) (fst b)); auto.
Qed.

Lemma count_desc_word_asc_trans a b c :
  count_desc_word_asc a b -> count_desc_word_asc b c -> count_desc_word_asc a c.
Proof.
  unfold count_desc_word_asc.
  intros [H1|[H1 L1]] [H2|[H2 L2]]; try (left; lia).
  right. split; [congruence|]. eapply string_leb_trans; eassumption.
Qed.

Lemma insert_ordered_perm x l : Permutation (x :: l) (insert_ordered x l).
Proof.
  induction l as [|y l IH]; simpl; [reflexivity|].
  destruct (row_before x y); [reflexivity|].
  rewrite perm_swap. now constructor.
Qed.

Lemma order_by_perm l : Permutation l (order_by l).
Proof.
  induction l as [|x l IH]; simpl; [constructor|].
  rewrite <- insert_ordered_perm. now constructor.
Qed.

Lemma insert_ordered_sorted x l :
  StronglySorted count_desc_word_asc l ->
  StronglySorted count_desc_word_asc (insert_ordered x l).
Proof.
  induction 1 as [|y l Hs IH Hy]; simpl.
  - repeat constructor.
  - destruct (row_before x y) eqn:E.
    + apply row_before_iff in E.
      constructor; [now constructor|]. constructor; [assumption|].
      revert Hy. apply Forall_impl. intros z.
      now apply count_desc_word_asc_trans.
    + constructor; [assumption|].
      rewrite <- insert_ordered_perm. constructor; [|assumption].
      destruct (count_desc_word_asc_total x y) as [H|H]; [|assumption].
      apply row_before_iff in H. congruence.
Qed.

Lemma order_by_sorted l : StronglySorted count_desc_word_asc (order_by l).
Proof.
  induction l as [|x l IH]; simpl; [constructor|].
  now apply insert_ordered_sorted.
Qed.

(** Rows already in order are read back as they are. *)
Lemma order_by_id l : StronglySorted count_desc_word_asc l -> order_by l = l.
Proof.
  induction 1 as [|x l Hs IH Hx]; simpl; [reflexivity|].
  rewrite IH. destruct l as [|y l]; [reflexivity|]. simpl.
  inversion Hx as [|? ? Hxy _]; subst.
  apply row_before_iff in Hxy. now rewrite Hxy.
Qed.

End OrderBy.

Section StoreClaims.

Import DbUtils.

(** C2, as the spec states it, fails: a call that raises while it inserts
    the rows (here a word given twice) leaves the store with the Book row
    already rewritten, next to the rows of the previous analysis; the store
    is neither as it was nor as a completed call would leave it. *)
Lemma insert_or_update_book_not_atomic :
  fst (insert_or_update_book example_store "The Cat" "https://example.org/cat.txt"
         [("dog", 2%Z); ("dog", 1%Z)]) =
    inl (OtherException
           "UNIQUE constraint failed: word_freqs.book_id, word_freqs.word") /\
  snd (insert_or_update_book example_store "The Cat" "https://example.org/cat.txt"
         [("dog", 2%Z); ("dog", 1%Z)]) <> example_store /\
  get_book_by_title
    (snd (insert_or_update_book example_store "The Cat"
            "https://example.org/cat.txt" [("dog", 2%Z); ("dog", 1%Z)]))
    "The Cat" = Some (1%Z, "The Cat", "https://example.org/cat.txt") /\
  get_word_frequencies
    (snd (insert_or_update_book example_store "The Cat"
            "https://example.org/cat.txt" [("dog", 2%Z); ("dog", 1%Z)])) 1 =
    get_word_frequencies example_store 1.
Proof.
  repeat split. vm_compute. discriminate.
Qed.

(** C2, as the code has it: insert_or_update_book writes in two
    transactions.  The Book row is written and committed first, whatever
    happens next.  The replacement of the frequency rows is atomic by
    itself: when the call raises, the frequency table is exactly as it was
    before the call (the delete and the rows already inserted are rolled
    back); when it returns, the rows of the Book are exactly the supplied
    list and the rows of the other Books are untouched. *)
Theorem insert_or_update_book_two_transactions
    (d : database) (title url : string) (wfs : list (string * Z)) :
  books (snd (insert_or_update_book d title url wfs)) =
    books (upsert_book title url d) /\
  match fst (insert_or_update_book d title url wfs) with
  | inl _ =>
      word_freqs (snd (insert_or_update_book d title url wfs)) = word_freqs d
  | inr _ =>
      exists id,
        select_book_id (snd (insert_or_update_book d title url wfs)) title
          = Some id /\
        rows_of (snd (insert_or_update_book d title url wfs)) id = wfs /\
        rows_of_others (snd (insert_or_update_book d title url wfs)) id
          = rows_of_others d id
  end.
Proof.
  split; [apply insert_or_update_book_books|].
  destruct (fst (insert_or_update_book d title url wfs)) as [e|[]] eqn:E.
  - revert E. unfold insert_or_update_book. simpl.
    destruct (select_book_id_upsert title url d) as (id & Hid). rewrite Hid.
    destruct (executemany_insert id wfs _) as [e'|d']; simpl; [|discriminate].
    intros _. apply upsert_book_word_freqs.
  - apply (insert_or_update_book_returns d title url wfs E).
Qed.

(** C4, as the spec states it, fails: two calls whose titles differ only in
    case leave two Book rows. *)
Lemma two_books_for_one_title_up_to_case :
  books (run_inserts [("Moby Dick", "https://example.org/a.txt", []);
                      ("MOBY DICK", "https://example.org/b.txt", [])]
                     new_database) =
    [ {| book_id := 1; book_title := "Moby Dick";
         book_url := "https://example.org/a.txt" |};
      {| book_id := 2; book_title := "MOBY DICK";
         book_url := "https://example.org/b.txt" |} ] /\
  sql_lower "Moby Dick" = sql_lower "MOBY DICK".
Proof. split; reflexivity. Qed.

Lemma run_inserts_NoDup calls : forall d,
  NoDup (titles d) -> NoDup (titles (run_inserts calls d)).
Proof.
  induction calls as [|[[title url] wfs] calls IH]; simpl; intros d H;
    [assumption|].
  apply IH. unfold titles. rewrite insert_or_update_book_books.
  now apply upsert_book_NoDup.
Qed.

(** C4, as the code has it: the store keeps at most one Book per title
    compared exactly, case included.  After any sequence of
    insert_or_update_book calls on a new database no two Book rows have the
    same title; a call with the title of an existing Book, letter for
    letter, updates that Book (same rows, same ids, the location replaced)
    and creates none; a call with any other title, be it different only in
    case, appends a Book row with a new id. *)
Theorem one_book_per_exact_title
    (calls : list (string * string * list (string * Z)))
    (title url : string) (wfs : list (string * Z)) :
  NoDup (titles (run_inserts calls new_database)) /\
  if existsb (String.eqb title) (titles (run_inserts calls new_database))
  then
    titles (snd (insert_or_update_book
                   (run_inserts calls new_database) title url wfs)) =
      titles (run_inserts calls new_database) /\
    map book_id (books (snd (insert_or_update_book
                   (run_inserts calls new_database) title url wfs))) =
      map book_id (books (run_inserts calls new_database)) /\
    (forall r,
        In r (books (snd (insert_or_update_book
                   (run_inserts calls new_database) title url wfs))) ->
        book_title r = title -> book_url r = url)
  else
    exists id,
      books (snd (insert_or_update_book
                    (run_inserts calls new_database) title url wfs)) =
        (books (run_inserts calls new_database) ++
           [{| book_id := id; book_title := title; book_url := url |}])%list /\
      ~ In id (map book_id (books (run_inserts calls new_database))).
Proof.
  split.
  - apply run_inserts_NoDup. constructor.
  - destruct (existsb _ _) eqn:E.
    + apply existsb_eqb_In in E. unfold titles at 1.
      rewrite !insert_or_update_book_books.
      apply (upsert_book_titles_present title url _ E).
    + rewrite insert_or_update_book_books.
      apply upsert_book_titles_absent. intros Hin.
      apply existsb_eqb_In in Hin. congruence.
Qed.

End StoreClaims.

(* ===================================================================== *)
(** ** The by-title handler *)
(* ===================================================================== *)

Section SearchTitle.

Import PyStr TextUtils Main.

Lemma on_search_title_blank w :
  truthy (strip (title_entry w)) = false ->
  on_search_title w = with_status_label "Please enter a book title." w.
Proof. intros H. unfold on_search_title. now rewrite H. Qed.

Lemma on_search_title_run w :
  truthy (strip (title_entry w)) = true ->
  on_search_title w =
  snd (try_except (search_title_body (strip (title_entry w))) on_exception
         (with_tree [] w)).
Proof. intros H. unfold on_search_title. now rewrite H. Qed.

Lemma search_title_body_hit title w id stored url row rows :
  DbUtils.get_book_by_title (store w) title = Some (id, stored, url) ->
  DbUtils.get_word_frequencies (store w) id = row :: rows ->
  search_title_body title w =
  (inr tt,
   with_status_label ("Loaded '" ++ stored ++ "' from local database.")
     (with_tree (firstn 10 (row :: rows)) w)).
Proof.
  intros Hb Hf. unfold search_title_body, bind, get_book_by_title.
  rewrite Hb. unfold get_word_frequencies. rewrite Hf. reflexivity.
Qed.

Lemma search_title_body_no_book title w :
  DbUtils.get_book_by_title (store w) title = None ->
  search_title_body title w = search_fetch_store title w.
Proof.
  intros Hb. unfold search_title_body, bind, get_book_by_title.
  now rewrite Hb.
Qed.

Lemma search_title_body_no_rows title w id stored url :
  DbUtils.get_book_by_title (store w) title = Some (id, stored, url) ->
  DbUtils.get_word_frequencies (store w) id = [] ->
  search_title_body title w = search_fetch_store title w.
Proof.
  intros Hb Hf. unfold search_title_body, bind, get_book_by_title.
  rewrite Hb. unfold get_word_frequencies. now rewrite Hf.
Qed.

Lemma search_fetch_store_unfold title w :
  truthy title = true ->
  search_fetch_store title w =
  match http w (requested w) (search_url title) with
  | inl e => (inl e, asked title w)
  | inr r =>
      match json r with
      | inl e => (inl e, asked title w)
      | inr data =>
          match select_plain_text data with
          | Some u =>
              if truthy u then
                (text <- fetch_book_text u ;;
                 insert_or_update_book (extract_title text) u
                   (compute_top_words text 10) ;;;
                 show_results (compute_top_words text 10) ;;;
                 set_status ("Retrieved '" ++ extract_title text
                             ++ "' from the web and stored it."))%py
                  (asked title w)
              else
                (set_status "Book was not found." ;;;
                 messagebox (showinfo "Info" "Book was not found."))%py
                  (asked title w)
          | None =>
              (set_status "Book was not found." ;;;
               messagebox (showinfo "Info" "Book was not found."))%py
                (asked title w)
          end
      end
  end.
Proof.
  intros Ht. unfold search_fetch_store. unfold bind at 1.
  rewrite (search_gutenberg_by_title_run title w Ht). fold (asked title w).
  destruct (http w (requested w) (search_url title)) as [e|r]; [reflexivity|].
  destruct (json r) as [e|data]; [reflexivity|].
  destruct (select_plain_text data) as [u|]; [|reflexivity].
  destruct (truthy u); reflexivity.
Qed.

Lemma on_exception_store e w : store (snd (on_exception e w)) = store w.
Proof. destruct e; reflexivity. Qed.

Ltac exn_store := cbv beta iota; rewrite on_exception_store; reflexivity.

Lemma on_exception_requested e w :
  requested (snd (on_exception e w)) = requested w.
Proof. destruct e; reflexivity. Qed.

(** When the pipeline stops before the analysis, the handler leaves the
    store as it was. *)
Lemma stops_before_analysis_store w :
  stops_before_analysis w (strip (title_entry w)) ->
  store (on_search_title w) = store w.
Proof.
  intros H.
  destruct (truthy (strip (title_entry w))) eqn:Ht;
    [|now rewrite on_search_title_blank].
  rewrite (on_search_title_run w Ht). unfold try_except.
  set (title := strip (title_entry w)) in *.
  set (w0 := with_tree [] w).
  assert (Hmiss : store (snd (let (r, w') := search_fetch_store title w0 in
                              match r with
                              | inl e => on_exception e w'
                              | inr a => (inr a, w')
                              end)) = store w \/
                  exists r data u r2,
                    http w (requested w) (search_url title) = inr r /\ json r = inr data /\
                    select_plain_text data = Some u /\ truthy u = true /\
                    http w (requested w ++ [search_url title]) u = inr r2).
  { rewrite (search_fetch_store_unfold title w0 Ht).
    change (http w0 (requested w0)) with (http w (requested w)).
    destruct (http w (requested w) (search_url title)) as [e|r] eqn:Hr;
      [left; exn_store|].
    destruct (json r) as [e|data] eqn:Hj; [left; exn_store|].
    destruct (select_plain_text data) as [u|] eqn:Hs; [|left; reflexivity].
    destruct (truthy u) eqn:Hu; [|left; reflexivity].
    unfold fetch_book_text, requests_get. unfold bind at 1 2.
    change (http (asked title w0) (requested (asked title w0)))
      with (http w (requested w ++ [search_url title])).
    destruct (http w (requested w ++ [search_url title]) u) as [e|r2] eqn:Hr2;
      [left; exn_store|].
    right. exists r, data, u, r2. auto. }
  destruct H as [Hn|id stored url row rows Hb Hf|e He|r e Hr He|r data Hr Hd Hs
                |r data u Hr Hd Hs Hu|r data u e Hr Hd Hs Hu He].
  - congruence.
  - now rewrite (search_title_body_hit title w0 id stored url row rows Hb Hf).
  - destruct (DbUtils.get_book_by_title (store w0) title) as [[[id stored] url]|] eqn:Hb.
    + destruct (DbUtils.get_word_frequencies (store w0) id) as [|row rows] eqn:Hf.
      * rewrite (search_title_body_no_rows title w0 id stored url Hb Hf).
        destruct Hmiss as [Hm|(r & data & u & r2 & Hr & _)]; [exact Hm|congruence].
      * now rewrite (search_title_body_hit title w0 id stored url row rows Hb Hf).
    + rewrite (search_title_body_no_book title w0 Hb).
      destruct Hmiss as [Hm|(r & data & u & r2 & Hr & _)]; [exact Hm|congruence].
  - destruct (DbUtils.get_book_by_title (store w0) title) as [[[id stored] url]|] eqn:Hb.
    + destruct (DbUtils.get_word_frequencies (store w0) id) as [|row rows] eqn:Hf.
      * rewrite (search_title_body_no_rows title w0 id stored url Hb Hf).
        destruct Hmiss as [Hm|(r' & data & u & r2 & Hr' & Hj & _)];
          [exact Hm|congruence].
      * now rewrite (search_title_body_hit title w0 id stored url row rows Hb Hf).
    + rewrite (search_title_body_no_book title w0 Hb).
      destruct Hmiss as [Hm|(r' & data & u & r2 & Hr' & Hj & _)];
        [exact Hm|congruence].
  - destruct (DbUtils.get_book_by_title (store w0) title) as [[[id stored] url]|] eqn:Hb.
    + destruct (DbUtils.get_word_frequencies (store w0) id) as [|row rows] eqn:Hf.
      * rewrite (search_title_body_no_rows title w0 id stored url Hb Hf).
        destruct Hmiss as [Hm|(r' & data' & u & r2 & Hr' & Hj & Hs' & _)];
          [exact Hm|congruence].
      * now rewrite (search_title_body_hit title w0 id stored url row rows Hb Hf).
    + rewrite (search_title_body_no_book title w0 Hb).
      destruct Hmiss as [Hm|(r' & data' & u & r2 & Hr' & Hj & Hs' & _)];
        [exact Hm|congruence].
  - destruct (DbUtils.get_book_by_title (store w0) title) as [[[id stored] url]|] eqn:Hb.
    + destruct (DbUtils.get_word_frequencies (store w0) id) as [|row rows] eqn:Hf.
      * rewrite (search_title_body_no_rows title w0 id stored url Hb Hf).
        destruct Hmiss as [Hm|(r' & data' & u' & r2 & Hr' & Hj & Hs' & Hu' & _)];
          [exact Hm|congruence].
      * now rewrite (search_title_body_hit title w0 id stored url row rows Hb Hf).
    + rewrite (search_title_body_no_book title w0 Hb).
      destruct Hmiss as [Hm|(r' & data' & u' & r2 & Hr' & Hj & Hs' & Hu' & _)];
        [exact Hm|congruence].
  - destruct (DbUtils.get_book_by_title (store w0) title) as [[[id stored] url]|] eqn:Hb.
    + destruct (DbUtils.get_word_frequencies (store w0) id) as [|row rows] eqn:Hf.
      * rewrite (search_title_body_no_rows title w0 id stored url Hb Hf).
        destruct Hmiss as [Hm|(r' & data' & u' & r2 & Hr' & Hj & Hs' & Hu' & Hr2)];
          [exact Hm|congruence].
      * now rewrite (search_title_body_hit title w0 id stored url row rows Hb Hf).
    + rewrite (search_title_body_no_book title w0 Hb).
      destruct Hmiss as [Hm|(r' & data' & u' & r2 & Hr' & Hj & Hs' & Hu' & Hr2)];
        [exact Hm|congruence].
Qed.

End SearchTitle.

Section SearchTitleClaims.

Import PyStr TextUtils Main.

(** A miss, from any world: the catalogue is asked first, and after a
    successful fetch the store is what insert_or_update_book leaves. *)
Lemma search_fetch_store_miss title w :
  truthy title = true ->
  miss_outcome w (snd (try_except (search_fetch_store title) on_exception w))
               title.
Proof.
  intros Ht. unfold try_except.
  rewrite (search_fetch_store_unfold title w Ht).
  assert (Hnf : forall c : M unit,
             c = (set_status "Book was not found." ;;;
                  messagebox (showinfo "Info" "Book was not found."))%py ->
             requested (snd (let (r, w') := c (asked title w) in
                             match r with
                             | inl e => on_exception e w'
                             | inr a => (inr a, w')
                             end)) = (requested w ++ [search_url title])%list)
    by (intros c ->; reflexivity).
  split.
  - destruct (http w (requested w) (search_url title)) as [e|r];
      [exists []; cbv beta iota; now rewrite on_exception_requested|].
    destruct (json r) as [e|data];
      [exists []; cbv beta iota; now rewrite on_exception_requested|].
    destruct (select_plain_text data) as [u|]; [|exists []; now apply Hnf].
    destruct (truthy u); [|exists []; now apply Hnf].
    exists [u].
    unfold fetch_book_text, requests_get. unfold bind at 1 2.
    change (http (asked title w) (requested (asked title w)))
      with (http w (requested w ++ [search_url title])).
    destruct (http w (requested w ++ [search_url title]) u) as [e|r2].
    + cbv beta iota. rewrite on_exception_requested. simpl.
      now rewrite <- app_assoc.
    + unfold bind, ret, insert_or_update_book. cbv beta iota.
      destruct (DbUtils.insert_or_update_book _ _ _ _) as [[e|[]] d].
      * rewrite on_exception_requested. simpl. now rewrite <- app_assoc.
      * simpl. now rewrite <- app_assoc.
  - intros r data u r2 Hr Hj Hs Hu Hr2. rewrite Hr, Hj, Hs, Hu.
    unfold fetch_book_text, requests_get, bind, ret, insert_or_update_book.
    change (http (asked title w) (requested (asked title w)))
      with (http w (requested w ++ [search_url title])).
    rewrite Hr2.
    cbv beta iota.
    change (store (with_requested _ (asked title w))) with (store w).
    destruct (DbUtils.insert_or_update_book _ _ _ _) as [[e|[]] d].
    + rewrite on_exception_requested, on_exception_store. simpl.
      now rewrite <- app_assoc.
    + simpl. now rewrite <- app_assoc.
Qed.

(** C5: in the by-title handler, with a title that is not blank, the cache
    check is a hit only when the Book exists and has at least one stored
    frequency row: then nothing is requested or written and the stored rows
    are shown.  A Book that exists with no row, like a Book that does not
    exist, is a miss: the catalogue is asked, and when it gives a location
    whose text can be fetched, the text is analysed and stored again. *)
Theorem cache_hit_needs_rows (w : world) :
  truthy (strip (title_entry w)) = true ->
  match DbUtils.get_book_by_title (store w) (strip (title_entry w)) with
  | Some (id, stored, _) =>
      match DbUtils.get_word_frequencies (store w) id with
      | [] => miss_outcome w (on_search_title w) (strip (title_entry w))
      | row :: rows => hit_outcome w (on_search_title w) stored (row :: rows)
      end
  | None => miss_outcome w (on_search_title w) (strip (title_entry w))
  end.
Proof.
  intros Ht. rewrite (on_search_title_run w Ht).
  set (title := strip (title_entry w)) in *.
  pose proof (search_fetch_store_miss title (with_tree [] w) Ht) as Hmiss.
  change (DbUtils.get_book_by_title (store w) title)
    with (DbUtils.get_book_by_title (store (with_tree [] w)) title).
  destruct (DbUtils.get_book_by_title (store (with_tree [] w)) title)
    as [[[id stored] url]|] eqn:Hb.
  - change (DbUtils.get_word_frequencies (store w) id)
      with (DbUtils.get_word_frequencies (store (with_tree [] w)) id).
    destruct (DbUtils.get_word_frequencies (store (with_tree [] w)) id)
      as [|row rows] eqn:Hf.
    + unfold try_except in *.
      rewrite (search_title_body_no_rows title _ id stored url Hb Hf).
      exact Hmiss.
    + unfold try_except.
      rewrite (search_title_body_hit title _ id stored url row rows Hb Hf).
      repeat split.
  - unfold try_except in *.
    rewrite (search_title_body_no_book title _ Hb).
    exact Hmiss.
Qed.

Lemma cache_hit_needs_rows_witness :
  truthy (strip (title_entry
            (example_world example_store_no_rows example_http " the cat ")))
    = true /\
  DbUtils.get_book_by_title example_store_no_rows "the cat" =
    Some (1%Z, "The Cat", "https://www.gutenberg.org/files/7/7-0.txt") /\
  DbUtils.get_word_frequencies example_store_no_rows 1 = [] /\
  miss_outcome
    (example_world example_store_no_rows example_http " the cat ")
    (on_search_title
       (example_world example_store_no_rows example_http " the cat "))
    "the cat".
Proof.
  split; [reflexivity|]. split; [reflexivity|]. split; [reflexivity|].
  exact (cache_hit_needs_rows
           (example_world example_store_no_rows example_http " the cat ")
           eq_refl).
Defined.

(** C6: when the by-title handler ends before a fetched text has been
    analysed (the title is blank, the cache answers, the catalogue request
    or its decoding raises, the catalogue gives no location, or the fetch
    raises), the store after the call is the store before it; in particular
    every title finds the same Book with the same rows as before. *)
Theorem no_store_write_before_analysis (w : world) :
  stops_before_analysis w (strip (title_entry w)) ->
  store (on_search_title w) = store w /\
  (forall title,
      DbUtils.get_book_by_title (store (on_search_title w)) title =
      DbUtils.get_book_by_title (store w) title) /\
  (forall id,
      DbUtils.get_word_frequencies (store (on_search_title w)) id =
      DbUtils.get_word_frequencies (store w) id).
Proof.
  intros H. apply stops_before_analysis_store in H.
  rewrite H. repeat split.
Qed.

Lemma no_store_write_before_analysis_witness :
  stops_before_analysis
    (example_world example_store_no_rows example_http_gone "the cat")
    (strip "the cat") /\
  store (on_search_title
           (example_world example_store_no_rows example_http_gone "the cat"))
    = example_store_no_rows.
Proof.
  assert (H : stops_before_analysis
                (example_world example_store_no_rows example_http_gone "the cat")
                (strip "the cat")).
  { apply (stop_fetch_raises _ _ example_catalogue
             {| results := Some
                  [ {| formats := Some
                         [ ("text/html", "https://www.gutenberg.org/ebooks/7.html.images");
                           ("text/plain; charset=us-ascii",
                            "https://www.gutenberg.org/ebooks/7.txt.utf-8");
                           ("text/plain", "https://www.gutenberg.org/files/7/7-0.txt") ] |};
                    {| formats := None |} ] |}
             "https://www.gutenberg.org/files/7/7-0.txt"
             (RequestException "404 Client Error: Not Found"));
      reflexivity. }
  split; [exact H|].
  exact (proj1 (no_store_write_before_analysis
                  (example_world example_store_no_rows example_http_gone "the cat")
                  H)).
Defined.

End SearchTitleClaims.

Section SearchTwiceClaims.

Import PyStr TextUtils Main.

(** The first search, when it fetches and stores. *)
Lemma on_search_title_stored w r data u r2 :
  truthy (strip (title_entry w)) = true ->
  ~ cache_hit (store w) (strip (title_entry w)) ->
  http w (requested w) (search_url (strip (title_entry w))) = inr r ->
  json r = inr data ->
  select_plain_text data = Some u ->
  truthy u = true ->
  http w (requested w ++ [search_url (strip (title_entry w))]) u = inr r2 ->
  fst (DbUtils.insert_or_update_book (store w) (extract_title (text r2)) u
         (compute_top_words (text r2) 10)) = inr tt ->
  tree (on_search_title w) = compute_top_words (text r2) 10 /\
  store (on_search_title w) =
    snd (DbUtils.insert_or_update_book (store w) (extract_title (text r2)) u
           (compute_top_words (text r2) 10)) /\
  title_entry (on_search_title w) = title_entry w.
Proof.
  intros Ht Hmiss Hr Hj Hs Hu Hr2 Hok.
  rewrite (on_search_title_run w Ht).
  set (title := strip (title_entry w)) in *.
  set (w0 := with_tree [] w).
  assert (Hbody : search_title_body title w0 = search_fetch_store title w0).
  { destruct (DbUtils.get_book_by_title (store w0) title)
      as [[[id stored] url]|] eqn:Hb.
    - destruct (DbUtils.get_word_frequencies (store w0) id) as [|row rows] eqn:Hf.
      + apply (search_title_body_no_rows title w0 id stored url Hb Hf).
      + exfalso. apply Hmiss. exists id, stored, url, row, rows. auto.
    - apply (search_title_body_no_book title w0 Hb). }
  unfold try_except. rewrite Hbody, (search_fetch_store_unfold title w0 Ht).
  change (http w0 (requested w0)) with (http w (requested w)).
  rewrite Hr, Hj, Hs, Hu.
  unfold fetch_book_text, requests_get, bind, ret, insert_or_update_book.
  change (http (asked title w0) (requested (asked title w0)))
    with (http w (requested w ++ [search_url title])).
  rewrite Hr2. cbv beta iota.
  change (store (with_requested _ (asked title w0))) with (store w).
  destruct (DbUtils.insert_or_update_book _ _ _ _) as [[e|[]] d];
    [discriminate|].
  repeat split.
Qed.

(** A search answered by the cache shows the first ten rows read. *)
Lemma on_search_title_hit w id stored url row rows :
  truthy (strip (title_entry w)) = true ->
  DbUtils.get_book_by_title (store w) (strip (title_entry w))
    = Some (id, stored, url) ->
  DbUtils.get_word_frequencies (store w) id = row :: rows ->
  tree (on_search_title w) = firstn 10 (row :: rows).
Proof.
  intros Ht Hb Hf. rewrite (on_search_title_run w Ht). unfold try_except.
  now rewrite (search_title_body_hit _ (with_tree [] w) id stored url row rows Hb Hf).
Qed.

Lemma compute_top_words_length body :
  length (compute_top_words body 10) <= 10.
Proof. apply (firstn_le_length 10). Qed.

(** C3, as the code has it: when the by-title handler is called twice in
    succession, the first call fetching, computing and storing, and the
    second call hitting the cache, the second call shows the same (word,
    count) pairs as the first, but read back from the store: ordered by count
    descending with ties in ascending word order, whereas the first list has
    its ties in first-occurrence order.  The two lists are identical when the
    first one is already in the order of the store. *)
Theorem second_search_shows_stored_order (w : world) (body : string) :
  truthy (strip (title_entry w)) = true ->
  fetches_and_stores w (strip (title_entry w)) body ->
  cache_hit (store (on_search_title w)) (strip (title_entry w)) ->
  tree (on_search_title w) = compute_top_words body 10 /\
  tree (on_search_title (on_search_title w)) =
    DbUtils.order_by (tree (on_search_title w)) /\
  Permutation (tree (on_search_title w))
              (tree (on_search_title (on_search_title w))) /\
  StronglySorted count_desc_word_asc
                 (tree (on_search_title (on_search_title w))) /\
  (StronglySorted count_desc_word_asc (tree (on_search_title w)) ->
   tree (on_search_title (on_search_title w)) = tree (on_search_title w)).
Proof.
  intros Ht (Hmiss & r & data & u & r2 & Hr & Hj & Hs & Hu & Hr2 & <- & Hok)
         (id & stored & url & row & rows & Hb & Hf).
  destruct (on_search_title_stored w r data u r2 Ht Hmiss Hr Hj Hs Hu Hr2 Hok)
    as (Htree & Hstore & Hentry).
  assert (Hsecond : tree (on_search_title (on_search_title w)) =
                    DbUtils.order_by (compute_top_words (text r2) 10)).
  { rewrite (on_search_title_hit (on_search_title w) id stored url row rows);
      rewrite ?Hentry; try assumption.
    rewrite Hstore in Hb, Hf.
    rewrite (hit_after_store _ _ _ _ _ _ _ _ _ _ Hmiss Hok Hb Hf).
    apply firstn_all2.
    rewrite <- (Permutation_length (order_by_perm _)).
    apply compute_top_words_length. }
  rewrite Hsecond, Htree. repeat split.
  - apply order_by_perm.
  - apply order_by_sorted.
  - apply order_by_id.
Qed.

Lemma second_search_shows_stored_order_witness :
  truthy (strip "the cat") = true /\
  fetches_and_stores (example_world DbUtils.new_database example_http "the cat")
                     (strip "the cat") example_text /\
  cache_hit
    (store (on_search_title
              (example_world DbUtils.new_database example_http "the cat")))
    (strip "the cat") /\
  tree (on_search_title
          (on_search_title
             (example_world DbUtils.new_database example_http "the cat"))) =
    DbUtils.order_by
      (tree (on_search_title
               (example_world DbUtils.new_database example_http "the cat"))).
Proof.
  assert (H1 : fetches_and_stores
                 (example_world DbUtils.new_database example_http "the cat")
                 (strip "the cat") example_text).
  { split.
    - intros (id & stored & url & row & rows & Hb & _). discriminate Hb.
    - exists example_catalogue,
        {| results := Some
             [ {| formats := Some
                    [ ("text/html", "https://www.gutenberg.org/ebooks/7.html.images");
                      ("text/plain; charset=us-ascii",
                       "https://www.gutenberg.org/ebooks/7.txt.utf-8");
                      ("text/plain", "https://www.gutenberg.org/files/7/7-0.txt") ] |};
               {| formats := None |} ] |},
        "https://www.gutenberg.org/files/7/7-0.txt", example_page.
      repeat split. }
  assert (H2 : cache_hit
                 (store (on_search_title
                    (example_world DbUtils.new_database example_http "the cat")))
                 (strip "the cat")).
  { exists 1%Z, "The Cat", "https://www.gutenberg.org/files/7/7-0.txt",
      ("cat", 3%Z),
      [("mat", 1%Z); ("ran", 1%Z); ("sat", 1%Z); ("title", 1%Z)].
    split; reflexivity. }
  split; [reflexivity|]. split; [exact H1|]. split; [exact H2|].
  exact (proj1 (proj2 (second_search_shows_stored_order
                         (example_world DbUtils.new_database example_http "the cat")
                         example_text eq_refl H1 H2))).
Defined.

(** C3, as the spec states it, fails: the first search for "the cat"
    fetches, analyses and stores; the second is answered by the cache,
    without any request, and shows the same five pairs in another order, the
    words of count 1 now in ascending order. *)
Lemma second_search_reorders_ties :
  tree (on_search_title (example_world DbUtils.new_database example_http "the cat"))
    = [("cat", 3%Z); ("title", 1%Z); ("sat", 1%Z); ("mat", 1%Z); ("ran", 1%Z)] /\
  status_label
    (on_search_title (example_world DbUtils.new_database example_http "the cat"))
    = "Retrieved 'The Cat' from the web and stored it." /\
  tree (on_search_title
          (on_search_title
             (example_world DbUtils.new_database example_http "the cat")))
    = [("cat", 3%Z); ("mat", 1%Z); ("ran", 1%Z); ("sat", 1%Z); ("title", 1%Z)] /\
  status_label
    (on_search_title
       (on_search_title
          (example_world DbUtils.new_database example_http "the cat")))
    = "Loaded 'The Cat' from local database." /\
  requested
    (on_search_title
       (on_search_title
          (example_world DbUtils.new_database example_http "the cat")))
    = requested
        (on_search_title
           (example_world DbUtils.new_database example_http "the cat")) /\
  tree (on_search_title
          (on_search_title
             (example_world DbUtils.new_database example_http "the cat")))
    <> tree (on_search_title
               (example_world DbUtils.new_database example_http "the cat")).
Proof. repeat split. vm_compute. discriminate. Qed.

End SearchTwiceClaims.

(* ===================================================================== *)
(** ** More on compute_top_words *)
(* ===================================================================== *)

Section TopWordsMore.

Import PyStr TextUtils.

Lemma occurrences_snoc w p t :
  occurrences w (p ++ [t]) =
  (occurrences w p + (if String.eqb t w then 1 else 0))%Z.
Proof.
  induction p as [|x p IH]; simpl; [lia|]. rewrite IH. lia.
Qed.

Lemma occurrences_notin w p : ~ In w p -> occurrences w p = 0%Z.
Proof.
  induction p as [|x p IH]; simpl; [reflexivity|]. intros H.
  destruct (String.eqb x w) eqn:E.
  - apply String.eqb_eq in E. tauto.
  - rewrite IH; tauto.
Qed.


Lemma counter_add_occurrences c t p :
  NoDup (map fst c) ->
  (forall k, In k (map fst c) <-> In k p) ->
  Forall (fun kv => snd kv = occurrences (fst kv) p) c ->
  Forall (fun kv => snd kv = occurrences (fst kv) (p ++ [t])) (counter_add c t).
Proof.
  intros Hnd Hkeys Hc.
  assert (Hgen : forall c0,
             NoDup (map fst c0) ->
             (~ In t (map fst c0) -> ~ In t p) ->
             Forall (fun kv => snd kv = occurrences (fst kv) p) c0 ->
             Forall (fun kv => snd kv = occurrences (fst kv) (p ++ [t]))
                    (counter_add c0 t)).
  { induction c0 as [|[k v] c0 IH]; simpl; intros Hn Ht Hf.
    - repeat constructor. simpl. rewrite occurrences_snoc, String.eqb_refl.
      rewrite occurrences_notin; [reflexivity|tauto].
    - inversion Hn as [|? ? Hk Hn']; subst.
      inversion Hf as [|? ? Hv Hf']; subst. simpl in Hv.
      destruct (String.eqb k t) eqn:E.
      + apply String.eqb_eq in E. subst k. constructor.
        * simpl. rewrite occurrences_snoc, String.eqb_refl. lia.
        * revert Hf'. rewrite !Forall_forall. intros Hf' [k' v'] Hin.
          specialize (Hf' _ Hin). simpl in *.
          rewrite occurrences_snoc.
          destruct (String.eqb t k') eqn:E'; [|lia].
          apply String.eqb_eq in E'. subst k'. exfalso. apply Hk.
          change t with (fst (t, v')). now apply in_map.
      + constructor.
        * simpl. rewrite occurrences_snoc, String.eqb_sym, E. lia.
        * apply IH; auto. intros Hnt. apply Ht. intros [H|H]; [|tauto].
          subst. now rewrite String.eqb_refl in E. }
  apply Hgen; auto. intros Hnt Hin. apply Hnt, Hkeys, Hin.
Qed.

Lemma Counter_occurrences p :
  Forall (fun kv => snd kv = occurrences (fst kv) p) (Counter p).
Proof.
  induction p as [|t p IH] using rev_ind; [constructor|].
  rewrite Counter_snoc. apply counter_add_occurrences; auto.
  - apply Counter_keys_NoDup.
  - intros k. apply Counter_keys_In.
Qed.

(** Every count returned is the number of occurrences of the word among
    the tokens kept. *)
Theorem compute_top_words_counts (text : string) (n : Z) :
  Forall (fun wc => snd wc = occurrences (fst wc) (filtered_tokens text))
         (compute_top_words text n).
Proof.
  apply Forall_forall. intros wc H. apply compute_top_words_In in H.
  pose proof (Counter_occurrences (filtered_tokens text)) as Hc.
  rewrite Forall_forall in Hc. now apply Hc.
Qed.

Lemma NoDup_firstn {A} n (l : list A) : NoDup l -> NoDup (firstn n l).
Proof.
  intros H. rewrite <- (firstn_skipn n l) in H.
  now apply NoDup_app_remove_r in H.
Qed.

Lemma Counter_length p : length (Counter p) = length (nodup string_dec p).
Proof.
  rewrite <- (length_map fst (Counter p)).
  apply Permutation_length, NoDup_Permutation.
  - apply Counter_keys_NoDup.
  - apply NoDup_nodup.
  - intros w. rewrite Counter_keys_In, nodup_In. tauto.
Qed.

Lemma most_common_distinct c n :
  NoDup (map fst c) -> NoDup (map fst (most_common c n)).
Proof.
  intros H. unfold most_common. rewrite <- firstn_map.
  apply NoDup_firstn.
  now apply (Permutation_NoDup
               (Permutation_map fst (sorted_by_count_desc_perm _))).
Qed.

(** No word is returned twice, and every word kept is returned when [n] is
    at least the number of distinct words kept. *)
Theorem compute_top_words_distinct (text : string) (n : Z) :
  NoDup (map fst (compute_top_words text n)) /\
  (length (nodup string_dec (filtered_tokens text)) <= Z.to_nat n ->
   forall t, In t (filtered_tokens text) ->
             In t (map fst (compute_top_words text n))).
Proof.
  split.
  - apply most_common_distinct, Counter_keys_NoDup.
  - intros Hn t Ht. unfold compute_top_words, most_common.
    rewrite firstn_all2.
    + apply (Permutation_in _
               (Permutation_map fst (sorted_by_count_desc_perm _))).
      now apply Counter_keys_In.
    + rewrite <- (Permutation_length (sorted_by_count_desc_perm _)).
      now rewrite Counter_length.
Qed.

Lemma StronglySorted_app_inv {A} (R : A -> A -> Prop) l1 l2 :
  StronglySorted R (l1 ++ l2) ->
  forall a b, In a l1 -> In b l2 -> R a b.
Proof.
  induction l1 as [|x l1 IH]; simpl; intros H a b Ha Hb; [tauto|].
  inversion H as [|? ? Hs Hx]; subst.
  destruct Ha as [<-|Ha]; [|eauto].
  rewrite Forall_forall in Hx. apply Hx, in_or_app. now right.
Qed.

Lemma StronglySorted_any {A} (l : list A) :
  StronglySorted (fun _ _ => True) l.
Proof.
  induction l; constructor; auto. now apply Forall_forall.
Qed.

(** The words returned are the most frequent ones: a counted word that is
    not returned has a count no larger than any count returned. *)
Theorem compute_top_words_highest (text : string) (n : Z) :
  Forall (fun kv =>
            In kv (compute_top_words text n) \/
            Forall (fun r => (snd kv <= snd r)%Z) (compute_top_words text n))
         (Counter (filtered_tokens text)).
Proof.
  apply Forall_forall. intros kv Hkv.
  unfold compute_top_words, most_common.
  set (S := sorted_by_count_desc (Counter (filtered_tokens text))).
  assert (HS : StronglySorted (ranked (fun _ _ => True)) S)
    by apply sorted_by_count_desc_sorted, StronglySorted_any.
  assert (Hin : In kv S)
    by (revert Hkv; apply Permutation_in, sorted_by_count_desc_perm).
  rewrite <- (firstn_skipn (Z.to_nat n) S) in Hin, HS.
  apply in_app_or in Hin. destruct Hin as [Hin|Hin]; [now left|right].
  apply Forall_forall. intros r Hr.
  destruct (StronglySorted_app_inv _ _ _ HS r kv Hr Hin) as [H|[H _]]; lia.
Qed.

(** The number of entries returned is [n] or the number of distinct words
    kept, whichever is smaller. *)
Theorem compute_top_words_length_exact (text : string) (n : Z) :
  length (compute_top_words text n) =
  Nat.min (Z.to_nat n) (length (nodup string_dec (filtered_tokens text))).
Proof.
  unfold compute_top_words, most_common.
  rewrite length_firstn,
    <- (Permutation_length (sorted_by_count_desc_perm _)), Counter_length.
  reflexivity.
Qed.

Lemma lower_char_idem c : lower_char (lower_char c) = lower_char c.
Proof. destruct c as [[] [] [] [] [] [] [] []]; reflexivity. Qed.

Lemma lower_idem s : lower (lower s) = lower s.
Proof.
  induction s as [|c s IH]; simpl; [reflexivity|].
  now rewrite lower_char_idem, IH.
Qed.

(** The analysis does not depend on the case of the text. *)
Theorem compute_top_words_ignores_case (text : string) (n : Z) :
  compute_top_words (lower text) n = compute_top_words text n.
Proof.
  unfold compute_top_words, filtered_tokens. now rewrite lower_idem.
Qed.

End TopWordsMore.

Section TopWordsMoreExamples.

Import TextUtils.

Lemma compute_top_words_distinct_witness :
  length (nodup string_dec (filtered_tokens example_text)) <= Z.to_nat 10 /\
  In "mat" (filtered_tokens example_text) /\
  In "mat" (map fst (compute_top_words example_text 10)).
Proof.
  assert (H1 : length (nodup string_dec (filtered_tokens example_text))
               <= Z.to_nat 10).
  { apply Nat.leb_le. vm_compute. reflexivity. }
  assert (H2 : In "mat" (filtered_tokens example_text)).
  { vm_compute. tauto. }
  split; [exact H1|]. split; [exact H2|].
  exact (proj2 (compute_top_words_distinct example_text 10) H1 "mat" H2).
Defined.

End TopWordsMoreExamples.

(* ===================================================================== *)
(** ** More on extract_title *)
(* ===================================================================== *)

Section ExtractTitleMore.

Import PyStr TextUtils.

Lemma rstrip_idem s : rstrip (rstrip s) = rstrip s.
Proof.
  induction s as [|c s IH]; simpl; [reflexivity|].
  destruct (rstrip s) as [|d r] eqn:R.
  - destruct (isspace c) eqn:Hs; simpl; [reflexivity|now rewrite Hs].
  - remember (String d r) as t eqn:Et. simpl. rewrite IH. now subst t.
Qed.

Lemma rstrip_head c s :
  isspace c = false -> exists r, rstrip (String c s) = String c r.
Proof.
  intros Hs. simpl. destruct (rstrip s); [rewrite Hs|]; eauto.
Qed.

Lemma lstrip_rstrip_lstrip s : lstrip (rstrip (lstrip s)) = rstrip (lstrip s).
Proof.
  destruct (lstrip_spec s) as (a & _ & _ & Hc).
  destruct (lstrip s) as [|c t]; [reflexivity|].
  destruct (rstrip_head c t Hc) as (r & ->). simpl. now rewrite Hc.
Qed.

Lemma strip_idem s : strip (strip s) = strip s.
Proof.
  unfold strip. now rewrite lstrip_rstrip_lstrip, rstrip_idem.
Qed.

Lemma scan_title_trimmed ls t : scan_title ls = Some t -> strip t = t.
Proof.
  induction ls as [|l ls IH]; simpl; [discriminate|].
  destruct (is_title_line (strip l)); [|assumption].
  intros H. injection H as <-. apply strip_idem.
Qed.

Lemma first_non_empty_trimmed ls t :
  first_non_empty ls = Some t -> strip t = t /\ truthy t = true.
Proof.
  induction ls as [|l ls IH]; simpl; [discriminate|].
  destruct (truthy (strip l)) eqn:E; [|assumption].
  intros H. injection H as <-. split; [apply strip_idem|assumption].
Qed.

(** The title extracted carries no white space around it: trimming it again
    changes nothing. *)
Theorem extract_title_trimmed (text : string) :
  strip (extract_title text) = extract_title text.
Proof.
  unfold extract_title.
  destruct (scan_title _) as [t|] eqn:S; [now apply scan_title_trimmed in S|].
  destruct (first_non_empty _) as [t|] eqn:F; [|reflexivity].
  now apply first_non_empty_trimmed in F.
Qed.

Lemma unicode_first_non_empty_truthy ls : forall t,
  Unicode.first_non_empty ls = Some t -> Unicode.truthy t = true.
Proof.
  induction ls as [|l ls IH]; simpl; intros t; [discriminate|].
  destruct (Unicode.truthy (Unicode.strip l)) eqn:E; [|apply IH].
  intros H. injection H as <-. assumption.
Qed.

(** The title extracted is empty only when a line among the first 60 passes
    the title test and has nothing but white space after its first six
    characters; without such a line the title is never empty. *)
Theorem extract_title_empty_only_after_prefix
    (case_table : N -> list N) (text : list N) :
  Unicode.extract_title case_table text = [] ->
  exists line,
    In line (firstn 60 (Unicode.splitlines text)) /\
    Unicode.is_title_line case_table (Unicode.strip line) = true /\
    Unicode.strip (skipn 6 (Unicode.strip line)) = [].
Proof.
  unfold Unicode.extract_title.
  destruct (Unicode.scan_title _ _) as [t|] eqn:S.
  - intros ->. clear -S.
    induction (firstn 60 (Unicode.splitlines text)) as [|l ls IH]; simpl in S;
      [discriminate|].
    destruct (Unicode.is_title_line case_table (Unicode.strip l)) eqn:E.
    + injection S as S. exists l. simpl. auto.
    + destruct (IH S) as (line & Hin & H). exists line. simpl. auto.
  - destruct (Unicode.first_non_empty _) as [t|] eqn:F; [|discriminate].
    intros ->. apply unicode_first_non_empty_truthy in F. discriminate.
Qed.

Lemma extract_title_empty_only_after_prefix_witness :
  Unicode.extract_title example_case_table
    (codes "t" ++ [305; 116; 108; 101; 58; 12288; 10]%N ++ codes "Moby Dick") = [] /\
  exists line,
    In line (firstn 60
               (Unicode.splitlines
                  (codes "t" ++ [305; 116; 108; 101; 58; 12288; 10]%N ++
                   codes "Moby Dick"))) /\
    Unicode.is_title_line example_case_table (Unicode.strip line) = true /\
    Unicode.strip (skipn 6 (Unicode.strip line)) = [].
Proof.
  assert (E : Unicode.extract_title example_case_table
                (codes "t" ++ [305; 116; 108; 101; 58; 12288; 10]%N ++
                 codes "Moby Dick") = []) by (vm_compute; reflexivity).
  split; [exact E|].
  exact (extract_title_empty_only_after_prefix example_case_table _ E).
Defined.

End ExtractTitleMore.

(* ===================================================================== *)
(** ** More on search_gutenberg_by_title *)
(* ===================================================================== *)

Section SearchMore.

Import PyStr TextUtils.

Lemma all_chars_app p a b :
  all_chars p (a ++ b) = all_chars p a && all_chars p b.
Proof.
  induction a as [|c a IH]; simpl; [reflexivity|].
  now rewrite IH, andb_assoc.
Qed.

Lemma quote_plus_char_safe c : all_chars is_query_char (quote_plus_char c) = true.
Proof. destruct c as [[] [] [] [] [] [] [] []]; reflexivity. Qed.

Lemma find_none_Forall {A} (p : A -> bool) l :
  find p l = None -> Forall (fun x => p x = false) l.
Proof.
  intros H. apply Forall_forall. intros x Hx. exact (find_none _ _ H x Hx).
Qed.

Lemma first_plain_text_sound items u :
  first_plain_text items = Some u ->
  exists key,
    In (key, u) items /\ contains "text/plain" key = true /\
    (endswith ".txt" u = true \/
     Forall (fun kv => is_plain_txt kv = false) items).
Proof.
  unfold first_plain_text.
  destruct (find is_plain_txt items) as [[k v]|] eqn:F.
  - intros H. injection H as <-. apply find_some in F. destruct F as [Hin Hp].
    unfold is_plain_txt in Hp. simpl in *. apply andb_true_iff in Hp.
    exists k. tauto.
  - destruct (find is_plain items) as [[k v]|] eqn:G; [|discriminate].
    intros H. injection H as <-. apply find_some in G. destruct G as [Hin Hp].
    exists k. split; [assumption|]. split; [exact Hp|].
    right. now apply find_none_Forall.
Qed.

Lemma select_plain_text_sound data u :
  select_plain_text data = Some u ->
  exists first_book others items key,
    results data = Some (first_book :: others) /\
    formats first_book = Some items /\
    In (key, u) items /\ contains "text/plain" key = true /\
    (endswith ".txt" u = true \/
     Forall (fun kv => is_plain_txt kv = false) items).
Proof.
  unfold select_plain_text.
  destruct (results data) as [[|b others]|]; try discriminate.
  rewrite select_first_plain_text.
  destruct (formats b) as [items|] eqn:Hf; [|discriminate].
  intros H. apply first_plain_text_sound in H. destruct H as (key & H).
  exists b, others, items, key. auto.
Qed.

(** A location returned by the search is always taken from the formats of
    the first result of the answer, under a label that contains
    "text/plain"; and it ends in ".txt" unless no plain-text entry of that
    book does. *)
Theorem search_gutenberg_by_title_sound (w : world) (title u : string) :
  fst (search_gutenberg_by_title title w) = inr (Some u) ->
  exists r data first_book others items key,
    http w (requested w) (search_url title) = inr r /\
    json r = inr data /\
    results data = Some (first_book :: others) /\
    formats first_book = Some items /\
    In (key, u) items /\ contains "text/plain" key = true /\
    (endswith ".txt" u = true \/
     Forall (fun kv => is_plain_txt kv = false) items).
Proof.
  destruct (truthy title) eqn:Ht.
  - rewrite (search_gutenberg_by_title_run title w Ht). simpl.
    destruct (http w (requested w) (search_url title)) as [e|r] eqn:Hr;
      [discriminate|].
    destruct (json r) as [e|data] eqn:Hj; [discriminate|].
    intros H. injection H as H. apply select_plain_text_sound in H.
    destruct H as (b & others & items & key & H).
    exists r, data, b, others, items, key. auto.
  - unfold search_gutenberg_by_title. rewrite Ht. discriminate.
Qed.

Lemma search_gutenberg_by_title_sound_witness :
  fst (search_gutenberg_by_title "the cat"
         (example_world DbUtils.new_database example_http "the cat")) =
    inr (Some "https://www.gutenberg.org/files/7/7-0.txt") /\
  exists r data first_book others items key,
    example_http [] (search_url "the cat") = inr r /\
    json r = inr data /\
    results data = Some (first_book :: others) /\
    formats first_book = Some items /\
    In (key, "https://www.gutenberg.org/files/7/7-0.txt") items /\
    contains "text/plain" key = true /\
    (endswith ".txt" "https://www.gutenberg.org/files/7/7-0.txt" = true \/
     Forall (fun kv => is_plain_txt kv = false) items).
Proof.
  split; [reflexivity|].
  exact (search_gutenberg_by_title_sound
           (example_world DbUtils.new_database example_http "the cat")
           "the cat" "https://www.gutenberg.org/files/7/7-0.txt" eq_refl).
Defined.

(** The ways the search finds nothing or fails.  An empty title gives None
    without any request.  Otherwise one request is made, for the search URL,
    and nothing else changes; what the request or the decoding of the answer
    raises is raised as it is; and an answer without a results key, or whose
    first result has no formats key or no "text/plain" label, gives None. *)
Theorem search_gutenberg_by_title_edges (w : world) (title : string) :
  search_gutenberg_by_title EmptyString w = (inr None, w) /\
  (truthy title = true ->
   snd (search_gutenberg_by_title title w) = asked title w /\
   (forall e, http w (requested w) (search_url title) = inl e ->
              fst (search_gutenberg_by_title title w) = inl e) /\
   (forall r e, http w (requested w) (search_url title) = inr r ->
                json r = inl e ->
                fst (search_gutenberg_by_title title w) = inl e) /\
   (forall r data, http w (requested w) (search_url title) = inr r ->
                   json r = inr data ->
                   results data = None \/
                   (exists b others, results data = Some (b :: others) /\
                      (formats b = None \/
                       exists items, formats b = Some items /\
                         Forall (fun kv => is_plain kv = false) items)) ->
                   fst (search_gutenberg_by_title title w) = inr None)).
Proof.
  split; [reflexivity|]. intros Ht.
  rewrite (search_gutenberg_by_title_run title w Ht). simpl.
  split; [reflexivity|]. split; [|split].
  - intros e ->. reflexivity.
  - intros r e -> ->. reflexivity.
  - intros r data -> -> H. f_equal. unfold select_plain_text.
    destruct H as [->|(b & others & -> & [->|(items & -> & Hf)])];
      try reflexivity.
    rewrite select_first_plain_text. unfold first_plain_text.
    assert (G : find is_plain items = None).
    { clear -Hf. induction Hf as [|x l Hx _ IH]; simpl; [reflexivity|].
      now rewrite Hx. }
    assert (F : find is_plain_txt items = None).
    { clear -Hf. induction Hf as [|x l Hx _ IH]; simpl; [reflexivity|].
      unfold is_plain_txt at 1. unfold is_plain in Hx. now rewrite Hx. }
    now rewrite F, G.
Qed.

Lemma search_gutenberg_by_title_edges_witness :
  truthy "no such book" = true /\
  search_gutenberg_by_title "no such book"
    (example_world DbUtils.new_database example_http "no such book") =
  (inl (RequestException "404 Client Error: Not Found"),
   asked "no such book"
     (example_world DbUtils.new_database example_http "no such book")).
Proof.
  split; [reflexivity|].
  pose proof (proj2 (search_gutenberg_by_title_edges
                (example_world DbUtils.new_database example_http "no such book")
                "no such book") eq_refl) as (Hw & He & _).
  rewrite (surjective_pairing (search_gutenberg_by_title _ _)).
  rewrite Hw, (He (RequestException "404 Client Error: Not Found") eq_refl).
  reflexivity.
Defined.

End SearchMore.

(* ===================================================================== *)
(** ** More on the cache store *)
(* ===================================================================== *)

Section StoreMore.

Import DbUtils.

(** The lookup by title ignores the case of A-Z only and takes the first
    row that matches: a Book is found exactly when some stored title equals
    the title asked for once both are lowered, and the Book found is the
    first such row. *)
Theorem get_book_by_title_first_match (d : database) (title : string) :
  match get_book_by_title d title with
  | Some (id, stored, url) =>
      exists before after,
        books d = (before ++ {| book_id := id; book_title := stored;
                                book_url := url |} :: after)%list /\
        sql_lower stored = sql_lower title /\
        Forall (fun r => sql_lower (book_title r) <> sql_lower title) before
  | None =>
      Forall (fun r => sql_lower (book_title r) <> sql_lower title) (books d)
  end.
Proof.
  unfold get_book_by_title.
  induction (books d) as [|r l IH]; simpl; [constructor|].
  destruct (String.eqb (sql_lower (book_title r)) (sql_lower title)) eqn:E.
  - apply String.eqb_eq in E. exists [], l. destruct r. simpl in *. auto.
  - apply String.eqb_neq in E.
    destruct (find _ l) as [r'|].
    + destruct IH as (before & after & -> & Hs & Hf).
      exists (r :: before), after. simpl. auto.
    + constructor; assumption.
Qed.

Lemma find_ext_in {A} (p q : A -> bool) l :
  (forall x, In x l -> p x = q x) -> find p l = find q l.
Proof.
  induction l as [|x l IH]; simpl; intros H; [reflexivity|].
  rewrite (H x) by auto. destruct (q x); auto.
Qed.

Lemma upsert_book_url title url d r :
  In r (books (upsert_book title url d)) ->
  book_title r = title -> book_url r = url.
Proof.
  destruct (in_dec string_dec title (titles d)) as [Hin|Hin].
  - apply (proj2 (proj2 (upsert_book_titles_present title url d Hin))).
  - destruct (upsert_book_titles_absent title url d Hin) as (id & E & _).
    rewrite E, in_app_iff. simpl. intros [H|[<-|[]]] Ht; [|reflexivity].
    exfalso. apply Hin. unfold titles. rewrite <- Ht. now apply in_map.
Qed.

Lemma upsert_book_title_In title url d r :
  In r (books (upsert_book title url d)) ->
  book_title r = title \/ In (book_title r) (titles d).
Proof.
  destruct (in_dec string_dec title (titles d)) as [Hin|Hin].
  - intros Hr. right.
    rewrite <- (proj1 (upsert_book_titles_present title url d Hin)).
    unfold titles. now apply in_map.
  - destruct (upsert_book_titles_absent title url d Hin) as (id & E & _).
    rewrite E, in_app_iff. simpl. intros [H|[<-|[]]]; [right|now left].
    unfold titles. now apply in_map.
Qed.

(** After the upsert of [title], when no stored title differs from it only
    by case, the lookup finds the row the [SELECT] of the id finds. *)
Lemma get_book_by_title_after_upsert d d' title url id :
  books d' = books (upsert_book title url d) ->
  select_book_id d' title = Some id ->
  (forall t, In t (titles d) -> sql_lower t = sql_lower title -> t = title) ->
  get_book_by_title d' title = Some (id, title, url).
Proof.
  intros Hb Hid Hcase. unfold get_book_by_title, select_book_id in *.
  rewrite Hb in *.
  rewrite (find_ext_in _ (fun r => String.eqb (book_title r) title)).
  - destruct (find _ (books (upsert_book title url d))) as [r|] eqn:F;
      [|discriminate].
    injection Hid as <-. apply find_some in F. destruct F as [Hin Ht].
    apply String.eqb_eq in Ht.
    now rewrite Ht, (upsert_book_url title url d r Hin Ht).
  - intros r Hr.
    destruct (String.eqb (book_title r) title) eqn:E.
    + apply String.eqb_eq in E. rewrite E. apply String.eqb_refl.
    + apply String.eqb_neq in E. apply String.eqb_neq. intros Hl.
      destruct (upsert_book_title_In title url d r Hr) as [H|H]; auto.
Qed.

(** Round trip: when no stored title differs from [title] only by case, a
    call that returns is read back by the lookup: the title finds the Book
    with the location given and exactly the rows given, in the order of the
    store, whatever rows the Book had before. *)
Theorem insert_then_lookup
    (d : database) (title url : string) (wfs : list (string * Z)) :
  fst (insert_or_update_book d title url wfs) = inr tt ->
  (forall t, In t (titles d) -> sql_lower t = sql_lower title -> t = title) ->
  exists id,
    get_book_by_title (snd (insert_or_update_book d title url wfs)) title
      = Some (id, title, url) /\
    get_word_frequencies (snd (insert_or_update_book d title url wfs)) id
      = order_by wfs.
Proof.
  intros Hok Hcase.
  destruct (insert_or_update_book_returns d title url wfs Hok)
    as (id & Hid & Hrows & _).
  exists id. split.
  - apply (get_book_by_title_after_upsert d _ title url id); auto.
    apply insert_or_update_book_books.
  - unfold get_word_frequencies.
    fold (rows_of (snd (insert_or_update_book d title url wfs)) id).
    now rewrite Hrows.
Qed.

Lemma insert_then_lookup_witness :
  fst (insert_or_update_book example_store "Moby Dick"
         "https://example.org/moby.txt" [("sea", 2%Z); ("whale", 5%Z)])
    = inr tt /\
  exists id,
    get_book_by_title
      (snd (insert_or_update_book example_store "Moby Dick"
              "https://example.org/moby.txt" [("sea", 2%Z); ("whale", 5%Z)]))
      "Moby Dick" = Some (id, "Moby Dick", "https://example.org/moby.txt") /\
    get_word_frequencies
      (snd (insert_or_update_book example_store "Moby Dick"
              "https://example.org/moby.txt" [("sea", 2%Z); ("whale", 5%Z)]))
      id = order_by [("sea", 2%Z); ("whale", 5%Z)].
Proof.
  split; [reflexivity|].
  apply (insert_then_lookup example_store "Moby Dick"
           "https://example.org/moby.txt" [("sea", 2%Z); ("whale", 5%Z)]
           eq_refl).
  intros t [<-|[]] H. discriminate H.
Defined.

Lemma filter_map_same {A} (p : A -> bool) (f : A -> A) l :
  (forall x, p (f x) = p x) -> (forall x, p x = true -> f x = x) ->
  filter p (map f l) = filter p l.
Proof.
  intros H1 H2. induction l as [|x l IH]; simpl; [reflexivity|].
  rewrite H1. destruct (p x) eqn:E; [|assumption].
  now rewrite IH, H2.
Qed.

(** A call, whatever it raises, leaves every other Book as it is (same
    row, same place) and never changes the id of a stored Book, the one it
    updates included. *)
Theorem insert_or_update_book_keeps_books
    (d : database) (title url : string) (wfs : list (string * Z)) :
  filter (fun r => negb (String.eqb (book_title r) title))
         (books (snd (insert_or_update_book d title url wfs))) =
  filter (fun r => negb (String.eqb (book_title r) title)) (books d) /\
  Forall (fun t =>
            select_book_id (snd (insert_or_update_book d title url wfs)) t =
            select_book_id d t)
         (titles d).
Proof.
  rewrite insert_or_update_book_books. split.
  - destruct (in_dec string_dec title (titles d)) as [Hin|Hin].
    + unfold upsert_book. apply existsb_title_In in Hin. rewrite Hin. simpl.
      apply filter_map_same; intros r.
      * destruct (String.eqb (book_title r) title) eqn:E; simpl;
          rewrite ?E; reflexivity.
      * intros H. apply negb_true_iff in H. now rewrite H.
    + destruct (upsert_book_titles_absent title url d Hin) as (id & E & _).
      rewrite E, filter_app. simpl. rewrite String.eqb_refl. simpl.
      apply app_nil_r.
  - apply Forall_forall. intros t Ht. unfold select_book_id.
    rewrite insert_or_update_book_books.
    destruct (in_dec string_dec title (titles d)) as [Hin|Hin].
    + unfold upsert_book. apply existsb_title_In in Hin. rewrite Hin. simpl.
      rewrite find_map_same
        by (intros r; destruct (String.eqb (book_title r) title); reflexivity).
      destruct (find _ (books d)) as [r|]; simpl; [|reflexivity].
      destruct (String.eqb (book_title r) title); reflexivity.
    + destruct (upsert_book_titles_absent title url d Hin) as (id & E & _).
      rewrite E, find_snoc.
      destruct (find _ (books d)) as [r|] eqn:F; [reflexivity|].
      exfalso. unfold titles in Ht. apply in_map_iff in Ht.
      destruct Ht as (r & Hr & Hin').
      pose proof (find_none _ _ F r Hin') as Hn. simpl in Hn.
      now rewrite Hr, String.eqb_refl in Hn.
Qed.

End StoreMore.

Section StoreIds.

Import DbUtils.








(** When the Book sequence leaves no id, the call raises on its first
    statement and the store is left as it was. *)
Lemma insert_or_update_book_full d title url wfs :
  (2 ^ 63 - 1 <= Z.max (seq_books d) (max_id (map book_id (books d))))%Z ->
  DbUtils64.insert_or_update_book d title url wfs =
  (inl (OtherException "database or disk is full"), d).
Proof.
  intros H. apply Z.ltb_ge in H.
  unfold DbUtils64.insert_or_update_book, DbUtils64.upsert_book.
  unfold DbUtils64.new_rowid, DbUtils64.MAX_ROWID.
  cbn [get_connection in_txn]. now rewrite H.
Qed.

End StoreIds.

Section StoreFailures.

Import PyStr TextUtils DbUtils.

Lemma existsb_word_key id w d :
  existsb (fun r => (wf_book_id r =? id)%Z && String.eqb (wf_word r) w)
          (word_freqs d) = true <-> In (id, w) (word_keys d).
Proof.
  unfold word_keys. rewrite existsb_exists, in_map_iff. split.
  - intros (r & Hr & H). apply andb_true_iff in H. destruct H as [H1 H2].
    apply Z.eqb_eq in H1. apply String.eqb_eq in H2. exists r.
    split; [congruence|assumption].
  - intros (r & H & Hr). injection H as <- <-. exists r. split; [assumption|].
    now rewrite Z.eqb_refl, String.eqb_refl.
Qed.

Lemma fits_int64_iff f :
  negb ((- 2 ^ 63 <=? f)%Z && (f <? 2 ^ 63)%Z) = false <-> fits_int64 f.
Proof.
  unfold fits_int64.
  rewrite negb_false_iff, andb_true_iff, Z.leb_le, Z.ltb_lt. tauto.
Qed.

Lemma insert_word_freq_iff id w f d :
  (exists d', insert_word_freq id (w, f) d = inr d') <->
  fits_int64 f /\ ~ In (id, w) (word_keys d).
Proof.
  unfold insert_word_freq.
  destruct (negb _) eqn:R.
  - split; [intros (d' & H); discriminate|].
    intros [H _]. apply fits_int64_iff in H. congruence.
  - apply fits_int64_iff in R.
    destruct (existsb _ _) eqn:E.
    + apply existsb_word_key in E. split; [intros (d' & H); discriminate|tauto].
    + split; [|eauto]. intros _. split; [assumption|].
      intros H. apply existsb_word_key in H. congruence.
Qed.

Lemma insert_word_freq_keys id w f d d' :
  insert_word_freq id (w, f) d = inr d' ->
  word_keys d' = (word_keys d ++ [(id, w)])%list.
Proof.
  intros H. apply insert_word_freq_ok in H.
  destruct H as (_ & _ & rid & H). unfold word_keys.
  now rewrite H, map_app.
Qed.












End StoreFailures.

Section StoreOrder.

Import DbUtils.

Lemma count_desc_word_asc_antisym a b :
  count_desc_word_asc a b -> count_desc_word_asc b a -> a = b.
Proof.
  unfold count_desc_word_asc. destruct a as [w c], b as [w' c']. simpl.
  intros [H1|[H1 L1]] [H2|[H2 L2]]; try lia.
  subst. f_equal. now apply String.leb_antisym.
Qed.

Lemma sorted_perm_unique l : forall l',
  StronglySorted count_desc_word_asc l ->
  StronglySorted count_desc_word_asc l' ->
  Permutation l l' -> l = l'.
Proof.
  induction l as [|a l IH]; intros l' Hs Hs' P.
  - apply Permutation_nil in P. now subst.
  - destruct l' as [|a' l'];
      [apply Permutation_sym, Permutation_nil in P; discriminate|].
    inversion Hs as [|? ? Hl Ha]; subst.
    inversion Hs' as [|? ? Hl' Ha']; subst.
    rewrite Forall_forall in Ha, Ha'.
    assert (E : a = a').
    { assert (H1 : In a (a' :: l')) by (apply (Permutation_in _ P); now left).
      assert (H2 : In a' (a :: l))
        by (apply (Permutation_in _ (Permutation_sym P)); now left).
      destruct H1 as [H1|H1]; [now symmetry|].
      destruct H2 as [H2|H2]; [assumption|].
      apply count_desc_word_asc_antisym; auto. }
    subst a'. f_equal. apply IH; auto.
    now apply Permutation_cons_inv in P.
Qed.

Lemma order_by_of_perm l l' : Permutation l l' -> order_by l = order_by l'.
Proof.
  intros P. apply sorted_perm_unique; try apply order_by_sorted.
  rewrite <- (order_by_perm l), <- (order_by_perm l'). assumption.
Qed.

(** The rows read for a Book are its stored rows, each one once, ordered by
    count descending and, for equal counts, by word ascending; a Book
    without rows, or an id that is not stored, gives the empty list. *)
Theorem get_word_frequencies_ordered (d : database) (id : Z) :
  Permutation (rows_of d id) (get_word_frequencies d id) /\
  StronglySorted count_desc_word_asc (get_word_frequencies d id) /\
  (get_word_frequencies d id = [] <->
   Forall (fun r => wf_book_id r <> id) (word_freqs d)).
Proof.
  unfold get_word_frequencies. fold (rows_of d id).
  split; [apply order_by_perm|]. split; [apply order_by_sorted|].
  split.
  - intros H.
    assert (E : rows_of d id = []).
    { apply Permutation_nil. rewrite <- H. apply Permutation_sym, order_by_perm. }
    unfold rows_of in E. apply map_eq_nil in E.
    apply Forall_forall. intros r Hr Hid.
    assert (Hin : In r (filter (fun r => (wf_book_id r =? id)%Z) (word_freqs d)))
      by (apply filter_In; split; [assumption|now apply Z.eqb_eq]).
    now rewrite E in Hin.
  - intros H. unfold rows_of. rewrite filter_none; [reflexivity|].
    revert H. apply Forall_impl. intros r Hr. now apply Z.eqb_neq.
Qed.

(** What is read back does not depend on the order in which the rows were
    inserted: two stores holding the same rows for a Book give the same
    list. *)
Theorem get_word_frequencies_any_insertion_order (d d' : database) (id : Z) :
  Permutation (rows_of d id) (rows_of d' id) ->
  get_word_frequencies d id = get_word_frequencies d' id.
Proof.
  intros P. unfold get_word_frequencies.
  fold (rows_of d id). fold (rows_of d' id). now apply order_by_of_perm.
Qed.

Lemma get_word_frequencies_any_insertion_order_witness :
  Permutation
    (rows_of (snd (insert_or_update_book new_database "The Cat" "u"
                     [("sat", 1%Z); ("mat", 1%Z); ("cat", 3%Z)])) 1)
    (rows_of (snd (insert_or_update_book new_database "The Cat" "u"
                     [("cat", 3%Z); ("mat", 1%Z); ("sat", 1%Z)])) 1) /\
  get_word_frequencies
    (snd (insert_or_update_book new_database "The Cat" "u"
            [("sat", 1%Z); ("mat", 1%Z); ("cat", 3%Z)])) 1 =
  get_word_frequencies
    (snd (insert_or_update_book new_database "The Cat" "u"
            [("cat", 3%Z); ("mat", 1%Z); ("sat", 1%Z)])) 1.
Proof.
  assert (P : Permutation
    (rows_of (snd (insert_or_update_book new_database "The Cat" "u"
                     [("sat", 1%Z); ("mat", 1%Z); ("cat", 3%Z)])) 1)
    (rows_of (snd (insert_or_update_book new_database "The Cat" "u"
                     [("cat", 3%Z); ("mat", 1%Z); ("sat", 1%Z)])) 1)).
  { change (Permutation [("sat", 1%Z); ("mat", 1%Z); ("cat", 3%Z)]
                        [("cat", 3%Z); ("mat", 1%Z); ("sat", 1%Z)]).
    apply (perm_trans (l' := [("sat", 1%Z); ("cat", 3%Z); ("mat", 1%Z)])).
    - apply perm_skip, perm_swap.
    - apply (perm_trans (l' := [("cat", 3%Z); ("sat", 1%Z); ("mat", 1%Z)])).
      + apply perm_swap.
      + apply perm_skip, perm_swap. }
  split; [exact P|].
  exact (get_word_frequencies_any_insertion_order _ _ 1 P).
Defined.

End StoreOrder.

Section StoreInvariants.

Import DbUtils.

Lemma NoDup_map_filter {A B} (f : A -> B) (p : A -> bool) l :
  NoDup (map f l) -> NoDup (map f (filter p l)).
Proof.
  induction l as [|x l IH]; simpl; intros H; [constructor|].
  inversion H as [|? ? Hx Hl]; subst.
  destruct (p x); simpl; [|auto]. constructor; [|auto].
  intros Hin. apply Hx. apply in_map_iff in Hin.
  destruct Hin as (y & Hy & Hin). apply filter_In in Hin.
  rewrite <- Hy. apply in_map. tauto.
Qed.

Lemma NoDup_snoc {A} (l : list A) x : NoDup l -> ~ In x l -> NoDup (l ++ [x]).
Proof.
  intros Hl Hx. apply NoDup_app; [assumption|repeat constructor; simpl; tauto|].
  intros a Ha [<-|[]]. contradiction.
Qed.

(** The keys of the frequency table stay unique through the inserts of
    [executemany]. *)
Lemma executemany_insert_keys id rows : forall d d',
  executemany_insert id rows d = inr d' ->
  NoDup (word_keys d) -> NoDup (map wf_id (word_freqs d)) ->
  NoDup (word_keys d') /\ NoDup (map wf_id (word_freqs d')).
Proof.
  induction rows as [|[w f] rows IH]; cbn [executemany_insert]; intros d d' H Hk Hi.
  - injection H as <-. auto.
  - destruct (insert_word_freq id (w, f) d) as [e|d1] eqn:E; [discriminate|].
    apply (IH d1 d' H).
    + rewrite (insert_word_freq_keys _ _ _ _ _ E). apply NoDup_snoc; auto.
      apply (proj1 (insert_word_freq_iff id w f d)). eauto.
    + revert E. unfold insert_word_freq.
      destruct (negb _); [discriminate|].
      destruct (existsb _ _); [discriminate|].
      intros E. injection E as <-. simpl. rewrite map_app. simpl.
      apply NoDup_snoc; auto. intros Hin. apply max_id_ge in Hin. lia.
Qed.

Lemma upsert_book_ids title url d :
  NoDup (map book_id (books d)) ->
  NoDup (map book_id (books (upsert_book title url d))) /\
  incl (map book_id (books d)) (map book_id (books (upsert_book title url d))).
Proof.
  intros H. destruct (in_dec string_dec title (titles d)) as [Hin|Hin].
  - destruct (upsert_book_titles_present title url d Hin) as (_ & -> & _).
    split; [assumption|apply incl_refl].
  - destruct (upsert_book_titles_absent title url d Hin) as (id & -> & Hid).
    rewrite map_app. simpl. split; [now apply NoDup_snoc|].
    apply incl_appl, incl_refl.
Qed.

Lemma select_book_id_In d title id :
  select_book_id d title = Some id -> In id (map book_id (books d)).
Proof.
  unfold select_book_id.
  destruct (find _ (books d)) as [r|] eqn:F; [|discriminate].
  intros H. injection H as <-. apply find_some in F. apply in_map. tauto.
Qed.

(** One call keeps the constraints of the schema. *)
Lemma insert_or_update_book_constraints d title url wfs :
  NoDup (map book_id (books d)) ->
  NoDup (map wf_id (word_freqs d)) ->
  NoDup (word_keys d) ->
  Forall (fun r => In (wf_book_id r) (map book_id (books d))) (word_freqs d) ->
  NoDup (map book_id (books (snd (insert_or_update_book d title url wfs)))) /\
  NoDup (map wf_id (word_freqs (snd (insert_or_update_book d title url wfs)))) /\
  NoDup (word_keys (snd (insert_or_update_book d title url wfs))) /\
  Forall (fun r => In (wf_book_id r)
                      (map book_id
                         (books (snd (insert_or_update_book d title url wfs)))))
         (word_freqs (snd (insert_or_update_book d title url wfs))).
Proof.
  intros Hb Hi Hk Hfk.
  destruct (upsert_book_ids title url d Hb) as (Hb' & Hincl).
  rewrite insert_or_update_book_books.
  split; [assumption|].
  unfold insert_or_update_book. simpl.
  destruct (select_book_id_upsert title url d) as (id & Hid). rewrite Hid.
  destruct (upsert_book_word_freqs title url d) as (Hw & _).
  destruct (executemany_insert id wfs _) as [e|d'] eqn:E; simpl.
  - unfold word_keys. rewrite Hw. split; [assumption|]. split; [assumption|].
    revert Hfk. apply Forall_impl. intros r. apply Hincl.
  - destruct (executemany_insert_keys id wfs _ d' E) as (Hk' & Hi').
    + unfold word_keys, delete_word_freqs. simpl. rewrite Hw.
      now apply NoDup_map_filter.
    + unfold delete_word_freqs. simpl. rewrite Hw. now apply NoDup_map_filter.
    + split; [assumption|]. split; [assumption|].
      apply executemany_insert_ok in E.
      destruct E as (_ & _ & new & Hnew & _ & Hall). simpl in Hnew.
      rewrite Hnew, Hw. apply Forall_app. split.
      * apply Forall_forall. intros r Hr. apply filter_In in Hr.
        rewrite Forall_forall in Hfk. apply Hincl, Hfk. tauto.
      * revert Hall. apply Forall_impl. intros r ->.
        now apply select_book_id_In in Hid.
Qed.

(** The constraints of the schema hold after any sequence of calls on a new
    database, raising or not: Book ids are unique, row ids are unique, no
    Book has two rows for one word, and every row belongs to a stored
    Book. *)
Theorem schema_constraints_hold
    (calls : list (string * string * list (string * Z))) :
  NoDup (map book_id (books (run_inserts calls new_database))) /\
  NoDup (map wf_id (word_freqs (run_inserts calls new_database))) /\
  NoDup (word_keys (run_inserts calls new_database)) /\
  Forall (fun r => In (wf_book_id r)
                      (map book_id (books (run_inserts calls new_database))))
         (word_freqs (run_inserts calls new_database)).
Proof.
  assert (G : forall d,
             NoDup (map book_id (books d)) /\
             NoDup (map wf_id (word_freqs d)) /\
             NoDup (word_keys d) /\
             Forall (fun r => In (wf_book_id r) (map book_id (books d)))
                    (word_freqs d) ->
             NoDup (map book_id (books (run_inserts calls d))) /\
             NoDup (map wf_id (word_freqs (run_inserts calls d))) /\
             NoDup (word_keys (run_inserts calls d)) /\
             Forall (fun r => In (wf_book_id r)
                                 (map book_id (books (run_inserts calls d))))
                    (word_freqs (run_inserts calls d))).
  { induction calls as [|[[title url] wfs] calls IH]; simpl; intros d H;
      [assumption|].
    apply IH. destruct H as (H1 & H2 & H3 & H4).
    now apply insert_or_update_book_constraints. }
  apply G. repeat split; constructor.
Qed.

End StoreInvariants.

(* ===================================================================== *)
(** ** More on the handlers *)
(* ===================================================================== *)

Section Handlers.

Import PyStr TextUtils Main.

Lemma on_exception_run e w :
  snd (on_exception e w) =
  with_dialogs (dialogs w ++ [error_dialog e])
               (with_status_label (error_status e) w).
Proof. destruct e; reflexivity. Qed.

(** What the by-URL handler does for an entry that is not blank: it always
    requests the URL, whatever the store holds.  When the request raises,
    nothing is stored and the exception is shown; otherwise the text is
    analysed and stored under its extracted title, and the ten top words are
    shown with the status "Stored/updated ...". *)
Theorem on_search_url_outcomes (w : world) :
  truthy (strip (url_entry w)) = true ->
  match http w (requested w) (strip (url_entry w)) with
  | inl e => reports_error w (on_search_url w) [strip (url_entry w)] e
  | inr r =>
      stores_analysis w (on_search_url w) [strip (url_entry w)]
        (strip (url_entry w)) (text r)
        ("Stored/updated '" ++ extract_title (text r) ++ "' from URL.")
  end.
Proof.
  intros Hu. unfold on_search_url. rewrite Hu.
  set (url := strip (url_entry w)).
  unfold reports_error, stores_analysis.
  cbv [negb bind try_except clear_results fetch_book_text requests_get ret
       insert_or_update_book show_results set_status].
  change (http (with_tree [] w) (requested (with_tree [] w)))
    with (http w (requested w)).
  destruct (http w (requested w) url) as [e|r].
  - cbv beta iota. rewrite on_exception_run. repeat split.
  - cbv beta iota.
    change (store (with_requested _ (with_tree [] w))) with (store w).
    destruct (DbUtils.insert_or_update_book _ _ _ _) as [[e|[]] d].
    + cbv beta iota. rewrite on_exception_run. repeat split.
    + repeat split.
Qed.

Lemma on_search_url_outcomes_witness :
  truthy (strip (url_entry
     (with_url_entry " https://www.gutenberg.org/files/7/7-0.txt "
        (example_world example_store example_http EmptyString)))) = true /\
  stores_analysis
    (with_url_entry " https://www.gutenberg.org/files/7/7-0.txt "
       (example_world example_store example_http EmptyString))
    (on_search_url
       (with_url_entry " https://www.gutenberg.org/files/7/7-0.txt "
          (example_world example_store example_http EmptyString)))
    ["https://www.gutenberg.org/files/7/7-0.txt"]
    "https://www.gutenberg.org/files/7/7-0.txt" example_text
    "Stored/updated 'The Cat' from URL.".
Proof.
  split; [reflexivity|].
  exact (on_search_url_outcomes
           (with_url_entry " https://www.gutenberg.org/files/7/7-0.txt "
              (example_world example_store example_http EmptyString))
           eq_refl).
Defined.

(** What the by-title handler does on a cache miss, for an entry that is
    not blank.  An exception of the catalogue request, of the decoding of
    its answer or of the fetch is shown and nothing is stored; when the
    catalogue gives no location (or an empty one) "Book was not found." is
    shown, without any fetch; otherwise the text fetched is analysed and
    stored under its extracted title and the ten top words are shown. *)
Theorem on_search_title_miss_outcomes (w : world) :
  truthy (strip (title_entry w)) = true ->
  ~ cache_hit (store w) (strip (title_entry w)) ->
  match http w (requested w) (search_url (strip (title_entry w))) with
  | inl e =>
      reports_error w (on_search_title w)
                    [search_url (strip (title_entry w))] e
  | inr r =>
      match json r with
      | inl e =>
          reports_error w (on_search_title w)
                        [search_url (strip (title_entry w))] e
      | inr data =>
          match select_plain_text data with
          | None => reports_not_found w (on_search_title w)
                                      (strip (title_entry w))
          | Some u =>
              if truthy u then
                match http w (requested w ++ [search_url (strip (title_entry w))]) u with
                | inl e =>
                    reports_error w (on_search_title w)
                      [search_url (strip (title_entry w)); u] e
                | inr r2 =>
                    stores_analysis w (on_search_title w)
                      [search_url (strip (title_entry w)); u] u (text r2)
                      ("Retrieved '" ++ extract_title (text r2)
                       ++ "' from the web and stored it.")
                end
              else reports_not_found w (on_search_title w)
                                     (strip (title_entry w))
          end
      end
  end.
Proof.
  intros Ht Hmiss. rewrite (on_search_title_run w Ht).
  set (title := strip (title_entry w)) in *.
  set (w0 := with_tree [] w).
  assert (Hbody : search_title_body title w0 = search_fetch_store title w0).
  { destruct (DbUtils.get_book_by_title (store w0) title)
      as [[[id stored] url]|] eqn:Hb.
    - destruct (DbUtils.get_word_frequencies (store w0) id) as [|row rows] eqn:Hf.
      + apply (search_title_body_no_rows title w0 id stored url Hb Hf).
      + exfalso. apply Hmiss. exists id, stored, url, row, rows. auto.
    - apply (search_title_body_no_book title w0 Hb). }
  unfold try_except. rewrite Hbody, (search_fetch_store_unfold title w0 Ht).
  change (http w0 (requested w0)) with (http w (requested w)).
  unfold reports_error, reports_not_found, stores_analysis.
  destruct (http w (requested w) (search_url title)) as [e|r].
  { rewrite on_exception_run. repeat split. }
  destruct (json r) as [e|data].
  { rewrite on_exception_run. repeat split. }
  destruct (select_plain_text data) as [u|]; [|repeat split].
  destruct (truthy u); [|repeat split].
  cbv [bind fetch_book_text requests_get ret insert_or_update_book
       show_results clear_results set_status].
  change (http (asked title w0) (requested (asked title w0)))
    with (http w (requested w ++ [search_url title])).
  destruct (http w (requested w ++ [search_url title]) u) as [e|r2].
  { cbv beta iota. rewrite on_exception_run. simpl.
    rewrite <- app_assoc. repeat split. }
  cbv beta iota.
  change (store (with_requested _ (asked title w0))) with (store w).
  destruct (DbUtils.insert_or_update_book _ _ _ _) as [[e|[]] d].
  - cbv beta iota. rewrite on_exception_run. simpl.
    rewrite <- app_assoc. repeat split.
  - simpl. rewrite <- app_assoc. repeat split.
Qed.

Lemma on_search_title_miss_outcomes_witness :
  truthy (strip (title_entry
     (example_world example_store example_http "no such book"))) = true /\
  ~ cache_hit example_store "no such book" /\
  reports_error
    (example_world example_store example_http "no such book")
    (on_search_title (example_world example_store example_http "no such book"))
    [search_url "no such book"]
    (RequestException "404 Client Error: Not Found").
Proof.
  assert (H : ~ cache_hit example_store "no such book").
  { intros (id & stored & url & row & rows & Hb & _). discriminate Hb. }
  split; [reflexivity|]. split; [exact H|].
  exact (on_search_title_miss_outcomes
           (example_world example_store example_http "no such book")
           eq_refl H).
Defined.

End Handlers.

Section UserActions.

Import PyStr TextUtils Main.

(** One handler call either leaves the store or stores one analysis, and
    either leaves the results or shows at most ten rows. *)
Lemma on_search_title_step w :
  (store (on_search_title w) = store w \/
   exists t u b,
     store (on_search_title w) =
     snd (DbUtils.insert_or_update_book (store w) t u
            (compute_top_words b 10))) /\
  (tree (on_search_title w) = tree w \/ length (tree (on_search_title w)) <= 10).
Proof.
  destruct (truthy (strip (title_entry w))) eqn:Ht;
    [|rewrite (on_search_title_blank w Ht); auto].
  rewrite (on_search_title_run w Ht).
  set (title := strip (title_entry w)) in *.
  set (w0 := with_tree [] w).
  assert (Hmiss :
    (store (snd (try_except (search_fetch_store title) on_exception w0))
       = store w \/
     exists t u b,
       store (snd (try_except (search_fetch_store title) on_exception w0)) =
       snd (DbUtils.insert_or_update_book (store w) t u
              (compute_top_words b 10))) /\
    (tree (snd (try_except (search_fetch_store title) on_exception w0))
       = tree w \/
     length (tree (snd (try_except (search_fetch_store title) on_exception w0)))
       <= 10)).
  { unfold try_except. rewrite (search_fetch_store_unfold title w0 Ht).
    destruct (http w0 (requested w0) (search_url title)) as [e|r].
    { rewrite on_exception_run. split; [now left|right; simpl; lia]. }
    destruct (json r) as [e|data].
    { rewrite on_exception_run. split; [now left|right; simpl; lia]. }
    destruct (select_plain_text data) as [u|];
      [|split; [now left|right; simpl; lia]].
    destruct (truthy u); [|split; [now left|right; simpl; lia]].
    cbv [bind fetch_book_text requests_get ret insert_or_update_book
         show_results clear_results set_status].
    destruct (http (asked title w0) (requested (asked title w0)) u) as [e|r2].
    { cbv beta iota. rewrite on_exception_run.
      split; [now left|right; simpl; lia]. }
    cbv beta iota.
    change (store (with_requested _ (asked title w0))) with (store w).
    destruct (DbUtils.insert_or_update_book _ _ _ _) as [[e|[]] d] eqn:E.
    - cbv beta iota. rewrite on_exception_run. split; [|right; simpl; lia].
      right. exists (extract_title (text r2)), u, (text r2).
      now rewrite E.
    - split.
      + right. exists (extract_title (text r2)), u, (text r2). now rewrite E.
      + right. simpl. apply (firstn_le_length 10). }
  unfold try_except in *.
  destruct (DbUtils.get_book_by_title (store w0) title)
    as [[[id stored] url]|] eqn:Hb.
  - destruct (DbUtils.get_word_frequencies (store w0) id) as [|row rows] eqn:Hf.
    + now rewrite (search_title_body_no_rows title w0 id stored url Hb Hf).
    + rewrite (search_title_body_hit title w0 id stored url row rows Hb Hf).
      split; [now left|right]. apply (firstn_le_length 10).
  - now rewrite (search_title_body_no_book title w0 Hb).
Qed.

Lemma on_search_url_step w :
  (store (on_search_url w) = store w \/
   exists t u b,
     store (on_search_url w) =
     snd (DbUtils.insert_or_update_book (store w) t u
            (compute_top_words b 10))) /\
  (tree (on_search_url w) = tree w \/ length (tree (on_search_url w)) <= 10).
Proof.
  unfold on_search_url.
  destruct (truthy (strip (url_entry w))) eqn:Hu; simpl negb; cbv iota;
    [|auto].
  set (url := strip (url_entry w)).
  cbv [bind try_except clear_results fetch_book_text requests_get ret
       insert_or_update_book show_results set_status].
  destruct (http (with_tree [] w) (requested (with_tree [] w)) url) as [e|r].
  - cbv beta iota. rewrite on_exception_run. split; [now left|right; simpl; lia].
  - cbv beta iota.
    change (store (with_requested _ (with_tree [] w))) with (store w).
    destruct (DbUtils.insert_or_update_book _ _ _ _) as [[e|[]] d] eqn:E.
    + cbv beta iota. rewrite on_exception_run. split; [|right; simpl; lia].
      right. exists (extract_title (text r)), url, (text r). now rewrite E.
    + split.
      * right. exists (extract_title (text r)), url, (text r). now rewrite E.
      * right. simpl. apply (firstn_le_length 10).
Qed.

Lemma run_action_step a w :
  (store (run_action a w) = store w \/
   exists t u b,
     store (run_action a w) =
     snd (DbUtils.insert_or_update_book (store w) t u
            (compute_top_words b 10))) /\
  (tree (run_action a w) = tree w \/ length (tree (run_action a w)) <= 10).
Proof.
  destruct a as [entry|entry]; simpl.
  - apply (on_search_title_step (with_title_entry entry w)).
  - apply (on_search_url_step (with_url_entry entry w)).
Qed.

(** The results table never holds more than ten rows, whatever the user
    types and presses, once it holds at most ten. *)
Theorem results_never_exceed_ten (actions : list action) (w : world) :
  length (tree w) <= 10 ->
  length (tree (run_actions actions w)) <= 10.
Proof.
  revert w. induction actions as [|a actions IH]; simpl; intros w H;
    [assumption|].
  apply IH. destruct (run_action_step a w) as [_ [E|Hle]];
    [now rewrite E|assumption].
Qed.

Lemma results_never_exceed_ten_witness :
  length (tree (example_world DbUtils.new_database example_http EmptyString))
    <= 10 /\
  length (tree (run_actions
                  [press_search "the cat"; press_search "  ";
                   press_fetch "https://www.gutenberg.org/files/7/7-0.txt"]
                  (example_world DbUtils.new_database example_http EmptyString)))
    <= 10.
Proof.
  assert (H : length (tree (example_world DbUtils.new_database example_http
                              EmptyString)) <= 10) by (simpl; lia).
  split; [exact H|].
  exact (results_never_exceed_ten
           [press_search "the cat"; press_search "  ";
            press_fetch "https://www.gutenberg.org/files/7/7-0.txt"]
           (example_world DbUtils.new_database example_http EmptyString) H).
Defined.

Lemma insert_or_update_book_titles_grow d title url wfs :
  incl (titles d) (titles (snd (DbUtils.insert_or_update_book d title url wfs))).
Proof.
  unfold titles. rewrite insert_or_update_book_books.
  destruct (in_dec string_dec title (titles d)) as [Hin|Hin].
  - fold (titles (DbUtils.upsert_book title url d)).
    rewrite (proj1 (upsert_book_titles_present title url d Hin)).
    apply incl_refl.
  - destruct (upsert_book_titles_absent title url d Hin) as (id & -> & _).
    rewrite map_app. apply incl_appl, incl_refl.
Qed.

(** No handler ever removes a Book: a title stored stays stored, whatever
    the user types and presses, and whatever the network answers. *)
Theorem stored_titles_are_never_lost (actions : list action) (w : world) :
  incl (titles (store w)) (titles (store (run_actions actions w))).
Proof.
  revert w. induction actions as [|a actions IH]; simpl; intros w;
    [apply incl_refl|].
  apply (incl_tran (m := titles (store (run_action a w)))); [|apply IH].
  destruct (run_action_step a w) as [[E|(t & u & b & E)] _];
    rewrite E; [apply incl_refl|apply insert_or_update_book_titles_grow].
Qed.

End UserActions.

Section UrlThenTitle.

Import PyStr TextUtils Main.




End UrlThenTitle.

(* ===================================================================== *)
(** ** The shape of the words *)
(* ===================================================================== *)

Section Tokens.

Import PyStr TextUtils.

Lemma findall_from_tokens s : forall cur,
  all_chars is_token_char cur = true ->
  Forall (fun t => all_chars is_token_char t = true /\ truthy t = true)
         (findall_from cur s).
Proof.
  induction s as [|c s IH]; intros cur Hcur; simpl.
  - destruct (truthy cur) eqn:E; repeat constructor; assumption.
  - destruct (is_token_char c) eqn:Hc.
    + apply IH. rewrite all_chars_app, Hcur. simpl. now rewrite Hc.
    + destruct (truthy cur) eqn:E; [constructor; [auto|]|]; now apply IH.
Qed.

(** Every word returned is made of the letters a-z and apostrophes only:
    no capital, digit, accented letter or other sign is ever part of a
    word. *)
Theorem compute_top_words_word_shape (text : string) (n : Z) :
  Forall (fun wc => all_chars is_token_char (fst wc) = true)
         (compute_top_words text n).
Proof.
  apply Forall_forall. intros [w c] H. simpl.
  apply compute_top_words_In in H.
  assert (Hw : In w (filtered_tokens text)).
  { apply Counter_keys_In. change w with (fst (w, c)). now apply in_map. }
  unfold filtered_tokens, findall_tokens in Hw. apply filter_In in Hw.
  destruct Hw as [Hw _].
  pose proof (findall_from_tokens (lower text) EmptyString eq_refl) as Hf.
  rewrite Forall_forall in Hf. now apply Hf.
Qed.

(** A search that is made asks the fixed endpoint followed by the title as
    [quote_plus] encodes it, and nothing else; the encoded title is made of
    letters, digits, [_.-~], [+] and [%] only, so no character of the title
    can end the query or add a parameter to it. *)
Theorem search_request_is_encoded (w : world) (title : string) :
  truthy title = true ->
  requested (snd (search_gutenberg_by_title title w)) =
    (requested w ++
     [("https://gutendex.com/books?search=" ++ quote_plus title)%string])%list /\
  all_chars is_query_char (quote_plus title) = true.
Proof.
  intros Ht.
  rewrite (search_gutenberg_by_title_run title w Ht). split; [reflexivity|].
  clear. induction title as [|c s IH]; simpl; [reflexivity|].
  now rewrite all_chars_app, quote_plus_char_safe, IH.
Qed.

Lemma search_request_is_encoded_witness :
  truthy "war & peace?" = true /\
  requested (snd (search_gutenberg_by_title "war & peace?"
                    (example_world DbUtils.new_database example_http
                       "war & peace?"))) =
    ["https://gutendex.com/books?search=war+%26+peace%3F"] /\
  all_chars is_query_char "war+%26+peace%3F" = true.
Proof.
  split; [reflexivity|].
  exact (search_request_is_encoded
           (example_world DbUtils.new_database example_http "war & peace?")
           "war & peace?" eq_refl).
Defined.

End Tokens.

Section HandlersKeepConstraints.

Import Main.

(** The handlers keep the constraints of the schema: if Book ids and row ids
    are unique, no Book has two rows for one word and every row belongs to a
    stored Book, the same holds after any sequence of searches by title and
    fetches by URL, whatever the network answers. *)
Theorem handlers_keep_schema_constraints (actions : list action) (w : world) :
  NoDup (map book_id (books (store w))) ->
  NoDup (map wf_id (word_freqs (store w))) ->
  NoDup (word_keys (store w)) ->
  Forall (fun r => In (wf_book_id r) (map book_id (books (store w))))
         (word_freqs (store w)) ->
  NoDup (map book_id (books (store (run_actions actions w)))) /\
  NoDup (map wf_id (word_freqs (store (run_actions actions w)))) /\
  NoDup (word_keys (store (run_actions actions w))) /\
  Forall (fun r => In (wf_book_id r)
                      (map book_id (books (store (run_actions actions w)))))
         (word_freqs (store (run_actions actions w))).
Proof.
  revert w. induction actions as [|a actions IH]; simpl; intros w H1 H2 H3 H4;
    [auto|].
  destruct (run_action_step a w) as [[E|(t & u & b & E)] _].
  - apply IH; now rewrite E.
  - destruct (insert_or_update_book_constraints (store w) t u
                (TextUtils.compute_top_words b 10) H1 H2 H3 H4)
      as (G1 & G2 & G3 & G4).
    apply IH; now rewrite E.
Qed.

Lemma handlers_keep_schema_constraints_witness :
  NoDup (word_keys example_store) /\
  NoDup (word_keys
           (store (run_actions
                     [press_search "the cat";
                      press_fetch "https://www.gutenberg.org/files/7/7-0.txt"]
                     (example_world example_store example_http EmptyString)))).
Proof.
  assert (H1 : NoDup (map book_id (books example_store)))
    by (repeat constructor; simpl; tauto).
  assert (H2 : NoDup (map wf_id (word_freqs example_store)))
    by (repeat constructor; simpl; tauto).
  assert (H3 : NoDup (word_keys example_store))
    by (repeat constructor; simpl; tauto).
  assert (H4 : Forall (fun r => In (wf_book_id r)
                                   (map book_id (books example_store)))
                      (word_freqs example_store))
    by (repeat constructor).
  split; [exact H3|].
  exact (proj1 (proj2 (proj2
    (handlers_keep_schema_constraints
       [press_search "the cat";
        press_fetch "https://www.gutenberg.org/files/7/7-0.txt"]
       (example_world example_store example_http EmptyString)
       H1 H2 H3 H4)))).
Defined.

End HandlersKeepConstraints.
